(** * CLASP Python client (bindings/python/python/clasp/client.py)

    A shallow embedding of the session engine of the CLASP client: the
    subscription pattern matcher, the frame codec, the point-read
    correlation table and the subscriber dispatch, together with the
    properties the specification states about them.

    Conventions.
    - A Python [str] is a sequence of Unicode code points: [list N].
      String literals are written with [u "..."], which maps every
      character of a Rocq string to its code point.
    - A Python [int] is unbounded: [Z].
    - A Python [bytes] object is a [list Byte.byte].
    - A Python [dict] with string keys is a [gmap str _] where only
      lookups matter, and an insertion-ordered association list where
      the iteration order is observable. *)

From Stdlib Require Import ZArith NArith List Bool Ascii String Lia.
From Stdlib Require Import Init.Byte.
From stdpp Require Import base option list gmap.

Import ListNotations.
Set Warnings "-register-all".
Local Open Scope N_scope.

(** ** Python strings *)

Abbreviation str := (list N).

Definition u (s : string) : str :=
  List.map N_of_ascii (list_ascii_of_string s).

Module Chr.
Definition star : N := 42.       (* '*' *)
Definition qmark : N := 63.      (* '?' *)
Definition lbrack : N := 91.     (* '[' *)
Definition rbrack : N := 93.     (* ']' *)
Definition bang : N := 33.       (* '!' *)
Definition hyphen : N := 45.     (* '-' *)
Definition caret : N := 94.      (* '^' *)
Definition slash : N := 47.      (* '/' *)
Definition section : N := 167.   (* U+00A7, the sentinel character *)
End Chr.

(** [s.startswith(p)] *)
Fixpoint startswith (p s : str) : bool :=
  match p, s with
  | [], _ => true
  | _ :: _, [] => false
  | a :: p', b :: s' => (a =? b) && startswith p' s'
  end.

(** [old in s] for a non-empty [old]. *)
Fixpoint occurs (old s : str) : bool :=
  match s with
  | [] => false
  | _ :: s' => startswith old s || occurs old s'
  end.

(** [s.replace(old, new)] for a non-empty [old]: the occurrences of [old]
    are replaced from left to right and do not overlap.  [skip] counts the
    characters of the occurrence just replaced that are still to be
    dropped. *)
Fixpoint replace_from (old new : str) (skip : nat) (s : str) : str :=
  match s with
  | [] => []
  | c :: s' =>
      match skip with
      | S k => replace_from old new k s'
      | O =>
          if startswith old s
          then new ++ replace_from old new (Nat.pred (length old)) s'
          else c :: replace_from old new O s'
      end
  end.

Definition replace (old new s : str) : str := replace_from old new O s.

(** ** fnmatch

    [fnmatch.fnmatch(name, pat)] normalises the case of both arguments with
    [os.path.normcase], the identity on POSIX systems, and matches [name]
    against the regular expression [fnmatch.translate(pat)].  The regular
    expressions [translate] produces are sequences of the atoms below,
    anchored at both ends. *)
Module Fnmatch.

Inductive item : Type :=
| Single (c : N)
| Range (lo hi : N).

Inductive atom : Type :=
| Star                                   (* [.*]   from '*' *)
| AnyChar                                (* [.]    from '?' *)
| CharSet (neg : bool) (xs : list item)  (* [[...]] from '[seq]', '[!seq]' *)
| Lit (c : N).                           (* an escaped literal *)

(** Offset of the first [']'] at or after position [j]. *)
Fixpoint find_rbrack (j : nat) (s : str) : option nat :=
  match s with
  | [] => None
  | c :: s' =>
      match j with
      | S k => S <$> find_rbrack k s'
      | O => if c =? Chr.rbrack then Some O else S <$> find_rbrack O s'
      end
  end.

(** The scan for the closing bracket: [rest] is the pattern after the
    opening bracket; a leading ['!'] and then a leading [']'] are stepped
    over.  The result is the length of the bracket's content. *)
Definition bracket_end (rest : str) : option nat :=
  let j0 := match rest with c :: _ => if c =? Chr.bang then 1%nat else O | [] => O end in
  let j1 := match nth_error rest j0 with
            | Some c => if c =? Chr.rbrack then S j0 else j0
            | None => j0
            end in
  find_rbrack j1 rest.

(** The content of a bracket is cut into chunks at the hyphens that may
    join a range: the search for a hyphen starts after the first character
    (after the second when the first is ['!']) and resumes three characters
    after each hyphen found.  [cur] is the chunk being read, reversed;
    [skip] counts the characters the search steps over. *)
Fixpoint chunks_from (skip : nat) (cur : str) (stuff : str) : list str :=
  match stuff with
  | [] => [rev cur]
  | c :: rest =>
      match skip with
      | S k => chunks_from k (c :: cur) rest
      | O =>
          if c =? Chr.hyphen then rev cur :: chunks_from 2 [] rest
          else chunks_from O (c :: cur) rest
      end
  end.

(** A hyphen found at the very end joins nothing: it goes to the chunk
    before it. *)
Fixpoint close_chunks (chunks : list str) : list str :=
  match chunks with
  | [] => []
  | c :: rest =>
      match rest with
      | [[]] => [c ++ [Chr.hyphen]]
      | _ => c :: close_chunks rest
      end
  end.

(** Empty ranges are removed, from the last pair of chunks to the first:
    where the end of a chunk is greater than the start of the next, both
    characters go and the two chunks become one. *)
Fixpoint merge_chunks (chunks : list str) : list str :=
  match chunks with
  | [] => []
  | c :: rest =>
      match merge_chunks rest with
      | [] => [c]
      | d :: rest' =>
          match last c, d with
          | Some x, y :: d' =>
              if y <? x then (removelast c ++ d') :: rest' else c :: d :: rest'
          | _, _ => c :: d :: rest'
          end
      end
  end.

(** ['-'.join(chunks)], every character of a chunk escaped where the
    regular expression needs it: the characters of the class, where [true]
    marks a joining hyphen, the only character left with a meaning. *)
Definition class_chars (chunks : list str) : list (N * bool) :=
  match chunks with
  | [] => []
  | c :: rest =>
      ((fun x => (x, false)) <$> c)
      ++ flat_map (fun d => (Chr.hyphen, true) :: ((fun x => (x, false)) <$> d)) rest
  end.

(** The members of a class as [re] reads them: a character followed by a
    joining hyphen and another character is a range; a joining hyphen met
    where a member is expected, or in last position, is a member. *)
Fixpoint class_items (chars : list (N * bool)) : list item :=
  match chars with
  | [] => []
  | (x, _) :: rest =>
      match rest with
      | (_, true) :: (y, _) :: rest' => Range x y :: class_items rest'
      | [(_, true)] => [Single x; Single Chr.hyphen]
      | _ => Single x :: class_items rest
      end
  end.

(** The set a bracket's content denotes (as CPython 3.11 translates it).  The
    ['!'] that negates is looked for once the empty ranges are gone, so it
    need not be the first character of the content; a content left empty
    matches nothing, and one left as ["!"] any character.  A leading ['^']
    is escaped and therefore an ordinary member. *)
Definition charset (stuff : str) : atom :=
  let skip := match stuff with
              | c :: _ => if c =? Chr.bang then 2%nat else 1%nat
              | [] => 1%nat
              end in
  let chars := class_chars (merge_chunks (close_chunks (chunks_from skip [] stuff))) in
  match chars with
  | [] => CharSet false []
  | (c, _) :: chars' =>
      if c =? Chr.bang then
        match chars' with
        | [] => AnyChar
        | _ :: _ => CharSet true (class_items chars')
        end
      else CharSet false (class_items chars)
  end.

(** [fnmatch.translate]: [skip] counts the characters of a bracket
    already translated. *)
Fixpoint translate_from (skip : nat) (pat : str) : list atom :=
  match pat with
  | [] => []
  | c :: rest =>
      match skip with
      | S k => translate_from k rest
      | O =>
          if c =? Chr.star then Star :: translate_from O rest
          else if c =? Chr.qmark then AnyChar :: translate_from O rest
          else if c =? Chr.lbrack then
            match bracket_end rest with
            | None => Lit Chr.lbrack :: translate_from O rest
            | Some n => charset (take n rest) :: translate_from (S n) rest
            end
          else Lit c :: translate_from O rest
      end
  end.

Definition translate (pat : str) : list atom := translate_from O pat.

Definition in_item (c : N) (i : item) : bool :=
  match i with
  | Single x => c =? x
  | Range lo hi => (lo <=? c) && (c <=? hi)
  end.

Definition accepts (a : atom) (c : N) : bool :=
  match a with
  | Star => true
  | AnyChar => true
  | CharSet neg xs => xorb neg (existsb (in_item c) xs)
  | Lit x => c =? x
  end.

(** Anchored match of the whole of [s]. *)
Fixpoint fullmatch (re : list atom) (s : str) : bool :=
  match re with
  | [] => match s with [] => true | _ :: _ => false end
  | Star :: re' =>
      (fix star (s : str) : bool :=
         fullmatch re' s || match s with [] => false | _ :: s' => star s' end) s
  | a :: re' =>
      match s with
      | [] => false
      | c :: s' => accepts a c && fullmatch re' s'
      end
  end.

Definition fnmatch (name pat : str) : bool := fullmatch (translate pat) name.

End Fnmatch.

(** ** Pattern matching (client.py, [_match_pattern]) *)

Definition sentinel : str := [Chr.section; Chr.section].

Definition _match_pattern (pattern address : str) : bool :=
  let fn_pattern :=
    replace sentinel (u "*")
      (replace (u "*") (u "[^/]*")
         (replace (u "**") sentinel pattern)) in
  Fnmatch.fnmatch address fn_pattern.

(** ** Python values, exceptions and results *)

Abbreviation bytes := (list byte).

(** The values MessagePack carries.  A float is its IEEE 754 binary64 bit
    pattern; a dict (string keys) lists its items in insertion order. *)
Inductive Value : Type :=
| VNone
| VBool (b : bool)
| VInt (z : Z)
| VFloat (bits : N)
| VStr (s : str)
| VBytes (b : bytes)
| VList (xs : list Value)
| VDict (items : list (str * Value)).

Abbreviation Msg := (list (str * Value)).

(** Truth value of an object: [None], [False], zero, and the empty string,
    bytes, list and dict are false. *)
Definition truthy (v : Value) : bool :=
  match v with
  | VNone => false
  | VBool b => b
  | VInt z => negb (z =? 0)%Z
  | VFloat bits => negb (N.land bits (N.ones 63) =? 0)
  | VStr s => negb (bool_decide (s = []))
  | VBytes b => negb (bool_decide (b = []))
  | VList xs => match xs with [] => false | _ :: _ => true end
  | VDict items => match items with [] => false | _ :: _ => true end
  end.

(** [a or b] *)
Definition py_or (a b : Value) : Value := if truthy a then a else b.

Inductive exn : Type :=
| ClaspError (message : string)     (* class ClaspError(Exception) *)
| KeyError (key : str)
| TypeError
| AttributeError
| ValueError
| OverflowError
| InvalidStateError                 (* asyncio: the future is already done *)
| UserError (tag : N)               (* raised by a callback, below Exception *)
| UserExit (tag : N).               (* raised by a callback, a BaseException
                                       outside Exception (SystemExit, ...) *)

(** [isinstance(e, Exception)] *)
Definition is_Exception (e : exn) : bool :=
  match e with
  | UserExit _ => false
  | _ => true
  end.

Inductive res (A : Type) : Type :=
| Ok (a : A)
| Raise (e : exn).
Arguments Ok {A} a.
Arguments Raise {A} e.

Definition res_bind {A B : Type} (r : res A) (k : A -> res B) : res B :=
  match r with
  | Ok a => k a
  | Raise e => Raise e
  end.

(** [d.get(k)] on an association list. *)
Fixpoint assoc {A : Type} (k : str) (items : list (str * A)) : option A :=
  match items with
  | [] => None
  | (k', v) :: items' => if bool_decide (k' = k) then Some v else assoc k items'
  end.

(** [msg.get(key)] and [msg.get(key, default)]: only a dict has [get]. *)
Definition py_get_default (msg : Value) (key : str) (dflt : Value) : res Value :=
  match msg with
  | VDict items => Ok (default dflt (assoc key items))
  | _ => Raise AttributeError
  end.

Definition py_get (msg : Value) (key : str) : res Value :=
  py_get_default msg key VNone.

(** [obj[key]] with a string key: a dict raises KeyError when the key is
    missing, every other object raises TypeError. *)
Definition py_getitem (obj : Value) (key : str) : res Value :=
  match obj with
  | VDict items =>
      match assoc key items with
      | Some v => Ok v
      | None => Raise (KeyError key)
      end
  | _ => Raise TypeError
  end.

(** [iter(obj)]: the elements a [for] loop visits. *)
Definition py_iter (obj : Value) : res (list Value) :=
  match obj with
  | VList xs => Ok xs
  | VStr s => Ok ((fun c => VStr [c]) <$> s)
  | VBytes b => Ok ((fun x => VInt (Z.of_N (Byte.to_N x))) <$> b)
  | VDict items => Ok ((fun kv => VStr kv.1) <$> items)
  | _ => Raise TypeError
  end.

(** [v == s] for a string literal [s]. *)
Definition eq_str (v : Value) (s : str) : bool :=
  match v with
  | VStr t => bool_decide (t = s)
  | _ => false
  end.

(** Addresses are strings (a path-like string names a channel).  An address
    field that holds another object is outside the model: the source
    raises TypeError for it where the object is unhashable or reaches
    [fnmatch], which is after the cache was written when the object is
    hashable and only when a subscription is tried; the model raises the
    TypeError at once. *)
Definition as_address (v : Value) : res str :=
  match v with
  | VStr s => Ok s
  | _ => Raise TypeError
  end.

(** ** Byte sequences *)

(** [bytes([...])]: every element must be in [range(256)]. *)
Fixpoint bytes_of_ints (xs : list Z) : res bytes :=
  match xs with
  | [] => Ok []
  | x :: xs' =>
      if (x <? 0)%Z then Raise ValueError
      else
        match Byte.of_N (Z.to_N x) with
        | Some b => res_bind (bytes_of_ints xs') (fun bs => Ok (b :: bs))
        | None => Raise ValueError
        end
  end.

(** [len(data)] *)
Definition len {A : Type} (data : list A) : Z := Z.of_nat (length data).

(** [data[i]] for an index within range (0 stands for a missing byte; the
    codec reads a byte only after it has checked the length). *)
Definition byte_at (data : bytes) (i : nat) : Z :=
  match data !! i with
  | Some b => Z.of_N (Byte.to_N b)
  | None => 0%Z
  end.

(** [data[lo:hi]] for non-negative bounds. *)
Definition slice {A : Type} (data : list A) (lo hi : Z) : list A :=
  take (Z.to_nat (hi - lo)) (drop (Z.to_nat lo) data).

(** ** The client object (client.py, [class Clasp]) *)

(** A subscriber callback is called with [(value, address)] and either
    returns ([None]) or raises.  Callbacks are opaque to the client; what
    the model observes of them is each invocation, in the [calls] log, and
    whether it raised.  What a callback does to the client while it runs
    is kept apart from it, in [Reach] below. *)
Definition SubscriptionCallback : Type := Value -> str -> option exn.
Definition ErrorCallback : Type := exn -> option exn.

Inductive call : Type :=
| Called (sub_id : Z) (value : Value) (address : str)
| ErrorCalled (index : nat) (e : exn).

(** State of an [asyncio.Future]. *)
Inductive future : Type :=
| Pending
| Done (result : Value)
| Cancelled.

Record Clasp : Type := mkClasp {
  _ws : bool;                 (* [self._ws is not None] *)
  _connected : bool;
  _params : gmap str Value;
  _subscriptions : list (Z * (str * SubscriptionCallback));
                              (* id -> (pattern, callback), insertion order *)
  _next_sub_id : Z;
  _pending_gets : gmap str nat;   (* address -> future *)
  _on_error : list ErrorCallback;
  (* the surroundings of the object *)
  futures : list future;      (* the futures created so far, by identity *)
  sent : list bytes;          (* frames written to the transport *)
  tasks : list Msg;           (* [asyncio.create_task(self._send(msg))] *)
  calls : list call;          (* callback invocations *)
  stdout : list (Value * Value)
}.

(** [Clasp(url)] *)
Definition __init__ : Clasp :=
  {| _ws := false; _connected := false; _params := ∅; _subscriptions := [];
     _next_sub_id := 1; _pending_gets := ∅; _on_error := [];
     futures := []; sent := []; tasks := []; calls := []; stdout := [] |}.

Definition with_params (f : gmap str Value -> gmap str Value) (c : Clasp) : Clasp :=
  mkClasp (_ws c) (_connected c) (f (_params c)) (_subscriptions c) (_next_sub_id c)
          (_pending_gets c) (_on_error c) (futures c) (sent c) (tasks c) (calls c) (stdout c).
Definition with_subscriptions
    (f : list (Z * (str * SubscriptionCallback)) -> list (Z * (str * SubscriptionCallback)))
    (c : Clasp) : Clasp :=
  mkClasp (_ws c) (_connected c) (_params c) (f (_subscriptions c)) (_next_sub_id c)
          (_pending_gets c) (_on_error c) (futures c) (sent c) (tasks c) (calls c) (stdout c).
Definition with_next_sub_id (f : Z -> Z) (c : Clasp) : Clasp :=
  mkClasp (_ws c) (_connected c) (_params c) (_subscriptions c) (f (_next_sub_id c))
          (_pending_gets c) (_on_error c) (futures c) (sent c) (tasks c) (calls c) (stdout c).
Definition with_pending_gets (f : gmap str nat -> gmap str nat) (c : Clasp) : Clasp :=
  mkClasp (_ws c) (_connected c) (_params c) (_subscriptions c) (_next_sub_id c)
          (f (_pending_gets c)) (_on_error c) (futures c) (sent c) (tasks c) (calls c) (stdout c).
Definition with_on_error (f : list ErrorCallback -> list ErrorCallback) (c : Clasp) : Clasp :=
  mkClasp (_ws c) (_connected c) (_params c) (_subscriptions c) (_next_sub_id c)
          (_pending_gets c) (f (_on_error c)) (futures c) (sent c) (tasks c) (calls c) (stdout c).
Definition with_futures (f : list future -> list future) (c : Clasp) : Clasp :=
  mkClasp (_ws c) (_connected c) (_params c) (_subscriptions c) (_next_sub_id c)
          (_pending_gets c) (_on_error c) (f (futures c)) (sent c) (tasks c) (calls c) (stdout c).
Definition with_sent (f : list bytes -> list bytes) (c : Clasp) : Clasp :=
  mkClasp (_ws c) (_connected c) (_params c) (_subscriptions c) (_next_sub_id c)
          (_pending_gets c) (_on_error c) (futures c) (f (sent c)) (tasks c) (calls c) (stdout c).
Definition with_tasks (f : list Msg -> list Msg) (c : Clasp) : Clasp :=
  mkClasp (_ws c) (_connected c) (_params c) (_subscriptions c) (_next_sub_id c)
          (_pending_gets c) (_on_error c) (futures c) (sent c) (f (tasks c)) (calls c) (stdout c).
Definition with_calls (f : list call -> list call) (c : Clasp) : Clasp :=
  mkClasp (_ws c) (_connected c) (_params c) (_subscriptions c) (_next_sub_id c)
          (_pending_gets c) (_on_error c) (futures c) (sent c) (tasks c) (f (calls c)) (stdout c).
Definition with_stdout (f : list (Value * Value) -> list (Value * Value)) (c : Clasp) : Clasp :=
  mkClasp (_ws c) (_connected c) (_params c) (_subscriptions c) (_next_sub_id c)
          (_pending_gets c) (_on_error c) (futures c) (sent c) (tasks c) (calls c) (f (stdout c)).
Definition with_ws (b : bool) (c : Clasp) : Clasp :=
  mkClasp b (_connected c) (_params c) (_subscriptions c) (_next_sub_id c)
          (_pending_gets c) (_on_error c) (futures c) (sent c) (tasks c) (calls c) (stdout c).

(** *** Methods: a state and exception monad over the object *)

Definition M (A : Type) : Type := Clasp -> res A * Clasp.

#[global] Instance M_ret : MRet M := fun A a st => (Ok a, st).
#[global] Instance M_bind : MBind M := fun A B k m st =>
  match m st with
  | (Ok a, st') => k a st'
  | (Raise e, st') => (Raise e, st')
  end.

Definition raise {A : Type} (e : exn) : M A := fun st => (Raise e, st).
Definition lift {A : Type} (r : res A) : M A := fun st => (r, st).
Definition self : M Clasp := fun st => (Ok st, st).
Definition modify (f : Clasp -> Clasp) : M unit := fun st => (Ok (), f st).

(** [try: body except Exception as e: handler(e)] *)
Definition try_except {A : Type} (body : M A) (handler : exn -> M A) : M A :=
  fun st =>
    match body st with
    | (Raise e, st') => if is_Exception e then handler e st' else (Raise e, st')
    | r => r
    end.

(** [for x in xs: body(x)] *)
Fixpoint for_each {A : Type} (xs : list A) (body : A -> M unit) : M unit :=
  match xs with
  | [] => mret ()
  | x :: xs' => body x ;; for_each xs' body
  end.

(** [callback(value, address)] *)
Definition invoke (sub_id : Z) (callback : SubscriptionCallback)
    (value : Value) (address : str) : M unit :=
  modify (with_calls (fun l => l ++ [Called sub_id value address])) ;;
  match callback value address with
  | None => mret ()
  | Some e => raise e
  end.

(** [cb(e)] for the error callback at position [index]. *)
Definition invoke_error (e : exn) (index : nat) (cb : ErrorCallback) : M unit :=
  modify (with_calls (fun l => l ++ [ErrorCalled index e])) ;;
  match cb e with
  | None => mret ()
  | Some e' => raise e'
  end.

(** [for cb in self._on_error: cb(e)] *)
Fixpoint report_from (e : exn) (index : nat) (cbs : list ErrorCallback) : M unit :=
  match cbs with
  | [] => mret ()
  | cb :: cbs' => invoke_error e index cb ;; report_from e (S index) cbs'
  end.

Definition report (e : exn) : M unit :=
  st ← self; report_from e O (_on_error st).

(** The dispatch, for callbacks that leave [_subscriptions] alone while
    they run: the loop then visits the subscriptions the dict held when it
    started.  [live_notify] below is the loop over the live dict. *)
Definition _notify_subscribers (address : str) (value : Value) : M unit :=
  st ← self;
  for_each (_subscriptions st) (fun '(sub_id, (pattern, callback)) =>
    if _match_pattern pattern address then
      try_except (invoke sub_id callback value address) report
    else mret ()).

(** [future.set_result(value)] *)
Definition set_result (fut : nat) (value : Value) : M unit :=
  st ← self;
  match futures st !! fut with
  | Some Pending => modify (with_futures (fun fs => <[fut := Done value]> fs))
  | _ => raise InvalidStateError
  end.

(** One entry of a SNAPSHOT. *)
Definition apply_param (param : Value) : M unit :=
  a ← lift (py_getitem param (u "address"));
  value ← lift (py_getitem param (u "value"));
  address ← lift (as_address a);
  modify (with_params (fun m => <[address := value]> m)) ;;
  st ← self;
  match _pending_gets st !! address with
  | Some fut =>
      set_result fut value ;;
      modify (with_pending_gets (fun m => delete address m))
  | None => mret ()
  end ;;
  _notify_subscribers address value.

Definition _handle_message (msg : Value) : M unit :=
  msg_type ← lift (py_get msg (u "type"));
  if eq_str msg_type (u "SET") then
    a ← lift (py_getitem msg (u "address"));
    value ← lift (py_getitem msg (u "value"));
    address ← lift (as_address a);
    modify (with_params (fun m => <[address := value]> m)) ;;
    _notify_subscribers address value
  else if eq_str msg_type (u "SNAPSHOT") then
    ps ← lift (py_get_default msg (u "params") (VList []));
    params ← lift (py_iter ps);
    for_each params apply_param
  else if eq_str msg_type (u "PUBLISH") then
    a ← lift (py_getitem msg (u "address"));
    v ← lift (py_get msg (u "value"));
    p ← lift (py_get msg (u "payload"));
    address ← lift (as_address a);
    _notify_subscribers address (py_or v p)
  else if eq_str msg_type (u "PING") then
    modify (with_tasks (fun l => l ++ [[(u "type", VStr (u "PONG"))]]))
  else if eq_str msg_type (u "ERROR") then
    code ← lift (py_get msg (u "code"));
    message ← lift (py_get msg (u "message"));
    modify (with_stdout (fun l => l ++ [(code, message)]))
  else mret ().

(** One turn of [_receive_loop] on a decoded message: an [Exception] that
    escapes the handler is handed to the error callbacks, and the loop
    ends. *)
Definition receive (msg : Value) : M unit :=
  try_except (_handle_message msg) report.

(** *** Methods that reach the serializer

    [msgpack.packb] and [msgpack.unpackb(_, raw=False)] belong to the
    MessagePack library; the client is parameterised by them. *)
Section Client.

Context (packb : Value -> res bytes) (unpackb : bytes -> res Value).

Definition _encode (msg : Msg) : res bytes :=
  res_bind (packb (VDict msg)) (fun payload =>
  res_bind (bytes_of_ints
              [ 0x53;
                0x00;
                Z.land (Z.shiftr (len payload) 8) 0xFF;
                Z.land (len payload) 0xFF ]%Z) (fun header =>
  Ok (header ++ payload))).

Definition _decode (data : bytes) : res Value :=
  if (len data <? 4)%Z || negb (byte_at data 0 =? 0x53)%Z
  then Raise (ClaspError "Invalid frame")
  else
    let flags := byte_at data 1 in
    let payload_len := Z.lor (Z.shiftl (byte_at data 2) 8) (byte_at data 3) in
    let has_timestamp := negb (Z.land flags 0x20 =? 0)%Z in
    let offset := (if has_timestamp then 12 else 4)%Z in
    let payload := slice data offset (offset + payload_len) in
    unpackb payload.

Definition _send (msg : Msg) : M unit :=
  st ← self;
  if negb (_ws st) then raise (ClaspError "Not connected")
  else
    data ← lift (_encode msg);
    modify (with_sent (fun l => l ++ [data])).

(** [subscribe(pattern, callback, **options)]; the result is the id the
    returned [unsubscribe] closure holds. *)
Definition subscribe (pattern : str) (callback : SubscriptionCallback)
    (options : Msg) : M Z :=
  st ← self;
  let sub_id := _next_sub_id st in
  modify (with_next_sub_id (fun n => n + 1)%Z) ;;
  modify (with_subscriptions (fun l => l ++ [(sub_id, (pattern, callback))])) ;;
  modify (with_tasks (fun l => l ++
    [[ (u "type", VStr (u "SUBSCRIBE"));
       (u "id", VInt sub_id);
       (u "pattern", VStr pattern);
       (u "options", if truthy (VDict options) then VDict options else VNone) ]])) ;;
  mret sub_id.

Definition unsubscribe (sub_id : Z) : M unit :=
  st ← self;
  if existsb (fun s => (s.1 =? sub_id)%Z) (_subscriptions st) then
    modify (with_subscriptions (filter (fun s => s.1 ≠ sub_id))) ;;
    modify (with_tasks (fun l => l ++
      [[ (u "type", VStr (u "UNSUBSCRIBE")); (u "id", VInt sub_id) ]]))
  else mret ().

Definition on_error (callback : ErrorCallback) : M unit :=
  modify (with_on_error (fun l => l ++ [callback])).

(** [get(address, timeout)] is a coroutine.  [get_begin] runs it up to
    its first suspension on the future: it either returns the cached
    value or leaves the call waiting on the future it registered. *)
Inductive get_state : Type :=
| Returned (value : Value)
| Waiting (fut : nat).

Definition get_begin (address : str) : M get_state :=
  st ← self;
  match _params st !! address with
  | Some value => mret (Returned value)
  | None =>
      let fut := length (futures st) in
      modify (with_futures (fun fs => fs ++ [Pending])) ;;
      modify (with_pending_gets (fun m => <[address := fut]> m)) ;;
      _send [ (u "type", VStr (u "GET")); (u "address", VStr address) ] ;;
      mret (Waiting fut)
  end.

(** The call resumes with the result once its future is done. *)
Definition get_resume (fut : nat) : M Value :=
  st ← self;
  match futures st !! fut with
  | Some (Done value) => mret value
  | _ => raise InvalidStateError
  end.

(** The timeout elapses first: [asyncio.wait_for] cancels the future and
    raises [asyncio.TimeoutError], and the handler runs
    [del self._pending_gets[address]] and raises the client's error. *)
Definition cancel (fut : nat) : M unit :=
  st ← self;
  match futures st !! fut with
  | Some Pending => modify (with_futures (fun fs => <[fut := Cancelled]> fs))
  | _ => mret ()
  end.

Definition get_timeout (address : str) (fut : nat) : M Value :=
  cancel fut ;;
  st ← self;
  match _pending_gets st !! address with
  | Some _ =>
      modify (with_pending_gets (fun m => delete address m)) ;;
      raise (ClaspError "Get timeout")
  | None => raise (KeyError address)
  end.

(** What may run between a suspension of [get] and its wake-up: the
    receive loop handling a decoded message, other callers starting a
    [get] or running into their timeout, a scheduled send being run, and
    (un)subscriptions. *)
Inductive event : Type :=
| Inbound (msg : Value)
| GetBegin (address : str)
| GetTimeout (address : str) (fut : nat)
| RunTask
| Subscribe (pattern : str) (callback : SubscriptionCallback)
| Unsubscribe (sub_id : Z).

(** An exception an event raises ends that caller; the object keeps the
    state it had reached. *)
Definition step (ev : event) (st : Clasp) : Clasp :=
  match ev with
  | Inbound msg => (receive msg st).2
  | GetBegin address => (get_begin address st).2
  | GetTimeout address fut => (get_timeout address fut st).2
  | RunTask =>
      match tasks st with
      | [] => st
      | msg :: rest => (_send msg (with_tasks (fun _ => rest) st)).2
      end
  | Subscribe pattern callback => (subscribe pattern callback [] st).2
  | Unsubscribe sub_id => (unsubscribe sub_id st).2
  end.

Definition run_events (evs : list event) (st : Clasp) : Clasp :=
  foldl (fun st ev => step ev st) st evs.

End Client.

(** ** A MessagePack serializer

    The serializer of the client: the formats [msgpack.packb] (msgpack 1.x,
    [use_bin_type=True]) emits for [None], booleans, integers, floats,
    strings, bytes, lists and dicts with string keys, and their decoding by
    [msgpack.unpackb(_, raw=False)].  What [Value] has no term for is
    outside the model: the decoder rejects float32, extension types and
    maps whose keys are not strings, which the library reads, and the
    packer has no recursion limit. *)
Module Msgpack.

Definition byte_of (n : Z) : byte :=
  default Byte.x00 (Byte.of_N (Z.to_N (n mod 256))).

(** [n] as [k] bytes, most significant first. *)
Fixpoint be (k : nat) (n : Z) : bytes :=
  match k with
  | O => []
  | S k' => byte_of (Z.shiftr n (8 * Z.of_nat k')) :: be k' n
  end.

Definition of_be (data : bytes) : Z :=
  foldl (fun acc b => acc * 256 + Z.of_N (Byte.to_N b))%Z 0%Z data.

Definition utf8_char (c : N) : res bytes :=
  let z := Z.of_N c in
  if (z <? 0x80)%Z then Ok [byte_of z]
  else if (z <? 0x800)%Z then
    Ok [byte_of (0xC0 + Z.shiftr z 6); byte_of (0x80 + Z.land z 0x3F)]
  else if (z <? 0x10000)%Z then
    if (0xD800 <=? z)%Z && (z <=? 0xDFFF)%Z then Raise ValueError
    else Ok [byte_of (0xE0 + Z.shiftr z 12);
             byte_of (0x80 + Z.land (Z.shiftr z 6) 0x3F);
             byte_of (0x80 + Z.land z 0x3F)]
  else if (z <? 0x110000)%Z then
    Ok [byte_of (0xF0 + Z.shiftr z 18);
        byte_of (0x80 + Z.land (Z.shiftr z 12) 0x3F);
        byte_of (0x80 + Z.land (Z.shiftr z 6) 0x3F);
        byte_of (0x80 + Z.land z 0x3F)]
  else Raise ValueError.

(** [s.encode("utf-8")] *)
Fixpoint utf8 (s : str) : res bytes :=
  match s with
  | [] => Ok []
  | c :: s' =>
      res_bind (utf8_char c) (fun b =>
      res_bind (utf8 s') (fun bs => Ok (b ++ bs)))
  end.

Definition cont (b : byte) : option Z :=
  let z := Z.of_N (Byte.to_N b) in
  if (0x80 <=? z)%Z && (z <=? 0xBF)%Z then Some (z - 0x80)%Z else None.

(** [b.decode("utf-8")] *)
Fixpoint utf8_decode (fuel : nat) (data : bytes) : res str :=
  match fuel with
  | O => match data with [] => Ok [] | _ => Raise ValueError end
  | S fuel' =>
      match data with
      | [] => Ok []
      | b0 :: rest =>
          let z0 := Z.of_N (Byte.to_N b0) in
          let emit (cp : Z) (lo hi : Z) (rest' : bytes) : res str :=
            if (lo <=? cp)%Z && (cp <=? hi)%Z
               && negb ((0xD800 <=? cp)%Z && (cp <=? 0xDFFF)%Z)
            then res_bind (utf8_decode fuel' rest') (fun s => Ok (Z.to_N cp :: s))
            else Raise ValueError in
          if (z0 <? 0x80)%Z then emit z0 0%Z 0x7F%Z rest
          else if (0xC0 <=? z0)%Z && (z0 <? 0xE0)%Z then
            match rest with
            | b1 :: rest' =>
                match cont b1 with
                | Some c1 => emit ((z0 - 0xC0) * 64 + c1)%Z 0x80%Z 0x7FF%Z rest'
                | None => Raise ValueError
                end
            | _ => Raise ValueError
            end
          else if (0xE0 <=? z0)%Z && (z0 <? 0xF0)%Z then
            match rest with
            | b1 :: b2 :: rest' =>
                match cont b1, cont b2 with
                | Some c1, Some c2 =>
                    emit (((z0 - 0xE0) * 64 + c1) * 64 + c2)%Z 0x800%Z 0xFFFF%Z rest'
                | _, _ => Raise ValueError
                end
            | _ => Raise ValueError
            end
          else if (0xF0 <=? z0)%Z && (z0 <? 0xF8)%Z then
            match rest with
            | b1 :: b2 :: b3 :: rest' =>
                match cont b1, cont b2, cont b3 with
                | Some c1, Some c2, Some c3 =>
                    emit ((((z0 - 0xF0) * 64 + c1) * 64 + c2) * 64 + c3)%Z
                         0x10000%Z 0x10FFFF%Z rest'
                | _, _, _ => Raise ValueError
                end
            | _ => Raise ValueError
            end
          else Raise ValueError
      end
  end.

Definition pack_int (z : Z) : res bytes :=
  if (0 <=? z)%Z then
    if (z <? 0x80)%Z then Ok [byte_of z]
    else if (z <? 0x100)%Z then Ok (Byte.xcc :: be 1 z)
    else if (z <? 0x10000)%Z then Ok (Byte.xcd :: be 2 z)
    else if (z <? 0x100000000)%Z then Ok (Byte.xce :: be 4 z)
    else if (z <? 0x10000000000000000)%Z then Ok (Byte.xcf :: be 8 z)
    else Raise OverflowError
  else
    if (-32 <=? z)%Z then Ok [byte_of z]
    else if (-0x80 <=? z)%Z then Ok (Byte.xd0 :: be 1 z)
    else if (-0x8000 <=? z)%Z then Ok (Byte.xd1 :: be 2 z)
    else if (-0x80000000 <=? z)%Z then Ok (Byte.xd2 :: be 4 z)
    else if (-0x8000000000000000 <=? z)%Z then Ok (Byte.xd3 :: be 8 z)
    else Raise OverflowError.

(** Header of a string, byte string, list or dict of [n] elements. *)
Definition pack_str_header (n : Z) : res bytes :=
  if (n <? 32)%Z then Ok [byte_of (0xA0 + n)]
  else if (n <? 0x100)%Z then Ok (Byte.xd9 :: be 1 n)
  else if (n <? 0x10000)%Z then Ok (Byte.xda :: be 2 n)
  else if (n <? 0x100000000)%Z then Ok (Byte.xdb :: be 4 n)
  else Raise ValueError.

Definition pack_bin_header (n : Z) : res bytes :=
  if (n <? 0x100)%Z then Ok (Byte.xc4 :: be 1 n)
  else if (n <? 0x10000)%Z then Ok (Byte.xc5 :: be 2 n)
  else if (n <? 0x100000000)%Z then Ok (Byte.xc6 :: be 4 n)
  else Raise ValueError.

Definition pack_array_header (n : Z) : res bytes :=
  if (n <? 16)%Z then Ok [byte_of (0x90 + n)]
  else if (n <? 0x10000)%Z then Ok (Byte.xdc :: be 2 n)
  else if (n <? 0x100000000)%Z then Ok (Byte.xdd :: be 4 n)
  else Raise ValueError.

Definition pack_map_header (n : Z) : res bytes :=
  if (n <? 16)%Z then Ok [byte_of (0x80 + n)]
  else if (n <? 0x10000)%Z then Ok (Byte.xde :: be 2 n)
  else if (n <? 0x100000000)%Z then Ok (Byte.xdf :: be 4 n)
  else Raise ValueError.

Definition pack_str (s : str) : res bytes :=
  res_bind (utf8 s) (fun body =>
  res_bind (pack_str_header (len body)) (fun h => Ok (h ++ body))).

Fixpoint pack (v : Value) : res bytes :=
  match v with
  | VNone => Ok [Byte.xc0]
  | VBool false => Ok [Byte.xc2]
  | VBool true => Ok [Byte.xc3]
  | VInt z => pack_int z
  | VFloat bits => Ok (Byte.xcb :: be 8 (Z.of_N bits))
  | VStr s => pack_str s
  | VBytes b => res_bind (pack_bin_header (len b)) (fun h => Ok (h ++ b))
  | VList xs =>
      res_bind (pack_array_header (len xs)) (fun h =>
      res_bind ((fix pack_all (xs : list Value) : res bytes :=
                   match xs with
                   | [] => Ok []
                   | x :: xs' =>
                       res_bind (pack x) (fun b =>
                       res_bind (pack_all xs') (fun bs => Ok (b ++ bs)))
                   end) xs) (fun body => Ok (h ++ body)))
  | VDict items =>
      res_bind (pack_map_header (len items)) (fun h =>
      res_bind ((fix pack_items (items : list (str * Value)) : res bytes :=
                   match items with
                   | [] => Ok []
                   | (k, x) :: items' =>
                       res_bind (pack_str k) (fun kb =>
                       res_bind (pack x) (fun b =>
                       res_bind (pack_items items') (fun bs => Ok (kb ++ b ++ bs))))
                   end) items) (fun body => Ok (h ++ body)))
  end.

Definition packb (v : Value) : res bytes := pack v.

(** [d[k] = v]: a key already present keeps its position. *)
Fixpoint dict_set (k : str) (v : Value) (items : list (str * Value)) : list (str * Value) :=
  match items with
  | [] => [(k, v)]
  | (k', v') :: items' =>
      if bool_decide (k' = k) then (k, v) :: items'
      else (k', v') :: dict_set k v items'
  end.

Definition split_at (n : Z) (data : bytes) : res (bytes * bytes) :=
  if (len data <? n)%Z then Raise ValueError
  else Ok (take (Z.to_nat n) data, drop (Z.to_nat n) data).

Definition read_uint (k : Z) (data : bytes) : res (Z * bytes) :=
  res_bind (split_at k data) (fun '(h, rest) => Ok (of_be h, rest)).

Definition read_int (k : Z) (data : bytes) : res (Z * bytes) :=
  res_bind (read_uint k data) (fun '(n, rest) =>
    Ok (if (n <? 2 ^ (8 * k - 1))%Z then n else (n - 2 ^ (8 * k))%Z, rest)).

Definition read_str (n : Z) (data : bytes) : res (Value * bytes) :=
  res_bind (split_at n data) (fun '(h, rest) =>
  res_bind (utf8_decode (length h) h) (fun s => Ok (VStr s, rest))).

Definition read_bin (n : Z) (data : bytes) : res (Value * bytes) :=
  res_bind (split_at n data) (fun '(h, rest) => Ok (VBytes h, rest)).

(** One object from the front of [data]; every nested object consumes a
    byte, so [S (length data)] is fuel enough. *)
Fixpoint unpack (fuel : nat) (data : bytes) : res (Value * bytes) :=
  match fuel with
  | O => Raise ValueError
  | S fuel' =>
      let array (n : Z) (data : bytes) : res (Value * bytes) :=
        res_bind
          ((fix elements (n : nat) (data : bytes) : res (list Value * bytes) :=
              match n with
              | O => Ok ([], data)
              | S n' =>
                  res_bind (unpack fuel' data) (fun '(v, rest) =>
                  res_bind (elements n' rest) (fun '(vs, rest') => Ok (v :: vs, rest')))
              end) (Z.to_nat n) data)
          (fun '(vs, rest) => Ok (VList vs, rest)) in
      let map (n : Z) (data : bytes) : res (Value * bytes) :=
        res_bind
          ((fix entries (n : nat) (acc : list (str * Value)) (data : bytes)
              : res (list (str * Value) * bytes) :=
              match n with
              | O => Ok (acc, data)
              | S n' =>
                  res_bind (unpack fuel' data) (fun '(k, rest) =>
                  match k with
                  | VStr key =>
                      res_bind (unpack fuel' rest) (fun '(v, rest') =>
                      entries n' (dict_set key v acc) rest')
                  | _ => Raise ValueError
                  end)
              end) (Z.to_nat n) [] data)
          (fun '(kvs, rest) => Ok (VDict kvs, rest)) in
      match data with
      | [] => Raise ValueError
      | b :: rest =>
          let t := Z.of_N (Byte.to_N b) in
          if (t <? 0x80)%Z then Ok (VInt t, rest)
          else if (t <? 0x90)%Z then map (t - 0x80)%Z rest
          else if (t <? 0xA0)%Z then array (t - 0x90)%Z rest
          else if (t <? 0xC0)%Z then read_str (t - 0xA0)%Z rest
          else if (0xE0 <=? t)%Z then Ok (VInt (t - 0x100), rest)
          else if (t =? 0xC0)%Z then Ok (VNone, rest)
          else if (t =? 0xC2)%Z then Ok (VBool false, rest)
          else if (t =? 0xC3)%Z then Ok (VBool true, rest)
          else if (0xC4 <=? t)%Z && (t <=? 0xC6)%Z then
            res_bind (read_uint (2 ^ (t - 0xC4)) rest) (fun '(n, r) => read_bin n r)
          else if (t =? 0xCB)%Z then
            res_bind (read_uint 8 rest) (fun '(n, r) => Ok (VFloat (Z.to_N n), r))
          else if (0xCC <=? t)%Z && (t <=? 0xCF)%Z then
            res_bind (read_uint (2 ^ (t - 0xCC)) rest) (fun '(n, r) => Ok (VInt n, r))
          else if (0xD0 <=? t)%Z && (t <=? 0xD3)%Z then
            res_bind (read_int (2 ^ (t - 0xD0)) rest) (fun '(n, r) => Ok (VInt n, r))
          else if (0xD9 <=? t)%Z && (t <=? 0xDB)%Z then
            res_bind (read_uint (2 ^ (t - 0xD9)) rest) (fun '(n, r) => read_str n r)
          else if (0xDC <=? t)%Z && (t <=? 0xDD)%Z then
            res_bind (read_uint (2 ^ (t - 0xDC + 1)) rest) (fun '(n, r) => array n r)
          else if (0xDE <=? t)%Z && (t <=? 0xDF)%Z then
            res_bind (read_uint (2 ^ (t - 0xDE + 1)) rest) (fun '(n, r) => map n r)
          else Raise ValueError
      end
  end.

(** [msgpack.unpackb(data, raw=False)]: one object and nothing after it. *)
Definition unpackb (data : bytes) : res Value :=
  match unpack (S (length data)) data with
  | Ok (v, []) => Ok v
  | Ok (_, _ :: _) => Raise ValueError
  | Raise e => Raise e
  end.

(** The loops inside [pack] and [unpack], as functions of their own. *)
Fixpoint pack_all (xs : list Value) : res bytes :=
  match xs with
  | [] => Ok []
  | x :: xs' =>
      res_bind (pack x) (fun b =>
      res_bind (pack_all xs') (fun bs => Ok (b ++ bs)))
  end.

Fixpoint pack_items (items : list (str * Value)) : res bytes :=
  match items with
  | [] => Ok []
  | (k, x) :: items' =>
      res_bind (pack_str k) (fun kb =>
      res_bind (pack x) (fun b =>
      res_bind (pack_items items') (fun bs => Ok (kb ++ b ++ bs))))
  end.

Definition elements (fuel : nat) : nat -> bytes -> res (list Value * bytes) :=
  fix elements (n : nat) (data : bytes) : res (list Value * bytes) :=
    match n with
    | O => Ok ([], data)
    | S n' =>
        res_bind (unpack fuel data) (fun '(v, rest) =>
        res_bind (elements n' rest) (fun '(vs, rest') => Ok (v :: vs, rest')))
    end.

Definition entries (fuel : nat)
    : nat -> list (str * Value) -> bytes -> res (list (str * Value) * bytes) :=
  fix entries (n : nat) (acc : list (str * Value)) (data : bytes)
      : res (list (str * Value) * bytes) :=
    match n with
    | O => Ok (acc, data)
    | S n' =>
        res_bind (unpack fuel data) (fun '(k, rest) =>
        match k with
        | VStr key =>
            res_bind (unpack fuel rest) (fun '(v, rest') =>
            entries n' (dict_set key v acc) rest')
        | _ => Raise ValueError
        end)
    end.

Definition unpack_array (fuel : nat) (n : Z) (data : bytes) : res (Value * bytes) :=
  res_bind (elements fuel (Z.to_nat n) data) (fun '(vs, rest) => Ok (VList vs, rest)).

Definition unpack_map (fuel : nat) (n : Z) (data : bytes) : res (Value * bytes) :=
  res_bind (entries fuel (Z.to_nat n) [] data) (fun '(kvs, rest) => Ok (VDict kvs, rest)).

End Msgpack.

(** ** Well-formed messages

    A message is well formed for the codec when it is a value of Python
    that the serializer accepts and whose payload respects the frame
    invariant of the data model. *)

(** [math.isnan], on the bit pattern of a float. *)
Definition is_nan (bits : N) : bool :=
  (N.land (N.shiftr bits 52) 0x7FF =? 0x7FF) && negb (N.land bits (N.ones 52) =? 0).

(** Levels of lists and dicts nested in a value. *)
Fixpoint depth (v : Value) : nat :=
  match v with
  | VList xs => S (foldr (fun x d => Nat.max (depth x) d) O xs)
  | VDict items => S (foldr (fun kv d => Nat.max (depth kv.2) d) O items)
  | _ => O
  end.

(** The terms of [Value] that stand for a Python object which is equal to
    itself: a float is a pattern of 64 bits and not a NaN (a NaN differs
    from every float, itself included, so no message that holds one is
    [==] to anything), and the keys of a dict are pairwise distinct. *)
Fixpoint representable (v : Value) : bool :=
  match v with
  | VFloat bits => (bits <? 2 ^ 64) && negb (is_nan bits)
  | VList xs => forallb representable xs
  | VDict items =>
      bool_decide (NoDup (fst <$> items))
      && forallb (fun kv => representable kv.2) items
  | _ => true
  end.

(** The packer gives up beyond its recursion limit (511 levels, of which
    the pure Python packer spends two on every dict); the model of the
    packer has no such limit, so a well-formed message stays within 255
    levels.  The payload is at most 65535 bytes, the longest the length
    field of a frame can state. *)
Definition well_formed (m : Msg) : Prop :=
  representable (VDict m) = true
  /\ (depth (VDict m) <= 255)%nat
  /\ exists payload : bytes,
       Msgpack.packb (VDict m) = Ok payload /\ (len payload <= 65535)%Z.

(** What the round trip through the serializer says of one value: the
    bytes [pack] gives for it are read back as the value, whatever follows
    them, by an unpacker with fuel for its nesting. *)
Definition roundtrips (v : Value) : Prop :=
  forall b, representable v = true -> Msgpack.pack v = Ok b ->
    (depth v <= length b)%nat
    /\ forall fuel rest, (depth v < fuel)%nat ->
         Msgpack.unpack fuel (b ++ rest) = Ok (v, rest).

(** ** Predicates of the statements *)

(** A pattern in which [fnmatch] finds nothing to interpret. *)
Definition literal (p : str) : bool :=
  forallb (fun c => negb ((c =? Chr.star) || (c =? Chr.qmark) || (c =? Chr.lbrack))) p.

(** No wildcard of the pattern grammar ([*], [**]) in the pattern. *)
Definition no_wildcard (p : str) : bool :=
  forallb (fun c => negb (c =? Chr.star)) p.

(** ** Concrete messages *)

Definition set_opacity : Msg :=
  [ (u "type", VStr (u "SET"));
    (u "address", VStr (u "/lumen/layer/0/opacity"));
    (u "value", VFloat 0x3FE8000000000000) ].   (* 0.75 *)

(** [{"type": "SET", "address": "/x", "value": "a" * 65536}] *)
Definition set_long_text : Msg :=
  [ (u "type", VStr (u "SET"));
    (u "address", VStr (u "/x"));
    (u "value", VStr (repeat 97 (N.to_nat 65536))) ].

Definition long_text_payload : bytes :=
  match Msgpack.packb (VDict set_long_text) with
  | Ok payload => payload
  | Raise _ => []
  end.

(** The message [stream(address, value)] sends. *)
Definition stream_sample (address : str) (value : Value) (timestamp : Z) : Msg :=
  [ (u "type", VStr (u "PUBLISH"));
    (u "address", VStr address);
    (u "signal", VStr (u "stream"));
    (u "value", value);
    (u "timestamp", VInt timestamp) ].

(** ** What a dispatch is expected to log *)

(** [e] handed to the error callbacks at positions [0 .. n-1]. *)
Definition reported (e : exn) (n : nat) : list call :=
  (fun i => ErrorCalled i e) <$> seq 0 n.

(** Every matching subscription called once, in registration order, each
    exception it raises handed to all [n] error callbacks before the next
    subscription is tried. *)
Definition dispatch_calls (subs : list (Z * (str * SubscriptionCallback)))
    (n : nat) (address : str) (value : Value) : list call :=
  flat_map (fun '(sub_id, (pattern, callback)) =>
    if _match_pattern pattern address
    then Called sub_id value address ::
         match callback value address with
         | Some e => reported e n
         | None => []
         end
    else []) subs.

(** ** Events that leave a pending read alone *)

(** The entries of a SNAPSHOT message. *)
Definition snapshot_entries (msg : Value) : list Value :=
  match py_get msg (u "type") with
  | Ok t =>
      if eq_str t (u "SNAPSHOT") then
        match res_bind (py_get_default msg (u "params") (VList [])) py_iter with
        | Ok ps => ps
        | Raise _ => []
        end
      else []
  | Raise _ => []
  end.

(** The message holds a SNAPSHOT entry for [address]. *)
Definition answers (address : str) (msg : Value) : bool :=
  existsb (fun param =>
    match py_getitem param (u "address") with
    | Ok a => eq_str a address
    | Raise _ => false
    end) (snapshot_entries msg).

(** The event is neither an answer to a read of [address] nor another
    read of [address] starting or timing out. *)
Definition quiet (address : str) (ev : event) : bool :=
  match ev with
  | Inbound msg => negb (answers address msg)
  | GetBegin a => negb (bool_decide (a = address))
  | GetTimeout a _ => negb (bool_decide (a = address))
  | RunTask | Subscribe _ _ | Unsubscribe _ => true
  end.

(** ** Concrete clients *)

(** A client with an open transport. *)
Definition connected_client : Clasp := with_ws true __init__.

(** Two overlapping [get("/x")] calls, both waiting. *)
Definition two_waiting_gets : Clasp :=
  (get_begin Msgpack.packb (u "/x")
     (get_begin Msgpack.packb (u "/x") connected_client).2).2.

(** A client holding ["/x" = 3] in its cache. *)
Definition client_with_cache : Clasp :=
  with_params (fun m => <[u "/x" := VInt 3]> m) connected_client.

Definition raising (tag : N) : SubscriptionCallback := fun _ _ => Some (UserError tag).
Definition returning : SubscriptionCallback := fun _ _ => None.

(** Two subscriptions to ["/x"], the first of which raises, and an error
    callback that raises as well. *)
Definition client_with_raising_error_callback : Clasp :=
  with_on_error (fun _ => [fun _ => Some (UserError 2)])
    (with_subscriptions
       (fun _ => [(1%Z, (u "/x", raising 1)); (2%Z, (u "/x", returning))])
       connected_client).

(** The same subscriptions with two well-behaved error callbacks. *)
Definition client_with_error_callbacks : Clasp :=
  with_on_error (fun _ => [fun _ => None; fun _ => None])
    (with_subscriptions
       (fun _ => [(1%Z, (u "/x", raising 1)); (2%Z, (u "/x", returning))])
       connected_client).

(** A log entry of a dispatch of [(address, value)]. *)
Definition carries (address : str) (value : Value) (c : call) : Prop :=
  match c with
  | Called _ v a => v = value /\ a = address
  | ErrorCalled _ _ => True
  end.

(** One subscription to ["/sensor/level"]. *)
Definition subscribed_client : Clasp :=
  with_subscriptions (fun _ => [(1%Z, (u "/sensor/level", returning))]) connected_client.

(** What runs while a [get("/x")] waits in the witness below: a SET, a
    SNAPSHOT for another address, another caller's read of ["/y"] and its
    timeout, a PING, and the scheduled PONG being sent. *)
Definition quiet_events : list event :=
  [ Inbound (VDict [(u "type", VStr (u "SET")); (u "address", VStr (u "/y"));
                    (u "value", VInt 1)]);
    GetBegin (u "/z");
    Inbound (VDict [(u "type", VStr (u "SNAPSHOT"));
                    (u "params", VList [VDict [(u "address", VStr (u "/y"));
                                               (u "value", VInt 2)]])]);
    GetTimeout (u "/z") 1;
    Inbound (VDict [(u "type", VStr (u "PING"))]);
    RunTask ].

(** [m] keeps [P] true of the object, whether it returns or raises. *)
Definition preserves {A : Type} (P : Clasp -> Prop) (m : M A) : Prop :=
  forall st, P st -> P (m st).2.

(** The slot of [address] in the table of pending reads holds [fut]. *)
Definition slot (address : str) (fut : nat) (st : Clasp) : Prop :=
  _pending_gets st !! address = Some fut.


(** ** The remaining operations of the client *)

(** A pattern piece in which neither [fnmatch] nor the sentinel
    substitution finds anything to interpret. *)
Definition plain (p : str) : bool :=
  literal p && forallb (fun c => negb (c =? Chr.section)) p.

(** [cached(address)]: [self._params.get(address)] *)
Definition cached (address : str) (st : Clasp) : Value :=
  default VNone (_params st !! address).

(** The messages the outbound operations build.  [timestamp] is the value
    of [self.time()] at the call. *)
Definition set_message (address : str) (value : Value) : Msg :=
  [ (u "type", VStr (u "SET"));
    (u "address", VStr address);
    (u "value", value) ].

Definition emit_message (address : str) (payload timestamp : Value) : Msg :=
  [ (u "type", VStr (u "PUBLISH"));
    (u "address", VStr address);
    (u "signal", VStr (u "event"));
    (u "payload", payload);
    (u "timestamp", timestamp) ].

Definition stream_message (address : str) (value timestamp : Value) : Msg :=
  [ (u "type", VStr (u "PUBLISH"));
    (u "address", VStr address);
    (u "signal", VStr (u "stream"));
    (u "value", value);
    (u "timestamp", timestamp) ].

(** The reply to [GET address]: a SNAPSHOT with one entry. *)
Definition snapshot_reply (address : str) (value : Value) : Value :=
  VDict [ (u "type", VStr (u "SNAPSHOT"));
          (u "params", VList [VDict [ (u "address", VStr address);
                                      (u "value", value) ]]) ].

(** Exceptions of [bundle]: those of the client, and the two an integer
    subscript adds. *)
Inductive bundle_exn : Type :=
| Exn (e : exn)
| IndexError
| KeyErrorInt (key : Z).

(** [obj[i]] for a non-negative integer [i]. *)
Definition py_index (obj : Value) (i : nat) : bundle_exn + Value :=
  match obj with
  | VList xs => match xs !! i with Some x => inr x | None => inl IndexError end
  | VStr s => match s !! i with Some c => inr (VStr [c]) | None => inl IndexError end
  | VBytes b =>
      match b !! i with
      | Some x => inr (VInt (Z.of_N (Byte.to_N x)))
      | None => inl IndexError
      end
  | VDict _ => inl (KeyErrorInt (Z.of_nat i))
  | _ => inl (Exn TypeError)
  end.

(** The loop of [bundle] over the operations: [{"set": [address, value]}]
    becomes a SET, [{"emit": [address, payload]}] an event PUBLISH, and
    anything else is passed over. *)
Fixpoint format_bundle (messages : list Msg) : bundle_exn + list Value :=
  match messages with
  | [] => inr []
  | m :: messages' =>
      match assoc (u "set") m, assoc (u "emit") m with
      | Some op, _ =>
          match py_index op 0, py_index op 1 with
          | inl e, _ => inl e
          | inr _, inl e => inl e
          | inr a, inr v =>
              match format_bundle messages' with
              | inl e => inl e
              | inr formatted =>
                  inr (VDict [ (u "type", VStr (u "SET")); (u "address", a);
                               (u "value", v) ] :: formatted)
              end
          end
      | None, Some op =>
          match py_index op 0, py_index op 1 with
          | inl e, _ => inl e
          | inr _, inl e => inl e
          | inr a, inr v =>
              match format_bundle messages' with
              | inl e => inl e
              | inr formatted =>
                  inr (VDict [ (u "type", VStr (u "PUBLISH")); (u "address", a);
                               (u "signal", VStr (u "event")); (u "payload", v) ]
                         :: formatted)
              end
          end
      | None, None => format_bundle messages'
      end
  end.

Section Outbound.

Context (packb : Value -> res bytes).

Definition set (address : str) (value : Value) : M unit :=
  _send packb (set_message address value).

Definition emit (address : str) (payload timestamp : Value) : M unit :=
  _send packb (emit_message address payload timestamp).

Definition stream (address : str) (value timestamp : Value) : M unit :=
  _send packb (stream_message address value timestamp).

(** [bundle(messages, at)] *)
Definition bundle (messages : list Msg) (at_ : Value) (st : Clasp)
    : (bundle_exn + unit) * Clasp :=
  match format_bundle messages with
  | inl e => (inl e, st)
  | inr formatted =>
      match _send packb [ (u "type", VStr (u "BUNDLE"));
                          (u "timestamp", at_);
                          (u "messages", VList formatted) ] st with
      | (Ok tt, st') => (inr tt, st')
      | (Raise e, st') => (inl (Exn e), st')
      end
  end.

End Outbound.

(** The ids under which subscriptions are registered. *)
Definition sub_ids (st : Clasp) : list Z := fst <$> _subscriptions st.


(** A log entry that is a call of the subscription [sub_id]. *)
Definition is_call_of (sub_id : Z) (c : call) : bool :=
  match c with
  | Called i _ _ => (i =? sub_id)%Z
  | ErrorCalled _ _ => false
  end.

(** A log entry a dispatch of [(address, value)] over the subscriptions
    with the ids [ids] may add. *)
Definition logged_by (ids : list Z) (address : str) (value : Value) (c : call) : Prop :=
  match c with
  | Called i v a => v = value /\ a = address /\ i ∈ ids
  | ErrorCalled _ _ => True
  end.

(** The operations [bundle] documents, the dicts that request them and
    the wire messages they become. *)
Inductive operation : Type :=
| OpSet (address value : Value)
| OpEmit (address payload : Value).

Definition operation_dict (o : operation) : Msg :=
  match o with
  | OpSet a v => [(u "set", VList [a; v])]
  | OpEmit a p => [(u "emit", VList [a; p])]
  end.

Definition operation_wire (o : operation) : Value :=
  match o with
  | OpSet a v =>
      VDict [ (u "type", VStr (u "SET")); (u "address", a); (u "value", v) ]
  | OpEmit a p =>
      VDict [ (u "type", VStr (u "PUBLISH")); (u "address", a);
              (u "signal", VStr (u "event")); (u "payload", p) ]
  end.


(** ** The session: construction, handshake, clock, closing, receive loop *)

(** Status of the [asyncio.Task] that runs the receive loop. *)
Inductive task : Type :=
| Running
| TaskCancelled
| Finished (raised : option exn).

(** Invocations of the connect and disconnect callbacks. *)
Inductive lifecycle_call : Type :=
| ConnectCalled (index : nat)
| DisconnectCalled (index : nat) (reason : str).

(** The whole object: the fields of [Clasp] above, and the fields of the
    connection lifecycle. *)
Record Session : Type := mkSession {
  client : Clasp;
  url : str;
  name : str;
  features : list str;
  token : Value;                     (* a string or [None] *)
  reconnect : bool;
  reconnect_interval : N;            (* a float, as its bit pattern *)
  _session_id : Value;
  _server_time_offset : Value;
  _receive_task : option nat;        (* the task object, by identity *)
  _on_connect : list (unit -> option exn);
  _on_disconnect : list (str -> option exn);
  (* the surroundings of the object *)
  loop_tasks : list task;            (* the tasks created so far *)
  lifecycle : list lifecycle_call
}.

Definition default_features : list str := [u "param"; u "event"; u "stream"].

(** [Clasp(url, name, features, token, reconnect, reconnect_interval)]:
    [features or [...]] puts the default in place of [None] and of the
    empty list alike. *)
Definition Clasp_new (url name : str) (features : option (list str)) (token : Value)
    (reconnect : bool) (reconnect_interval : N) : Session :=
  {| client := __init__;
     url := url;
     name := name;
     features := match features with
                 | Some (f :: fs) => f :: fs
                 | Some [] | None => default_features
                 end;
     token := token;
     reconnect := reconnect;
     reconnect_interval := reconnect_interval;
     _session_id := VNone;
     _server_time_offset := VInt 0;
     _receive_task := None;
     _on_connect := [];
     _on_disconnect := [];
     loop_tasks := [];
     lifecycle := [] |}.

Definition with_client (f : Clasp -> Clasp) (s : Session) : Session :=
  mkSession (f (client s)) (url s) (name s) (features s) (token s) (reconnect s)
            (reconnect_interval s) (_session_id s) (_server_time_offset s)
            (_receive_task s) (_on_connect s) (_on_disconnect s) (loop_tasks s) (lifecycle s).
Definition with_reconnect (b : bool) (s : Session) : Session :=
  mkSession (client s) (url s) (name s) (features s) (token s) b
            (reconnect_interval s) (_session_id s) (_server_time_offset s)
            (_receive_task s) (_on_connect s) (_on_disconnect s) (loop_tasks s) (lifecycle s).
Definition with_session_id (v : Value) (s : Session) : Session :=
  mkSession (client s) (url s) (name s) (features s) (token s) (reconnect s)
            (reconnect_interval s) v (_server_time_offset s)
            (_receive_task s) (_on_connect s) (_on_disconnect s) (loop_tasks s) (lifecycle s).
Definition with_server_time_offset (v : Value) (s : Session) : Session :=
  mkSession (client s) (url s) (name s) (features s) (token s) (reconnect s)
            (reconnect_interval s) (_session_id s) v
            (_receive_task s) (_on_connect s) (_on_disconnect s) (loop_tasks s) (lifecycle s).
Definition with_loop_tasks (f : list task -> list task) (s : Session) : Session :=
  mkSession (client s) (url s) (name s) (features s) (token s) (reconnect s)
            (reconnect_interval s) (_session_id s) (_server_time_offset s)
            (_receive_task s) (_on_connect s) (_on_disconnect s) (f (loop_tasks s))
            (lifecycle s).

(** [self._receive_task = asyncio.create_task(self._receive_loop())] *)
Definition start_receive_task (s : Session) : Session :=
  mkSession (client s) (url s) (name s) (features s) (token s) (reconnect s)
            (reconnect_interval s) (_session_id s) (_server_time_offset s)
            (Some (length (loop_tasks s))) (_on_connect s) (_on_disconnect s)
            (loop_tasks s ++ [Running]) (lifecycle s).
Definition with_lifecycle (f : list lifecycle_call -> list lifecycle_call)
    (s : Session) : Session :=
  mkSession (client s) (url s) (name s) (features s) (token s) (reconnect s)
            (reconnect_interval s) (_session_id s) (_server_time_offset s)
            (_receive_task s) (_on_connect s) (_on_disconnect s) (loop_tasks s)
            (f (lifecycle s)).

(** [on_connect(callback)], [on_disconnect(callback)] *)
Definition on_connect (callback : unit -> option exn) (s : Session) : Session :=
  mkSession (client s) (url s) (name s) (features s) (token s) (reconnect s)
            (reconnect_interval s) (_session_id s) (_server_time_offset s)
            (_receive_task s) (_on_connect s ++ [callback]) (_on_disconnect s)
            (loop_tasks s) (lifecycle s).
Definition on_disconnect (callback : str -> option exn) (s : Session) : Session :=
  mkSession (client s) (url s) (name s) (features s) (token s) (reconnect s)
            (reconnect_interval s) (_session_id s) (_server_time_offset s)
            (_receive_task s) (_on_connect s) (_on_disconnect s ++ [callback])
            (loop_tasks s) (lifecycle s).

Definition set_connected (b : bool) (c : Clasp) : Clasp :=
  mkClasp (_ws c) b (_params c) (_subscriptions c) (_next_sub_id c)
          (_pending_gets c) (_on_error c) (futures c) (sent c) (tasks c) (calls c)
          (stdout c).

(** What [await self._ws.recv()] yields: a frame, or the exception
    [websockets.ConnectionClosed] with its text. *)
Inductive recv_result : Type :=
| Data (data : bytes)
| Closed (reason : str).

(** How a call of [connect] ends. *)
Inductive failure : Type :=
| DialFailed                  (* [websockets.connect] raised *)
| TransportClosed (reason : str)
| Raised (e : exn).

Inductive connect_result : Type :=
| Established                 (* returned *)
| AlreadyConnected            (* [ClaspError("Already connected")] *)
| ConnectionFailed (cause : failure)
                              (* [ClaspError("Connection failed: ...")] from the cause *)
| Escaped (e : exn)           (* an exception [except Exception] lets through *)
| AwaitingWelcome.            (* suspended in [recv], no frame left *)

(** How a run of the receive loop ends. *)
Inductive loop_result : Type :=
| LoopSuspended               (* waiting in [recv], or in the handshake of a reconnection *)
| LoopReturned
| LoopRaised (e : exn).

Section Lifecycle.

(** The serializer, the protocol version of [types.py], and the float
    arithmetic of the clock offset are parameters. *)
Context (packb : Value -> res bytes) (unpackb : bytes -> res Value).
Context (PROTOCOL_VERSION : Value).
Context (float_sub_int : N -> Z -> res N) (int_add_float : Z -> N -> res N).

(** [t - now] for the integer [now]. *)
Definition sub_clock (t : Value) (now : Z) : res Value :=
  match t with
  | VInt z => Ok (VInt (z - now))
  | VBool b => Ok (VInt ((if b then 1 else 0) - now))
  | VFloat f => res_bind (float_sub_int f now) (fun r => Ok (VFloat r))
  | _ => Raise TypeError
  end.

(** [now + offset] for the integer [now]. *)
Definition add_clock (now : Z) (offset : Value) : res Value :=
  match offset with
  | VInt z => Ok (VInt (now + z))
  | VBool b => Ok (VInt (now + (if b then 1 else 0)))
  | VFloat f => res_bind (int_add_float now f) (fun r => Ok (VFloat r))
  | _ => Raise TypeError
  end.

(** [time()], with [now] the value of [int(time.time() * 1_000_000)]. *)
Definition time (now : Z) (s : Session) : res Value :=
  add_clock now (_server_time_offset s).

Definition hello (s : Session) : Msg :=
  [ (u "type", VStr (u "HELLO"));
    (u "version", PROTOCOL_VERSION);
    (u "name", VStr (name s));
    (u "features", VList (VStr <$> features s));
    (u "token", token s) ].

(** [except Exception as e: raise ClaspError(f"Connection failed: {e}") from e] *)
Definition failed (e : exn) : connect_result :=
  if is_Exception e then ConnectionFailed (Raised e) else Escaped e.

(** [for cb in self._on_connect: cb()] *)
Fixpoint run_on_connect (index : nat) (cbs : list (unit -> option exn)) (s : Session)
    : option exn * Session :=
  match cbs with
  | [] => (None, s)
  | cb :: cbs' =>
      let s' := with_lifecycle (fun l => l ++ [ConnectCalled index]) s in
      match cb () with
      | Some e => (Some e, s')
      | None => run_on_connect (S index) cbs' s'
      end
  end.

(** The handshake from the WELCOME message on. *)
Definition welcome (msg : Value) (now : Z) (s : Session) : connect_result * Session :=
  match py_getitem msg (u "session") with
  | Raise e => (failed e, s)
  | Ok session =>
      let s1 := with_session_id session s in
      match res_bind (py_getitem msg (u "time")) (fun t => sub_clock t now) with
      | Raise e => (failed e, s1)
      | Ok offset =>
          let s2 := with_client (set_connected true) (with_server_time_offset offset s1) in
          let s3 := start_receive_task s2 in
          match run_on_connect O (_on_connect s3) s3 with
          | (Some e, s4) => (failed e, s4)
          | (None, s4) => (Established, s4)
          end
      end
  end.

(** The loop that waits for WELCOME: every other message is dropped. *)
Fixpoint await_welcome (inputs : list recv_result) (now : Z) (s : Session)
    : connect_result * Session :=
  match inputs with
  | [] => (AwaitingWelcome, s)
  | Closed reason :: _ => (ConnectionFailed (TransportClosed reason), s)
  | Data data :: rest =>
      match _decode unpackb data with
      | Raise e => (failed e, s)
      | Ok msg =>
          match py_get msg (u "type") with
          | Raise e => (failed e, s)
          | Ok t =>
              if eq_str t (u "WELCOME") then welcome msg now s
              else await_welcome rest now s
          end
      end
  end.

(** [connect()]: [dial] tells whether [websockets.connect] succeeds,
    [inputs] is what the transport then delivers, [now] the clock when the
    WELCOME is read. *)
Definition connect (dial : bool) (inputs : list recv_result) (now : Z) (s : Session)
    : connect_result * Session :=
  if _connected (client s) then (AlreadyConnected, s)
  else if negb dial then (ConnectionFailed DialFailed, s)
  else
    let s1 := with_client (with_ws true) s in
    match _send packb (hello s1) (client s1) with
    | (Raise e, c) => (failed e, with_client (fun _ => c) s1)
    | (Ok _, c) => await_welcome inputs now (with_client (fun _ => c) s1)
    end.

(** [close()].  Cancelling a running task makes awaiting it raise
    [CancelledError], which [close] swallows; awaiting a task that ended
    with an exception raises that exception. *)
Definition close (s : Session) : res unit * Session :=
  let s1 := with_client (set_connected false) (with_reconnect false s) in
  let shut (s : Session) : res unit * Session :=
    (Ok (), if _ws (client s) then with_client (with_ws false) s else s) in
  match _receive_task s1 with
  | Some i =>
      match loop_tasks s1 !! i with
      | Some Running => shut (with_loop_tasks (fun l => <[i := TaskCancelled]> l) s1)
      | Some (Finished (Some e)) => (Raise e, s1)
      | _ => shut s1
      end
  | None => shut s1
  end.

(** [for cb in self._on_disconnect: cb(str(e))] *)
Fixpoint run_on_disconnect (reason : str) (index : nat)
    (cbs : list (str -> option exn)) (s : Session) : option exn * Session :=
  match cbs with
  | [] => (None, s)
  | cb :: cbs' =>
      let s' := with_lifecycle (fun l => l ++ [DisconnectCalled index reason]) s in
      match cb reason with
      | Some e => (Some e, s')
      | None => run_on_disconnect reason (S index) cbs' s'
      end
  end.

(** [except Exception as e: for cb in self._on_error: cb(e)] *)
Definition loop_exception (e : exn) (s : Session) : loop_result * Session :=
  if is_Exception e then
    match report e (client s) with
    | (Ok _, c) => (LoopReturned, with_client (fun _ => c) s)
    | (Raise e', c) => (LoopRaised e', with_client (fun _ => c) s)
    end
  else (LoopRaised e, s).

(** [except websockets.ConnectionClosed as e: ...]; [dial], [reinputs] and
    [now] are the surroundings of the reconnection attempt. *)
Definition loop_closed (reason : str) (dial : bool) (reinputs : list recv_result)
    (now : Z) (s : Session) : loop_result * Session :=
  let s1 := with_client (set_connected false) s in
  match run_on_disconnect reason O (_on_disconnect s1) s1 with
  | (Some e, s2) => (LoopRaised e, s2)
  | (None, s2) =>
      if reconnect s2 then
        match connect dial reinputs now s2 with
        | (Escaped e, s3) => (LoopRaised e, s3)
        | (AwaitingWelcome, s3) => (LoopSuspended, s3)
        | (_, s3) => (LoopReturned, s3)
        end
      else (LoopReturned, s2)
  end.

(** [_receive_loop()] on the frames the transport delivers. *)
Fixpoint _receive_loop (inputs : list recv_result) (dial : bool)
    (reinputs : list recv_result) (now : Z) (s : Session) : loop_result * Session :=
  if _connected (client s) && _ws (client s) then
    match inputs with
    | [] => (LoopSuspended, s)
    | Closed reason :: _ => loop_closed reason dial reinputs now s
    | Data data :: rest =>
        match _decode unpackb data with
        | Raise e => loop_exception e s
        | Ok msg =>
            match _handle_message msg (client s) with
            | (Ok _, c) => _receive_loop rest dial reinputs now (with_client (fun _ => c) s)
            | (Raise e, c) => loop_exception e (with_client (fun _ => c) s)
            end
        end
    end
  else (LoopReturned, s).

(** The receive loop run as the task [i]: when the loop ends, so does the
    task. *)
Definition run_receive_task (i : nat) (inputs : list recv_result) (dial : bool)
    (reinputs : list recv_result) (now : Z) (s : Session) : loop_result * Session :=
  match _receive_loop inputs dial reinputs now s with
  | (LoopSuspended, s') => (LoopSuspended, s')
  | (LoopReturned, s') =>
      (LoopReturned, with_loop_tasks (fun l => <[i := Finished None]> l) s')
  | (LoopRaised e, s') =>
      (LoopRaised e, with_loop_tasks (fun l => <[i := Finished (Some e)]> l) s')
  end.

End Lifecycle.

(** [class ClaspBuilder] *)
Module ClaspBuilder.

Record t : Type := mk {
  url : str;
  name : str;
  features : list str;
  token : Value;
  reconnect : bool;
  reconnect_interval : N
}.

(** 5.0 *)
Definition five : N := 0x4014000000000000.

(** [ClaspBuilder(url)] *)
Definition new (url : str) : t :=
  mk url (u "CLASP Python Client") default_features VNone true five.

Definition with_name (name : str) (b : t) : t :=
  mk (url b) name (features b) (token b) (reconnect b) (reconnect_interval b).
Definition with_features (features : list str) (b : t) : t :=
  mk (url b) (name b) features (token b) (reconnect b) (reconnect_interval b).
Definition with_token (token : str) (b : t) : t :=
  mk (url b) (name b) (features b) (VStr token) (reconnect b) (reconnect_interval b).
(** [with_reconnect(enabled, interval=5.0)] *)
Definition with_reconnect (enabled : bool) (interval : option N) (b : t) : t :=
  mk (url b) (name b) (features b) (token b) enabled (default five interval).

(** The client [connect()] builds before it connects it. *)
Definition build (b : t) : Session :=
  Clasp_new (url b) (name b) (Some (features b)) (token b) (reconnect b)
            (reconnect_interval b).

End ClaspBuilder.

(** The state a successful handshake leaves. *)
Definition established (frame : bytes) (session : Value) (offset : Z) (s : Session)
    : Session :=
  with_lifecycle (fun l => l ++ (ConnectCalled <$> seq 0 (length (_on_connect s))))
    (start_receive_task
       (with_client (set_connected true)
          (with_server_time_offset (VInt offset)
             (with_session_id session
                (with_client (fun c => with_sent (fun l => l ++ [frame]) (with_ws true c))
                   s))))).

(** ** Concrete sessions *)

(** The float operations of the clock, for runs that use integer times
    only. *)
Definition no_float_sub (f : N) (n : Z) : res N := Raise OverflowError.
Definition no_float_add (n : Z) (f : N) : res N := Raise OverflowError.

Definition frame_of (msg : Msg) : bytes :=
  match _encode Msgpack.packb msg with
  | Ok frame => frame
  | Raise _ => []
  end.

(** [WELCOME{session: "s1", time: 1000000}] *)
Definition welcome_s1 : Msg :=
  [ (u "type", VStr (u "WELCOME")); (u "session", VStr (u "s1"));
    (u "time", VInt 1000000) ].

(** A fresh client with one connect and one disconnect callback. *)
Definition fresh_session : Session :=
  on_disconnect (fun _ => None)
    (on_connect (fun _ => None)
       (Clasp_new (u "ws://localhost:7330") (u "t") None VNone true
          ClaspBuilder.five)).

(** A frame the server sends before its WELCOME. *)
Definition early_frames : list bytes :=
  [frame_of (set_message (u "/early") (VInt 1))].

(** The same client after the handshake with [welcome_s1], read at local
    clock 400. *)
Definition connected_session : Session :=
  (connect Msgpack.packb Msgpack.unpackb (VInt 1) no_float_sub true
     ((Data <$> early_frames) ++ Data (frame_of welcome_s1) :: []) 400
     fresh_session).2.

(** ** Callbacks that call the client

    A callback runs inside the dispatch and holds what the application
    gave it, the client and the [unsubscribe] closures among it.  The
    methods it can call there are the synchronous ones; of these
    [subscribe] (and [on], which calls it), the [unsubscribe] closures
    and [on_error] write what the dispatch reads: [_subscriptions], the
    dict the dispatch is iterating over, and [_on_error], the list the
    handler iterates over. *)
Inductive reentry : Type :=
| CallSubscribe (pattern : str) (callback : SubscriptionCallback) (options : Msg)
| CallUnsubscribe (sub_id : Z)
| CallOnError (callback : ErrorCallback).

Definition reenter (r : reentry) : M unit :=
  match r with
  | CallSubscribe pattern callback options =>
      subscribe pattern callback options ;; mret ()
  | CallUnsubscribe sub_id => unsubscribe sub_id
  | CallOnError callback => on_error callback
  end.

(** What the callbacks of a client do to it while they run: the calls the
    subscriber registered under an id makes when it is given a value and an
    address, and the calls the error callback at an index makes when it is
    given an exception. *)
Record Reach : Type := mkReach {
  of_subscriber : Z -> Value -> str -> list reentry;
  of_error_callback : nat -> exn -> list reentry
}.

(** Callbacks that never call the client. *)
Definition unreaching : Reach :=
  {| of_subscriber := fun _ _ _ => []; of_error_callback := fun _ _ => [] |}.

(** How a dispatch ends.  The [for] statement asks the iterator of
    [self._subscriptions.values()] for the next entry outside the [try]:
    the dict iterator raises RuntimeError ("dictionary changed size during
    iteration") when the dict no longer has the size it had when the loop
    started.  When the dict has that size but other keys, what the iterator
    yields next depends on the layout of the hash table, which is not
    modelled: the dispatch is left there. *)
Inductive dispatch_result : Type :=
| Completed               (* the loop ran to its end *)
| Propagated (e : exn)    (* an exception left the loop body *)
| DictChangedSize         (* the iterator raised RuntimeError *)
| DictRewritten.          (* same size, other keys *)

Section Live.

Context (reach : Reach).

(** [callback(value, address)] *)
Definition live_invoke (sub_id : Z) (callback : SubscriptionCallback)
    (value : Value) (address : str) : M unit :=
  modify (with_calls (fun l => l ++ [Called sub_id value address])) ;;
  for_each (of_subscriber reach sub_id value address) reenter ;;
  match callback value address with
  | None => mret ()
  | Some e => raise e
  end.

(** [cb(e)] *)
Definition live_invoke_error (e : exn) (index : nat) (cb : ErrorCallback) : M unit :=
  modify (with_calls (fun l => l ++ [ErrorCalled index e])) ;;
  for_each (of_error_callback reach index e) reenter ;;
  match cb e with
  | None => mret ()
  | Some e' => raise e'
  end.

(** [for cb in self._on_error: cb(e)]: the list iterator reads the list at
    every step, so a callback registered while the loop runs is called as
    well.  A callback may register another one each time it is called;
    [fuel] bounds the turns of the loop, and [None] says that the loop has
    not ended within them. *)
Fixpoint live_report_at (fuel : nat) (e : exn) (index : nat) (st : Clasp)
    : option (res unit * Clasp) :=
  match fuel with
  | O => None
  | S fuel' =>
      match _on_error st !! index with
      | None => Some (Ok (), st)
      | Some cb =>
          match live_invoke_error e index cb st with
          | (Ok _, st') => live_report_at fuel' e (S index) st'
          | (Raise e', st') => Some (Raise e', st')
          end
      end
  end.

(** [try: callback(value, address) except Exception as e: ...] *)
Definition live_turn (fuel : nat) (sub_id : Z) (callback : SubscriptionCallback)
    (value : Value) (address : str) (st : Clasp) : option (res unit * Clasp) :=
  match live_invoke sub_id callback value address st with
  | (Raise e, st') =>
      if is_Exception e then live_report_at fuel e O st' else Some (Raise e, st')
  | r => Some r
  end.

(** The loop: [ids] are the keys the dict held when the loop started,
    [todo] the entries the iterator has not yielded yet. *)
Fixpoint live_loop (fuel : nat) (ids : list Z)
    (todo : list (Z * (str * SubscriptionCallback)))
    (address : str) (value : Value) (st : Clasp) : option (dispatch_result * Clasp) :=
  if negb (length (_subscriptions st) =? length ids)%nat then Some (DictChangedSize, st)
  else if negb (bool_decide (sub_ids st = ids)) then Some (DictRewritten, st)
  else
    match todo with
    | [] => Some (Completed, st)
    | (sub_id, (pattern, callback)) :: todo' =>
        if _match_pattern pattern address then
          match live_turn fuel sub_id callback value address st with
          | Some (Ok _, st') => live_loop fuel ids todo' address value st'
          | Some (Raise e, st') => Some (Propagated e, st')
          | None => None
          end
        else live_loop fuel ids todo' address value st
    end.

(** [_notify_subscribers(address, value)] *)
Definition live_notify (fuel : nat) (address : str) (value : Value) (st : Clasp)
    : option (dispatch_result * Clasp) :=
  live_loop fuel (sub_ids st) (_subscriptions st) address value st.

End Live.

(** The dispatch of callbacks that leave the client alone, as a result of
    the loop over the live dict. *)
Definition result_of (r : res unit * Clasp) : dispatch_result * Clasp :=
  match r with
  | (Ok _, st) => (Completed, st)
  | (Raise e, st) => (Propagated e, st)
  end.

(** A subscriber that is done after its first value: the callback of
    subscription 1 calls the [unsubscribe] closure it was given. *)
Definition one_shot : Reach :=
  {| of_subscriber := fun sub_id _ _ =>
       if (sub_id =? 1)%Z then [CallUnsubscribe 1] else [];
     of_error_callback := fun _ _ => [] |}.

Definition two_subscribers : Clasp :=
  (subscribe (u "/x") returning []
     (subscribe (u "/x") returning [] connected_client).2).2.

(** A subscriber that registers an error callback before it raises: the
    callback of subscription 1 calls [on_error] with a callback that
    raises. *)
Definition registering : Reach :=
  {| of_subscriber := fun sub_id _ _ =>
       if (sub_id =? 1)%Z then [CallOnError (fun _ => Some (UserError 2))] else [];
     of_error_callback := fun _ _ => [] |}.

(** ** The ids a run hands out *)



(** * Properties *)

(** ** Strings *)

Lemma startswith_head c old s x :
  x <> c -> startswith (c :: old) (x :: s) = false.
Proof.
  intros Hne. simpl. destruct (N.eqb_spec c x); [congruence | reflexivity].
Qed.

Lemma occurs_startswith old c s :
  occurs old (c :: s) = false -> startswith old (c :: s) = false /\ occurs old s = false.
Proof. simpl. intros H. apply orb_false_elim in H. exact H. Qed.

(** Where [old] does not occur there is nothing to replace. *)
Lemma replace_absent old new s :
  occurs old s = false -> replace old new s = s.
Proof.
  unfold replace. induction s as [|c s IH]; intros H; [reflexivity|].
  apply occurs_startswith in H as [Hs Ho].
  cbn [replace_from]. rewrite Hs. f_equal. apply IH, Ho.
Qed.

Lemma occurs_without c old s :
  forallb (fun x => negb (x =? c)) s = true -> occurs (c :: old) s = false.
Proof.
  induction s as [|x s IH]; intros H; [reflexivity|].
  cbn [forallb] in H. apply andb_prop in H as [Hx Hs].
  cbn [occurs]. rewrite IH by exact Hs. rewrite orb_false_r.
  apply startswith_head. intros ->. rewrite N.eqb_refl in Hx. discriminate.
Qed.

(** [replace] leaves a prefix free of the first character of [old] alone. *)
Lemma replace_app_without c old new p s :
  forallb (fun x => negb (x =? c)) p = true ->
  replace (c :: old) new (p ++ s) = p ++ replace (c :: old) new s.
Proof.
  unfold replace. induction p as [|x p IH]; intros H; [reflexivity|].
  cbn [forallb] in H. apply andb_prop in H as [Hx Hp].
  change ((x :: p) ++ s) with (x :: (p ++ s)). cbn [replace_from].
  rewrite startswith_head.
  - rewrite IH by exact Hp. reflexivity.
  - intros ->. rewrite N.eqb_refl in Hx. discriminate.
Qed.

(** ** fnmatch *)

Module FnmatchFacts.
Import Fnmatch.

Lemma fullmatch_star re s :
  fullmatch (Star :: re) s =
  fullmatch re s || match s with [] => false | _ :: s' => fullmatch (Star :: re) s' end.
Proof. destruct s; reflexivity. Qed.

Lemma fullmatch_cons a re s :
  a <> Star ->
  fullmatch (a :: re) s =
  match s with [] => false | c :: s' => accepts a c && fullmatch re s' end.
Proof. destruct a; intros H; try reflexivity. contradiction. Qed.

(** [.*] followed by [re] matches exactly when [re] matches a suffix. *)
Lemma fullmatch_star_iff re s :
  fullmatch (Star :: re) s = true <-> exists k, fullmatch re (drop k s) = true.
Proof.
  induction s as [|c s IH]; rewrite fullmatch_star.
  - rewrite orb_false_r. split.
    + intros H. exists O. exact H.
    + intros [k H]. rewrite drop_nil in H. exact H.
  - rewrite orb_true_iff, IH. split.
    + intros [H | [k H]]; [exists O | exists (S k)]; exact H.
    + intros [[|k] H]; [left | right; exists k]; exact H.
Qed.

(** A pattern without [*], [?] and [[] translates to itself, escaped. *)
Lemma translate_literal_app p s :
  literal p = true -> translate (p ++ s) = (Lit <$> p) ++ translate s.
Proof.
  unfold translate. induction p as [|c p IH]; intros H; [reflexivity|].
  cbn [literal forallb] in H. apply andb_prop in H as [Hc Hp].
  apply negb_true_iff in Hc.
  apply orb_false_elim in Hc as [Hc Hb]. apply orb_false_elim in Hc as [Hs Hq].
  change ((c :: p) ++ s) with (c :: (p ++ s)). cbn [translate_from].
  rewrite Hs, Hq, Hb. rewrite (IH Hp). reflexivity.
Qed.

Lemma translate_literal p :
  literal p = true -> translate p = Lit <$> p.
Proof.
  intros H. rewrite <- (app_nil_r p) at 1.
  rewrite (translate_literal_app _ _ H). apply app_nil_r.
Qed.

(** Escaped literals consume exactly themselves. *)
Lemma fullmatch_literal_app p re s :
  fullmatch ((Lit <$> p) ++ re) s = true <->
  exists s', s = p ++ s' /\ fullmatch re s' = true.
Proof.
  revert s. induction p as [|c p IH]; intros s.
  - split; [intros H; exists s; auto | intros (s' & -> & H); exact H].
  - change ((Lit <$> c :: p) ++ re) with (Lit c :: ((Lit <$> p) ++ re)).
    rewrite fullmatch_cons by discriminate. destruct s as [|x s].
    + split; [discriminate | intros (s' & Hs & _); discriminate].
    + cbn [accepts]. rewrite andb_true_iff, IH, N.eqb_eq. split.
      * intros (-> & s' & -> & H). exists s'. auto.
      * intros (s' & Hs & H). injection Hs as -> ->. eauto.
Qed.

Lemma fullmatch_literal p s :
  fullmatch (Lit <$> p) s = true <-> s = p.
Proof.
  rewrite <- (app_nil_r (Lit <$> p)), fullmatch_literal_app. split.
  - intros (s' & -> & H). destruct s'; [apply app_nil_r | discriminate].
  - intros ->. exists []. rewrite app_nil_r. auto.
Qed.

End FnmatchFacts.

(** ** Pattern matching *)

(** The three substitutions leave a pattern without [*] and without the
    sentinel pair as it is. *)
Lemma fn_pattern_literal p :
  no_wildcard p = true -> occurs sentinel p = false ->
  replace sentinel (u "*") (replace (u "*") (u "[^/]*") (replace (u "**") sentinel p)) = p.
Proof.
  intros Hw Hs.
  rewrite (replace_absent (u "**")) by (apply (occurs_without Chr.star), Hw).
  rewrite (replace_absent (u "*")) by (apply (occurs_without Chr.star), Hw).
  apply replace_absent, Hs.
Qed.

Lemma literal_no_wildcard p : literal p = true -> no_wildcard p = true.
Proof.
  unfold literal, no_wildcard. rewrite !forallb_forall. intros H c Hc.
  specialize (H c Hc). apply negb_true_iff in H. apply negb_true_iff.
  apply orb_false_elim in H as [H _]. apply orb_false_elim in H as [H _]. exact H.
Qed.

(** C1 (as the code behaves): the single-segment wildcard is rewritten to
    the glob [[^/]*], which fnmatch reads as one character out of ['^'] and
    ['/'] followed by anything.  So ["/a/*/c"] matches ["/a/X/c"] exactly
    when [X] starts with ['^'] or ['/']: no ordinary segment matches, and
    segments containing ['/'] can. *)
Theorem single_wildcard_matches_only_caret_or_slash (X : str) :
  _match_pattern (u "/a/*/c") (u "/a/" ++ X ++ u "/c") = true <->
  exists c rest, X = c :: rest /\ (c = Chr.caret \/ c = Chr.slash).
Proof.
  unfold _match_pattern, Fnmatch.fnmatch.
  change (Fnmatch.translate _) with
    ((Fnmatch.Lit <$> u "/a/") ++
      [Fnmatch.CharSet false [Fnmatch.Single Chr.caret; Fnmatch.Single Chr.slash];
       Fnmatch.Star; Fnmatch.Lit 47; Fnmatch.Lit 99]).
  rewrite FnmatchFacts.fullmatch_literal_app. split.
  - intros (s' & Hs & H). apply app_inv_head in Hs. subst s'.
    rewrite FnmatchFacts.fullmatch_cons in H by discriminate.
    destruct X as [|c rest]; cbn [app] in H.
    + apply andb_prop in H as [_ H]. vm_compute in H. discriminate.
    + apply andb_prop in H as [H _]. exists c, rest. split; [reflexivity|].
      cbn in H. rewrite orb_false_r in H. apply orb_prop in H.
      destruct H as [H | H]; apply N.eqb_eq in H; auto.
  - intros (c & rest & -> & Hc). exists ((c :: rest) ++ u "/c"). split; [reflexivity|].
    rewrite FnmatchFacts.fullmatch_cons by discriminate. cbn [app].
    apply andb_true_intro. split.
    + destruct Hc as [-> | ->]; reflexivity.
    + apply FnmatchFacts.fullmatch_star_iff. exists (length rest).
      rewrite drop_app_length. reflexivity.
Qed.

Example single_wildcard_plain_segment :
  _match_pattern (u "/a/*/c") (u "/a/X/c") = false
  /\ _match_pattern (u "/test/*/value") (u "/test/foo/value") = false
  /\ _match_pattern (u "/a/*/c") (u "/a///c") = true
  /\ _match_pattern (u "/a/*/c") (u "/a/^b/c/c") = true
  /\ _match_pattern (u "/a/*/c") (u "/a/c") = false.
Proof. repeat split. Qed.

(** A literal prefix followed by ["/**"] becomes the glob [prefix/*], which
    needs the slash: the pattern does not match its own prefix. *)
Lemma trailing_wildcard_rejects_prefix (prefix : str) :
  literal prefix = true ->
  forallb (fun c => negb (c =? Chr.section)) prefix = true ->
  _match_pattern (prefix ++ u "/**") prefix = false.
Proof.
  intros Hl Hs. pose proof (literal_no_wildcard _ Hl) as Hw.
  unfold _match_pattern, Fnmatch.fnmatch.
  change (u "**") with (Chr.star :: [Chr.star]).
  change (u "*") with (Chr.star :: []).
  change sentinel with (Chr.section :: [Chr.section]).
  rewrite (replace_app_without Chr.star) by exact Hw.
  rewrite (replace_app_without Chr.star) by exact Hw.
  rewrite (replace_app_without Chr.section) by exact Hs.
  change (replace _ _ (replace _ _ (replace _ _ (u "/**")))) with (u "/*").
  rewrite (FnmatchFacts.translate_literal_app _ _ Hl).
  apply not_true_is_false. intros H.
  apply FnmatchFacts.fullmatch_literal_app in H as (s' & Hp & H).
  rewrite <- (app_nil_r prefix) in Hp at 1. apply app_inv_head in Hp. subst s'.
  discriminate.
Qed.

(** C2 (as the code behaves): [**] is rewritten to the glob [*] with the
    slashes around it kept, so ["/a/**/d"] matches exactly the addresses
    ["/a/" ++ mid ++ "/d"].  The multi-segment expansion holds; the
    zero-segment expansion does not, and a pattern ending in ["/**"] does
    not match its own prefix. *)
Theorem multi_wildcard_keeps_both_slashes :
  (forall A, _match_pattern (u "/a/**/d") A = true <->
             exists mid, A = u "/a/" ++ mid ++ u "/d")
  /\ _match_pattern (u "/a/**/d") (u "/a/b/c/d") = true
  /\ _match_pattern (u "/a/**/d") (u "/a/d") = false
  /\ (forall A, _match_pattern (u "/test/**") A = true <->
                exists rest, A = u "/test/" ++ rest)
  /\ _match_pattern (u "/test/**") (u "/test") = false
  /\ _match_pattern (u "/test/**/value") (u "/test/value") = false.
Proof.
  split; [|split; [reflexivity|split; [reflexivity|split; [|split; reflexivity]]]].
  - intros A. unfold _match_pattern, Fnmatch.fnmatch.
    change (Fnmatch.translate _) with
      ((Fnmatch.Lit <$> u "/a/") ++ Fnmatch.Star :: (Fnmatch.Lit <$> u "/d")).
    rewrite FnmatchFacts.fullmatch_literal_app. split.
    + intros (s' & -> & H). apply FnmatchFacts.fullmatch_star_iff in H as [k H].
      apply FnmatchFacts.fullmatch_literal in H.
      exists (take k s'). rewrite <- H. rewrite take_drop. reflexivity.
    + intros [mid ->]. exists (mid ++ u "/d"). split; [reflexivity|].
      apply FnmatchFacts.fullmatch_star_iff. exists (length mid).
      rewrite drop_app_length. reflexivity.
  - intros A. unfold _match_pattern, Fnmatch.fnmatch.
    change (Fnmatch.translate _) with
      ((Fnmatch.Lit <$> u "/test/") ++ [Fnmatch.Star]).
    rewrite FnmatchFacts.fullmatch_literal_app. split.
    + intros (s' & -> & _). exists s'. reflexivity.
    + intros [rest ->]. exists rest. split; [reflexivity|].
      apply FnmatchFacts.fullmatch_star_iff. exists (length rest).
      rewrite drop_all. reflexivity.
Qed.

(** C3 as stated fails: a pattern without [*] may still hold the glob
    characters [?] and [[], which fnmatch interprets. *)
Lemma no_wildcard_pattern_is_not_exact :
  ~ (forall P A : str, no_wildcard P = true ->
       (_match_pattern P A = true <-> P = A)).
Proof.
  intros H. specialize (H (u "/a/?") (u "/a/b") eq_refl).
  destruct H as [H _]. specialize (H eq_refl). discriminate.
Qed.

(** C3 (amended): a pattern with none of [*], [?], [[] and without the
    sentinel pair matches an address if and only if it equals it. *)
Theorem literal_pattern_matches_itself_only (P A : str) :
  literal P = true -> occurs sentinel P = false ->
  (_match_pattern P A = true <-> P = A).
Proof.
  intros Hl Hs. unfold _match_pattern, Fnmatch.fnmatch.
  rewrite (fn_pattern_literal _ (literal_no_wildcard _ Hl) Hs).
  rewrite (FnmatchFacts.translate_literal _ Hl).
  rewrite FnmatchFacts.fullmatch_literal. split; congruence.
Qed.

Lemma literal_pattern_matches_itself_only_witness :
  literal (u "/test/path") = true /\ occurs sentinel (u "/test/path") = false
  /\ (_match_pattern (u "/test/path") (u "/test/path") = true <->
      u "/test/path" = u "/test/path")
  /\ (_match_pattern (u "/test/path") (u "/other/path") = true <->
      u "/test/path" = u "/other/path").
Proof.
  split; [reflexivity|]. split; [reflexivity|].
  split; apply literal_pattern_matches_itself_only; reflexivity.
Defined.

(** The sentinel pair in a pattern is itself read as [**]. *)
Example sentinel_pair_is_a_wildcard :
  _match_pattern sentinel (u "/any/address") = true
  /\ _match_pattern (u "/a/[bc]") (u "/a/b") = true.
Proof. split; reflexivity. Qed.

(** ** Frame codec *)

Lemma byte_of_small (x : Z) :
  (0 <= x < 256)%Z ->
  exists b, Byte.of_N (Z.to_N x) = Some b /\ Z.of_N (Byte.to_N b) = x.
Proof.
  intros Hx. destruct (Byte.of_N (Z.to_N x)) as [b|] eqn:E.
  - exists b. split; [reflexivity|]. apply Byte.to_of_N in E. rewrite E. lia.
  - apply Byte.of_N_None_iff in E. lia.
Qed.

Lemma land_255 (n : Z) : (0 <= n)%Z -> Z.land n 0xFF = (n mod 256)%Z.
Proof. intros _. change 0xFF%Z with (Z.ones 8). rewrite Z.land_ones by lia. reflexivity. Qed.

Lemma lor_shiftl_8 (hi lo : Z) :
  (0 <= hi)%Z -> (0 <= lo < 256)%Z -> Z.lor (Z.shiftl hi 8) lo = (hi * 256 + lo)%Z.
Proof.
  intros Hhi Hlo.
  assert (Hz : Z.land (Z.shiftl hi 8) lo = 0%Z).
  { apply Z.bits_inj'. intros i Hi. rewrite Z.land_spec, Z.bits_0.
    destruct (Z.ltb_spec i 8).
    - rewrite Z.shiftl_spec_low by lia. reflexivity.
    - rewrite (Z.bits_above_log2 lo i); [apply andb_false_r | lia |].
      destruct (Z.eq_dec lo 0%Z) as [->|]; [simpl; lia|].
      apply Z.log2_lt_pow2; [lia|].
      apply Z.lt_le_trans with (2 ^ 8)%Z; [lia|].
      apply Z.pow_le_mono_r; lia. }
  rewrite <- Z.lxor_lor by exact Hz. rewrite <- Z.add_nocarry_lxor by exact Hz.
  rewrite Z.shiftl_mul_pow2 by lia. reflexivity.
Qed.

Section CodecFacts.

Context (packb : Value -> res bytes) (unpackb : bytes -> res Value).

(** The frame [_encode] builds, whatever the length of the payload. *)
Lemma _encode_frame (msg : Msg) (payload : bytes) :
  packb (VDict msg) = Ok payload ->
  exists hi lo : byte,
    _encode packb msg = Ok (Byte.x53 :: Byte.x00 :: hi :: lo :: payload)
    /\ Z.of_N (Byte.to_N hi) = ((len payload / 256) mod 256)%Z
    /\ Z.of_N (Byte.to_N lo) = (len payload mod 256)%Z.
Proof.
  intros Hp. unfold _encode. rewrite Hp. cbn [res_bind].
  assert (Hlen : (0 <= len payload)%Z) by (unfold len; lia).
  rewrite land_255 by (apply Z.shiftr_nonneg; exact Hlen).
  rewrite land_255 by exact Hlen.
  rewrite Z.shiftr_div_pow2 by lia. change (2 ^ 8)%Z with 256%Z.
  destruct (byte_of_small ((len payload / 256) mod 256)) as (hi & Ehi & Hhi);
    [apply Z.mod_pos_bound; lia|].
  destruct (byte_of_small (len payload mod 256)) as (lo & Elo & Hlo);
    [apply Z.mod_pos_bound; lia|].
  exists hi, lo. split; [|split; assumption].
  cbn [bytes_of_ints].
  destruct (Z.ltb_spec ((len payload / 256) mod 256) 0);
    [pose proof (Z.mod_pos_bound (len payload / 256) 256); lia|].
  destruct (Z.ltb_spec (len payload mod 256) 0);
    [pose proof (Z.mod_pos_bound (len payload) 256); lia|].
  cbn. rewrite Ehi, Elo. reflexivity.
Qed.

End CodecFacts.

(** The bytes [_decode] reads are the ones the frame holds. *)
Lemma byte_at_x53 (b : byte) : byte_at [b] 0 = 0x53%Z -> b = Byte.x53.
Proof.
  unfold byte_at. cbn. intros H.
  assert (E : Byte.to_N b = Byte.to_N Byte.x53) by (cbn; lia).
  apply (f_equal Byte.of_N) in E. rewrite !Byte.of_to_N in E. congruence.
Qed.

(** ** The serializer

    The unpacker reads back what the packer wrote. *)
Module MsgpackFacts.
Import Msgpack.

Lemma pack_list xs :
  pack (VList xs)
  = res_bind (pack_array_header (len xs)) (fun h =>
    res_bind (pack_all xs) (fun body => Ok (h ++ body))).
Proof. reflexivity. Qed.

Lemma pack_dict items :
  pack (VDict items)
  = res_bind (pack_map_header (len items)) (fun h =>
    res_bind (pack_items items) (fun body => Ok (h ++ body))).
Proof. reflexivity. Qed.

Lemma unpack_cons fuel b rest :
  unpack (S fuel) (b :: rest)
  = let t := Z.of_N (Byte.to_N b) in
    if (t <? 0x80)%Z then Ok (VInt t, rest)
    else if (t <? 0x90)%Z then unpack_map fuel (t - 0x80)%Z rest
    else if (t <? 0xA0)%Z then unpack_array fuel (t - 0x90)%Z rest
    else if (t <? 0xC0)%Z then read_str (t - 0xA0)%Z rest
    else if (0xE0 <=? t)%Z then Ok (VInt (t - 0x100), rest)
    else if (t =? 0xC0)%Z then Ok (VNone, rest)
    else if (t =? 0xC2)%Z then Ok (VBool false, rest)
    else if (t =? 0xC3)%Z then Ok (VBool true, rest)
    else if (0xC4 <=? t)%Z && (t <=? 0xC6)%Z then
      res_bind (read_uint (2 ^ (t - 0xC4)) rest) (fun '(n, r) => read_bin n r)
    else if (t =? 0xCB)%Z then
      res_bind (read_uint 8 rest) (fun '(n, r) => Ok (VFloat (Z.to_N n), r))
    else if (0xCC <=? t)%Z && (t <=? 0xCF)%Z then
      res_bind (read_uint (2 ^ (t - 0xCC)) rest) (fun '(n, r) => Ok (VInt n, r))
    else if (0xD0 <=? t)%Z && (t <=? 0xD3)%Z then
      res_bind (read_int (2 ^ (t - 0xD0)) rest) (fun '(n, r) => Ok (VInt n, r))
    else if (0xD9 <=? t)%Z && (t <=? 0xDB)%Z then
      res_bind (read_uint (2 ^ (t - 0xD9)) rest) (fun '(n, r) => read_str n r)
    else if (0xDC <=? t)%Z && (t <=? 0xDD)%Z then
      res_bind (read_uint (2 ^ (t - 0xDC + 1)) rest) (fun '(n, r) => unpack_array fuel n r)
    else if (0xDE <=? t)%Z && (t <=? 0xDF)%Z then
      res_bind (read_uint (2 ^ (t - 0xDE + 1)) rest) (fun '(n, r) => unpack_map fuel n r)
    else Raise ValueError.
Proof. reflexivity. Qed.

(** Bytes and big-endian integers *)

Lemma to_N_byte_of z : Z.of_N (Byte.to_N (byte_of z)) = (z mod 256)%Z.
Proof.
  unfold byte_of.
  destruct (byte_of_small (z mod 256)) as (b & E & H); [apply Z.mod_pos_bound; lia|].
  rewrite E. exact H.
Qed.

Lemma be_length k n : length (be k n) = k.
Proof. induction k as [|k IH]; [reflexivity|]. cbn [be length]. rewrite IH. reflexivity. Qed.

Lemma foldl_be k n acc :
  foldl (fun acc b => acc * 256 + Z.of_N (Byte.to_N b))%Z acc (be k n)
  = (acc * 256 ^ Z.of_nat k + n mod 256 ^ Z.of_nat k)%Z.
Proof.
  revert acc. induction k as [|k IH]; intros acc.
  - cbn. rewrite Z.mod_1_r. lia.
  - cbn [be foldl]. rewrite IH, to_N_byte_of.
    rewrite Z.shiftr_div_pow2 by lia.
    replace (2 ^ (8 * Z.of_nat k))%Z with (256 ^ Z.of_nat k)%Z
      by (change 256%Z with (2 ^ 8)%Z; rewrite <- Z.pow_mul_r by lia; reflexivity).
    rewrite Nat2Z.inj_succ, Z.pow_succ_r by lia.
    assert (Hp : (0 < 256 ^ Z.of_nat k)%Z) by (apply Z.pow_pos_nonneg; lia).
    rewrite (Z.mul_comm 256 (256 ^ Z.of_nat k)).
    rewrite (Z.rem_mul_r n (256 ^ Z.of_nat k) 256) by lia.
    lia.
Qed.

Lemma of_be_be k n : of_be (be k n) = (n mod 256 ^ Z.of_nat k)%Z.
Proof. unfold of_be. rewrite foldl_be. lia. Qed.

Lemma split_at_app (h rest : bytes) :
  split_at (len h) (h ++ rest) = Ok (h, rest).
Proof.
  unfold split_at, len. rewrite length_app.
  destruct (Z.ltb_spec (Z.of_nat (length h + length rest)) (Z.of_nat (length h))); [lia|].
  rewrite Nat2Z.id, take_app_length, drop_app_length. reflexivity.
Qed.

Lemma read_uint_be k n rest :
  read_uint (Z.of_nat k) (be k n ++ rest) = Ok ((n mod 256 ^ Z.of_nat k)%Z, rest).
Proof.
  unfold read_uint.
  replace (Z.of_nat k) with (len (be k n)) at 1 by (unfold len; rewrite be_length; reflexivity).
  rewrite split_at_app. cbn [res_bind]. rewrite of_be_be. reflexivity.
Qed.

Lemma read_bin_app (b rest : bytes) : read_bin (len b) (b ++ rest) = Ok (VBytes b, rest).
Proof. unfold read_bin. rewrite split_at_app. reflexivity. Qed.

(** UTF-8 *)

Ltac zlia := Z.div_mod_to_equations; lia.

Ltac branch :=
  repeat (cbn [andb negb]; cbv iota;
    match goal with
    | |- context [(?a <? ?b)%Z] => destruct (Z.ltb_spec a b); try zlia
    | |- context [(?a <=? ?b)%Z] => destruct (Z.leb_spec a b); try zlia
    | |- context [(?a =? ?b)%Z] => destruct (Z.eqb_spec a b); try zlia
    end); cbn [andb negb]; cbv iota.

Lemma cont_byte_of (x : Z) : (0 <= x < 64)%Z -> cont (byte_of (0x80 + x)) = Some x.
Proof.
  intros Hx. unfold cont. rewrite to_N_byte_of, Z.mod_small by lia.
  branch. f_equal. lia.
Qed.

Lemma land_63 (n : Z) : Z.land n 0x3F = (n mod 64)%Z.
Proof. change 0x3F%Z with (Z.ones 6). rewrite Z.land_ones by lia. reflexivity. Qed.

Lemma utf8_decode_cons fuel b0 rest :
  utf8_decode (S fuel) (b0 :: rest)
  = let z0 := Z.of_N (Byte.to_N b0) in
    let emit (cp : Z) (lo hi : Z) (rest' : bytes) : res str :=
      if (lo <=? cp)%Z && (cp <=? hi)%Z
         && negb ((0xD800 <=? cp)%Z && (cp <=? 0xDFFF)%Z)
      then res_bind (utf8_decode fuel rest') (fun s => Ok (Z.to_N cp :: s))
      else Raise ValueError in
    if (z0 <? 0x80)%Z then emit z0 0%Z 0x7F%Z rest
    else if (0xC0 <=? z0)%Z && (z0 <? 0xE0)%Z then
      match rest with
      | b1 :: rest' =>
          match cont b1 with
          | Some c1 => emit ((z0 - 0xC0) * 64 + c1)%Z 0x80%Z 0x7FF%Z rest'
          | None => Raise ValueError
          end
      | _ => Raise ValueError
      end
    else if (0xE0 <=? z0)%Z && (z0 <? 0xF0)%Z then
      match rest with
      | b1 :: b2 :: rest' =>
          match cont b1, cont b2 with
          | Some c1, Some c2 =>
              emit (((z0 - 0xE0) * 64 + c1) * 64 + c2)%Z 0x800%Z 0xFFFF%Z rest'
          | _, _ => Raise ValueError
          end
      | _ => Raise ValueError
      end
    else if (0xF0 <=? z0)%Z && (z0 <? 0xF8)%Z then
      match rest with
      | b1 :: b2 :: b3 :: rest' =>
          match cont b1, cont b2, cont b3 with
          | Some c1, Some c2, Some c3 =>
              emit ((((z0 - 0xF0) * 64 + c1) * 64 + c2) * 64 + c3)%Z
                   0x10000%Z 0x10FFFF%Z rest'
          | _, _, _ => Raise ValueError
          end
      | _ => Raise ValueError
      end
    else Raise ValueError.
Proof. reflexivity. Qed.

Lemma utf8_char_decodes (c : N) (bs : bytes) :
  utf8_char c = Ok bs ->
  (1 <= length bs)%nat
  /\ forall fuel rest,
       utf8_decode (S fuel) (bs ++ rest)
       = res_bind (utf8_decode fuel rest) (fun s => Ok (c :: s)).
Proof.
  unfold utf8_char. cbv zeta.
  pose proof (N2Z.is_nonneg c) as Hc. pose proof (N2Z.id c) as Hid.
  set (z := Z.of_N c) in *.
  destruct (Z.ltb_spec z 0x80).
  { intros [= <-]. split; [cbn; lia|]. intros fuel rest. cbn [app].
    rewrite utf8_decode_cons. cbv zeta. rewrite to_N_byte_of, Z.mod_small by lia.
    branch. rewrite Hid. reflexivity. }
  destruct (Z.ltb_spec z 0x800).
  { intros [= <-]. split; [cbn; lia|]. intros fuel rest. cbn [app].
    rewrite utf8_decode_cons. cbv zeta. rewrite to_N_byte_of.
    rewrite Z.shiftr_div_pow2, land_63 by lia. change (2 ^ 6)%Z with 64%Z.
    rewrite (Z.mod_small (192 + z / 64)) by zlia.
    rewrite cont_byte_of by zlia.
    branch. replace ((192 + z / 64 - 192) * 64 + z mod 64)%Z with z by zlia.
    rewrite Hid. reflexivity. }
  destruct (Z.ltb_spec z 0x10000).
  { destruct (Z.leb_spec 0xD800 z); destruct (Z.leb_spec z 0xDFFF); cbn [andb];
      try discriminate.
    all: intros [= <-]; split; [cbn; lia|]; intros fuel rest; cbn [app].
    all: rewrite utf8_decode_cons; cbv zeta; rewrite to_N_byte_of.
    all: rewrite !Z.shiftr_div_pow2, !land_63 by lia.
    all: change (2 ^ 6)%Z with 64%Z; change (2 ^ 12)%Z with 4096%Z.
    all: rewrite (Z.mod_small (224 + z / 4096)) by zlia.
    all: rewrite !cont_byte_of by zlia.
    all: replace (((224 + z / 4096 - 224) * 64 + (z / 64) mod 64) * 64 + z mod 64)%Z
           with z by zlia.
    all: branch; rewrite Hid; reflexivity. }
  destruct (Z.ltb_spec z 0x110000); [|discriminate].
  intros [= <-]. split; [cbn; lia|]. intros fuel rest. cbn [app].
  rewrite utf8_decode_cons. cbv zeta. rewrite to_N_byte_of.
  rewrite !Z.shiftr_div_pow2, !land_63 by lia.
  change (2 ^ 6)%Z with 64%Z; change (2 ^ 12)%Z with 4096%Z.
  change (2 ^ 18)%Z with 262144%Z.
  rewrite (Z.mod_small (240 + z / 262144)) by zlia.
  rewrite !cont_byte_of by zlia.
  replace ((((240 + z / 262144 - 240) * 64 + (z / 4096) mod 64) * 64
            + (z / 64) mod 64) * 64 + z mod 64)%Z with z by zlia.
  branch. rewrite Hid. reflexivity.
Qed.

Lemma utf8_length (s : str) : forall b, utf8 s = Ok b -> (length s <= length b)%nat.
Proof.
  induction s as [|c s IH]; intros b; cbn [utf8].
  - intros [= <-]. reflexivity.
  - destruct (utf8_char c) as [bc|] eqn:Ec; [|discriminate]. cbn [res_bind].
    destruct (utf8 s) as [bs|] eqn:Es; [|discriminate]. cbn [res_bind].
    intros [= <-]. destruct (utf8_char_decodes c bc Ec) as [Hl _].
    specialize (IH bs eq_refl). rewrite length_app. cbn [length]. lia.
Qed.

Lemma utf8_decode_utf8 (s : str) :
  forall b, utf8 s = Ok b ->
  forall fuel, (length s <= fuel)%nat -> utf8_decode fuel b = Ok s.
Proof.
  induction s as [|c s IH]; intros b; cbn [utf8].
  - intros [= <-] fuel _. destruct fuel; reflexivity.
  - destruct (utf8_char c) as [bc|] eqn:Ec; [|discriminate]. cbn [res_bind].
    destruct (utf8 s) as [bs|] eqn:Es; [|discriminate]. cbn [res_bind].
    intros [= <-] fuel Hf. destruct fuel as [|fuel]; [cbn in Hf; lia|].
    destruct (utf8_char_decodes c bc Ec) as [_ Hd]. rewrite Hd.
    rewrite (IH bs eq_refl fuel) by (cbn in Hf; lia). reflexivity.
Qed.

Lemma read_str_utf8 (s : str) (body rest : bytes) :
  utf8 s = Ok body -> read_str (len body) (body ++ rest) = Ok (VStr s, rest).
Proof.
  intros H. unfold read_str. rewrite split_at_app. cbn [res_bind].
  rewrite (utf8_decode_utf8 s body H) by (apply utf8_length; exact H). reflexivity.
Qed.

(** Scalars *)

Lemma pow256 (k : nat) : (256 ^ Z.of_nat k = 2 ^ (8 * Z.of_nat k))%Z.
Proof. change 256%Z with (2 ^ 8)%Z. rewrite <- Z.pow_mul_r by lia. reflexivity. Qed.

Lemma unpack_tagged (fuel : nat) (t : Z) (rest : bytes) :
  (0 <= t < 256)%Z ->
  unpack (S fuel) (byte_of t :: rest)
  = if (t <? 0x80)%Z then Ok (VInt t, rest)
    else if (t <? 0x90)%Z then unpack_map fuel (t - 0x80)%Z rest
    else if (t <? 0xA0)%Z then unpack_array fuel (t - 0x90)%Z rest
    else if (t <? 0xC0)%Z then read_str (t - 0xA0)%Z rest
    else if (0xE0 <=? t)%Z then Ok (VInt (t - 0x100), rest)
    else if (t =? 0xC0)%Z then Ok (VNone, rest)
    else if (t =? 0xC2)%Z then Ok (VBool false, rest)
    else if (t =? 0xC3)%Z then Ok (VBool true, rest)
    else if (0xC4 <=? t)%Z && (t <=? 0xC6)%Z then
      res_bind (read_uint (2 ^ (t - 0xC4)) rest) (fun '(n, r) => read_bin n r)
    else if (t =? 0xCB)%Z then
      res_bind (read_uint 8 rest) (fun '(n, r) => Ok (VFloat (Z.to_N n), r))
    else if (0xCC <=? t)%Z && (t <=? 0xCF)%Z then
      res_bind (read_uint (2 ^ (t - 0xCC)) rest) (fun '(n, r) => Ok (VInt n, r))
    else if (0xD0 <=? t)%Z && (t <=? 0xD3)%Z then
      res_bind (read_int (2 ^ (t - 0xD0)) rest) (fun '(n, r) => Ok (VInt n, r))
    else if (0xD9 <=? t)%Z && (t <=? 0xDB)%Z then
      res_bind (read_uint (2 ^ (t - 0xD9)) rest) (fun '(n, r) => read_str n r)
    else if (0xDC <=? t)%Z && (t <=? 0xDD)%Z then
      res_bind (read_uint (2 ^ (t - 0xDC + 1)) rest) (fun '(n, r) => unpack_array fuel n r)
    else if (0xDE <=? t)%Z && (t <=? 0xDF)%Z then
      res_bind (read_uint (2 ^ (t - 0xDE + 1)) rest) (fun '(n, r) => unpack_map fuel n r)
    else Raise ValueError.
Proof.
  intros Ht. rewrite unpack_cons. cbv zeta. rewrite to_N_byte_of, Z.mod_small by exact Ht.
  reflexivity.
Qed.

(** The formats with a length or a number of [k] bytes after the tag. *)
Lemma unpack_uint (fuel : nat) (tag : byte) (k : nat) (n : Z) (rest : bytes) :
  (tag, k) ∈ [(Byte.xcc, 1); (Byte.xcd, 2); (Byte.xce, 4); (Byte.xcf, 8)]%nat ->
  (0 <= n < 256 ^ Z.of_nat k)%Z ->
  unpack (S fuel) (tag :: be k n ++ rest) = Ok (VInt n, rest).
Proof.
  intros Hin Hn. rewrite unpack_cons. cbv zeta.
  repeat (apply elem_of_cons in Hin as [[= -> ->] | Hin]);
    [..|apply elem_of_nil in Hin; contradiction].
  all: match goal with
       | |- context [read_uint _ (be ?k _ ++ _)] =>
           change (res_bind (read_uint (Z.of_nat k) (be k n ++ rest))
                     (fun '(n, r) => Ok (VInt n, r)) = Ok (VInt n, rest))
       end.
  all: rewrite read_uint_be, Z.mod_small by exact Hn; reflexivity.
Qed.

Lemma read_int_be (k : nat) (n : Z) (rest : bytes) :
  (1 <= k)%nat -> (- 2 ^ (8 * Z.of_nat k - 1) <= n < 0)%Z ->
  read_int (Z.of_nat k) (be k n ++ rest) = Ok (n, rest).
Proof.
  intros Hk Hn. unfold read_int. rewrite read_uint_be. cbn [res_bind].
  rewrite pow256.
  assert (Hp : (2 ^ (8 * Z.of_nat k) = 2 * 2 ^ (8 * Z.of_nat k - 1))%Z).
  { rewrite <- Z.pow_succ_r by lia. f_equal. lia. }
  assert (Hq : (0 < 2 ^ (8 * Z.of_nat k - 1))%Z) by (apply Z.pow_pos_nonneg; lia).
  replace (n mod 2 ^ (8 * Z.of_nat k))%Z with (n + 2 ^ (8 * Z.of_nat k))%Z
    by (apply Z.mod_unique with (-1)%Z; lia).
  destruct (Z.ltb_spec (n + 2 ^ (8 * Z.of_nat k)) (2 ^ (8 * Z.of_nat k - 1))); [lia|].
  do 2 f_equal. lia.
Qed.

Lemma unpack_int (fuel : nat) (tag : byte) (k : nat) (n : Z) (rest : bytes) :
  (tag, k) ∈ [(Byte.xd0, 1); (Byte.xd1, 2); (Byte.xd2, 4); (Byte.xd3, 8)]%nat ->
  (- 2 ^ (8 * Z.of_nat k - 1) <= n < 0)%Z ->
  unpack (S fuel) (tag :: be k n ++ rest) = Ok (VInt n, rest).
Proof.
  intros Hin Hn. rewrite unpack_cons. cbv zeta.
  repeat (apply elem_of_cons in Hin as [[= -> ->] | Hin]);
    [..|apply elem_of_nil in Hin; contradiction].
  all: match goal with
       | |- context [read_int _ (be ?k _ ++ _)] =>
           change (res_bind (read_int (Z.of_nat k) (be k n ++ rest))
                     (fun '(n, r) => Ok (VInt n, r)) = Ok (VInt n, rest))
       end.
  all: rewrite read_int_be by (try exact Hn; lia); reflexivity.
Qed.

Lemma unpack_pack_int (z : Z) (b : bytes) :
  pack_int z = Ok b ->
  forall fuel rest, unpack (S fuel) (b ++ rest) = Ok (VInt z, rest).
Proof.
  unfold pack_int. intros H fuel rest. revert H.
  destruct (Z.leb_spec 0 z).
  - destruct (Z.ltb_spec z 0x80).
    { intros [= <-]. cbn [app]. rewrite unpack_tagged by lia. branch. reflexivity. }
    destruct (Z.ltb_spec z 0x100).
    { intros [= <-]. apply (unpack_uint fuel Byte.xcc 1); [set_solver | cbn; lia]. }
    destruct (Z.ltb_spec z 0x10000).
    { intros [= <-]. apply (unpack_uint fuel Byte.xcd 2); [set_solver | cbn; lia]. }
    destruct (Z.ltb_spec z 0x100000000).
    { intros [= <-]. apply (unpack_uint fuel Byte.xce 4); [set_solver | cbn; lia]. }
    destruct (Z.ltb_spec z 0x10000000000000000); [|discriminate].
    intros [= <-]. apply (unpack_uint fuel Byte.xcf 8); [set_solver | cbn; lia].
  - destruct (Z.leb_spec (-32) z).
    { intros [= <-]. cbn [app]. rewrite unpack_cons. cbv zeta. rewrite to_N_byte_of.
      replace (z mod 256)%Z with (z + 256)%Z
        by (apply Z.mod_unique with (-1)%Z; lia).
      branch. replace (z + 256 - 256)%Z with z by lia. reflexivity. }
    destruct (Z.leb_spec (-0x80) z).
    { intros [= <-]. apply (unpack_int fuel Byte.xd0 1); [set_solver | cbn; lia]. }
    destruct (Z.leb_spec (-0x8000) z).
    { intros [= <-]. apply (unpack_int fuel Byte.xd1 2); [set_solver | cbn; lia]. }
    destruct (Z.leb_spec (-0x80000000) z).
    { intros [= <-]. apply (unpack_int fuel Byte.xd2 4); [set_solver | cbn; lia]. }
    destruct (Z.leb_spec (-0x8000000000000000) z); [|discriminate].
    intros [= <-]. apply (unpack_int fuel Byte.xd3 8); [set_solver | cbn; lia].
Qed.

(** Strings, byte strings and the headers of containers *)

Ltac pow_bound :=
  match goal with
  | |- (_ <= _ < 256 ^ Z.of_nat ?k)%Z =>
      let p := eval vm_compute in (256 ^ Z.of_nat k)%Z in
      change (256 ^ Z.of_nat k)%Z with p; lia
  end.

Lemma unpack_len (k : nat) (n : Z) (rest : bytes)
    (read : Z -> bytes -> res (Value * bytes)) :
  (0 <= n < 256 ^ Z.of_nat k)%Z ->
  res_bind (read_uint (Z.of_nat k) (be k n ++ rest)) (fun '(n, r) => read n r)
  = read n rest.
Proof. intros Hn. rewrite read_uint_be, Z.mod_small by exact Hn. reflexivity. Qed.

Lemma unpack_pack_str (s : str) (b : bytes) :
  pack_str s = Ok b ->
  (1 <= length b)%nat
  /\ forall fuel rest, unpack (S fuel) (b ++ rest) = Ok (VStr s, rest).
Proof.
  unfold pack_str. destruct (utf8 s) as [body|] eqn:Es; [|discriminate].
  cbn [res_bind]. unfold pack_str_header.
  assert (Hnn : (0 <= len body)%Z) by (unfold len; lia).
  pose proof (fun rest => read_str_utf8 s body rest Es) as Hr.
  destruct (Z.ltb_spec (len body) 32).
  { intros [= <-]. split; [cbn; lia|]. intros fuel rest.
    change (unpack (S fuel) (byte_of (0xA0 + len body) :: body ++ rest) = Ok (VStr s, rest)).
    rewrite unpack_tagged by lia. branch.
    replace (160 + len body - 160)%Z with (len body) by lia. apply Hr. }
  destruct (Z.ltb_spec (len body) 0x100).
  { intros [= <-]. split; [cbn; lia|]. intros fuel rest.
    change (res_bind (read_uint (Z.of_nat 1) (be 1 (len body) ++ body ++ rest))
              (fun '(n, r) => read_str n r) = Ok (VStr s, rest)).
    rewrite unpack_len by pow_bound. apply Hr. }
  destruct (Z.ltb_spec (len body) 0x10000).
  { intros [= <-]. split; [cbn; lia|]. intros fuel rest.
    change (res_bind (read_uint (Z.of_nat 2) (be 2 (len body) ++ body ++ rest))
              (fun '(n, r) => read_str n r) = Ok (VStr s, rest)).
    rewrite unpack_len by pow_bound. apply Hr. }
  destruct (Z.ltb_spec (len body) 0x100000000); [|discriminate].
  intros [= <-]. split; [cbn; lia|]. intros fuel rest.
  change (res_bind (read_uint (Z.of_nat 4) (be 4 (len body) ++ body ++ rest))
            (fun '(n, r) => read_str n r) = Ok (VStr s, rest)).
  rewrite unpack_len by pow_bound. apply Hr.
Qed.

Lemma unpack_pack_bytes (body h : bytes) :
  pack_bin_header (len body) = Ok h ->
  forall fuel rest, unpack (S fuel) ((h ++ body) ++ rest) = Ok (VBytes body, rest).
Proof.
  unfold pack_bin_header.
  assert (Hnn : (0 <= len body)%Z) by (unfold len; lia).
  destruct (Z.ltb_spec (len body) 0x100).
  { intros [= <-] fuel rest.
    change (res_bind (read_uint (Z.of_nat 1) (be 1 (len body) ++ body ++ rest))
              (fun '(n, r) => read_bin n r) = Ok (VBytes body, rest)).
    rewrite unpack_len by pow_bound. apply read_bin_app. }
  destruct (Z.ltb_spec (len body) 0x10000).
  { intros [= <-] fuel rest.
    change (res_bind (read_uint (Z.of_nat 2) (be 2 (len body) ++ body ++ rest))
              (fun '(n, r) => read_bin n r) = Ok (VBytes body, rest)).
    rewrite unpack_len by pow_bound. apply read_bin_app. }
  destruct (Z.ltb_spec (len body) 0x100000000); [|discriminate].
  intros [= <-] fuel rest.
  change (res_bind (read_uint (Z.of_nat 4) (be 4 (len body) ++ body ++ rest))
            (fun '(n, r) => read_bin n r) = Ok (VBytes body, rest)).
  rewrite unpack_len by pow_bound. apply read_bin_app.
Qed.

Lemma unpack_array_header (n : Z) (h : bytes) :
  (0 <= n)%Z -> pack_array_header n = Ok h ->
  (1 <= length h)%nat
  /\ forall fuel data, unpack (S fuel) (h ++ data) = unpack_array fuel n data.
Proof.
  intros Hnn. unfold pack_array_header.
  destruct (Z.ltb_spec n 16).
  { intros [= <-]. split; [cbn; lia|]. intros fuel data.
    change (unpack (S fuel) (byte_of (0x90 + n) :: data) = unpack_array fuel n data).
    rewrite unpack_tagged by lia. branch. f_equal. lia. }
  destruct (Z.ltb_spec n 0x10000).
  { intros [= <-]. split; [cbn; lia|]. intros fuel data.
    change (res_bind (read_uint (Z.of_nat 2) (be 2 n ++ data))
              (fun '(n, r) => unpack_array fuel n r) = unpack_array fuel n data).
    apply (unpack_len 2 n data (unpack_array fuel)). pow_bound. }
  destruct (Z.ltb_spec n 0x100000000); [|discriminate].
  intros [= <-]. split; [cbn; lia|]. intros fuel data.
  change (res_bind (read_uint (Z.of_nat 4) (be 4 n ++ data))
            (fun '(n, r) => unpack_array fuel n r) = unpack_array fuel n data).
  apply (unpack_len 4 n data (unpack_array fuel)). pow_bound.
Qed.

Lemma unpack_map_header (n : Z) (h : bytes) :
  (0 <= n)%Z -> pack_map_header n = Ok h ->
  (1 <= length h)%nat
  /\ forall fuel data, unpack (S fuel) (h ++ data) = unpack_map fuel n data.
Proof.
  intros Hnn. unfold pack_map_header.
  destruct (Z.ltb_spec n 16).
  { intros [= <-]. split; [cbn; lia|]. intros fuel data.
    change (unpack (S fuel) (byte_of (0x80 + n) :: data) = unpack_map fuel n data).
    rewrite unpack_tagged by lia. branch. f_equal. lia. }
  destruct (Z.ltb_spec n 0x10000).
  { intros [= <-]. split; [cbn; lia|]. intros fuel data.
    change (res_bind (read_uint (Z.of_nat 2) (be 2 n ++ data))
              (fun '(n, r) => unpack_map fuel n r) = unpack_map fuel n data).
    apply (unpack_len 2 n data (unpack_map fuel)). pow_bound. }
  destruct (Z.ltb_spec n 0x100000000); [|discriminate].
  intros [= <-]. split; [cbn; lia|]. intros fuel data.
  change (res_bind (read_uint (Z.of_nat 4) (be 4 n ++ data))
            (fun '(n, r) => unpack_map fuel n r) = unpack_map fuel n data).
  apply (unpack_len 4 n data (unpack_map fuel)). pow_bound.
Qed.

(** Containers *)

Lemma Value_nested_ind (P : Value -> Prop) :
  P VNone -> (forall b, P (VBool b)) -> (forall z, P (VInt z)) ->
  (forall bits, P (VFloat bits)) -> (forall s, P (VStr s)) -> (forall b, P (VBytes b)) ->
  (forall xs, Forall P xs -> P (VList xs)) ->
  (forall items, Forall (fun kv => P kv.2) items -> P (VDict items)) ->
  forall v, P v.
Proof.
  intros HN HB HI HF HS HY HL HD. fix IH 1.
  intros [| | | | | |xs|items];
    [exact HN | apply HB | apply HI | apply HF | apply HS | apply HY | |].
  - apply HL. induction xs as [|x xs IHxs]; constructor; [apply IH | exact IHxs].
  - apply HD. induction items as [|[k x] items IHi]; constructor; [apply IH | exact IHi].
Qed.

Lemma dict_set_fresh (k : str) (v : Value) (acc : list (str * Value)) :
  k ∉ fst <$> acc -> dict_set k v acc = acc ++ [(k, v)].
Proof.
  induction acc as [|[k' v'] acc IH]; intros Hk; [reflexivity|].
  cbn [dict_set]. rewrite fmap_cons in Hk. apply not_elem_of_cons in Hk as [Hne Hk].
  cbn in Hne. rewrite bool_decide_eq_false_2 by congruence.
  rewrite IH by exact Hk. reflexivity.
Qed.

Lemma elements_pack_all (xs : list Value) :
  Forall roundtrips xs -> forallb representable xs = true ->
  forall body, pack_all xs = Ok body ->
    (foldr (fun x d => Nat.max (depth x) d) O xs <= length body)%nat
    /\ forall fuel rest,
         (foldr (fun x d => Nat.max (depth x) d) O xs < fuel)%nat ->
         elements fuel (length xs) (body ++ rest) = Ok (xs, rest).
Proof.
  induction 1 as [|x xs Hx _ IH]; intros Hr body; cbn [pack_all].
  - intros [= <-]. split; [cbn; lia|]. reflexivity.
  - cbn [forallb] in Hr. apply andb_prop in Hr as [Hrx Hrs].
    destruct (pack x) as [bx|] eqn:Ex; [|discriminate]. cbn [res_bind].
    destruct (pack_all xs) as [bs|] eqn:Es; [|discriminate]. cbn [res_bind].
    intros [= <-]. destruct (Hx bx Hrx Ex) as [Hd Hu].
    destruct (IH Hrs bs eq_refl) as [Hds Hus]. cbn [foldr]. split.
    + rewrite length_app. lia.
    + intros fuel rest Hf. cbn [length elements]. rewrite <- app_assoc.
      rewrite Hu by lia. cbn [res_bind].
      change ((fix elements (n : nat) (data : bytes) {struct n}
                : res (list Value * bytes) := _) (length xs) (bs ++ rest))
        with (elements fuel (length xs) (bs ++ rest)).
      rewrite Hus by lia. reflexivity.
Qed.

Lemma entries_pack_items (items : list (str * Value)) :
  Forall (fun kv => roundtrips kv.2) items ->
  forallb (fun kv => representable kv.2) items = true ->
  forall body acc, pack_items items = Ok body ->
    NoDup ((fst <$> acc) ++ (fst <$> items)) ->
    (foldr (fun kv d => Nat.max (depth kv.2) d) O items <= length body)%nat
    /\ forall fuel rest,
         (foldr (fun kv d => Nat.max (depth kv.2) d) O items < fuel)%nat ->
         entries fuel (length items) acc (body ++ rest) = Ok (acc ++ items, rest).
Proof.
  induction 1 as [|[k x] items Hx _ IH]; intros Hr body acc; cbn [pack_items].
  - intros [= <-] _. split; [cbn; lia|]. intros fuel rest _. cbn.
    rewrite app_nil_r. reflexivity.
  - cbn [forallb snd] in Hr. apply andb_prop in Hr as [Hrx Hrs]. cbn [snd] in Hx.
    destruct (pack_str k) as [bk|] eqn:Ek; [|discriminate]. cbn [res_bind].
    destruct (pack x) as [bx|] eqn:Ex; [|discriminate]. cbn [res_bind].
    destruct (pack_items items) as [bs|] eqn:Es; [|discriminate]. cbn [res_bind].
    intros [= <-] Hnd. destruct (Hx bx Hrx Ex) as [Hd Hu].
    destruct (unpack_pack_str k bk Ek) as [_ Hk].
    assert (Hfresh : k ∉ fst <$> acc).
    { apply NoDup_app in Hnd as (_ & Hdis & _). intros Hin.
      apply (Hdis k Hin). rewrite fmap_cons. apply elem_of_cons. left. reflexivity. }
    assert (Hnd' : NoDup ((fst <$> acc ++ [(k, x)]) ++ (fst <$> items))).
    { rewrite fmap_app, <- app_assoc. exact Hnd. }
    destruct (IH Hrs bs (acc ++ [(k, x)]) eq_refl Hnd') as [Hds Hus].
    cbn [foldr snd]. split.
    + rewrite !length_app. lia.
    + intros fuel rest Hf. destruct fuel as [|fuel]; [lia|].
      cbn [length entries]. rewrite <- !app_assoc.
      rewrite Hk. cbn [res_bind]. rewrite Hu by lia. cbn [res_bind].
      rewrite dict_set_fresh by exact Hfresh.
      change ((fix entries (n : nat) (acc : list (str * Value)) (data : bytes) {struct n}
                : res (list (str * Value) * bytes) := _)
                (length items) (acc ++ [(k, x)]) (bs ++ rest))
        with (entries (S fuel) (length items) (acc ++ [(k, x)]) (bs ++ rest)).
      rewrite Hus by lia. rewrite <- app_assoc. reflexivity.
Qed.

(** Every value the packer accepts comes back from the unpacker. *)
Lemma unpack_pack (v : Value) : roundtrips v.
Proof.
  induction v as [|b|z|bits|s|y|xs IH|items IH] using Value_nested_ind;
    intros b' Hr Hp; cbn [depth].
  - injection Hp as <-. split; [cbn; lia|]. intros [|fuel] rest Hf; [lia|]. reflexivity.
  - destruct b; injection Hp as <-; (split; [cbn; lia|]);
      intros [|fuel] rest Hf; try lia; reflexivity.
  - cbn [pack] in Hp. split.
    + lia.
    + intros [|fuel] rest Hf; [lia|]. apply unpack_pack_int, Hp.
  - injection Hp as <-. split; [lia|]. intros [|fuel] rest Hf; [lia|].
    cbn [representable] in Hr. apply andb_prop in Hr as [Hb _].
    apply N.ltb_lt in Hb.
    change (res_bind (read_uint (Z.of_nat 8) (be 8 (Z.of_N bits) ++ rest))
              (fun '(n, r) => Ok (VFloat (Z.to_N n), r)) = Ok (VFloat bits, rest)).
    rewrite read_uint_be. cbn [res_bind].
    rewrite Z.mod_small.
    + rewrite N2Z.id. reflexivity.
    + change (256 ^ Z.of_nat 8)%Z with (Z.of_N (2 ^ 64)). lia.
  - cbn [pack] in Hp. destruct (unpack_pack_str s b' Hp) as [Hl Hu].
    split; [lia|]. intros [|fuel] rest Hf; [lia|]. apply Hu.
  - cbn [pack] in Hp. destruct (pack_bin_header (len y)) as [h|] eqn:Eh; [|discriminate].
    injection Hp as <-. split; [lia|]. intros [|fuel] rest Hf; [lia|].
    apply unpack_pack_bytes, Eh.
  - rewrite pack_list in Hp.
    destruct (pack_array_header (len xs)) as [h|] eqn:Eh; [|discriminate].
    cbn [res_bind] in Hp. destruct (pack_all xs) as [body|] eqn:Eb; [|discriminate].
    injection Hp as <-. cbn [representable] in Hr.
    destruct (unpack_array_header (len xs) h) as [Hl Hu]; [unfold len; lia | exact Eh |].
    destruct (elements_pack_all xs IH Hr body Eb) as [Hd He]. split.
    + rewrite length_app. lia.
    + intros [|fuel] rest Hf; [lia|]. rewrite <- app_assoc, Hu.
      unfold unpack_array, len. rewrite Nat2Z.id, He by lia. reflexivity.
  - rewrite pack_dict in Hp.
    destruct (pack_map_header (len items)) as [h|] eqn:Eh; [|discriminate].
    cbn [res_bind] in Hp. destruct (pack_items items) as [body|] eqn:Eb; [|discriminate].
    injection Hp as <-. cbn [representable] in Hr. apply andb_prop in Hr as [Hnd Hr].
    apply bool_decide_eq_true_1 in Hnd.
    destruct (unpack_map_header (len items) h) as [Hl Hu]; [unfold len; lia | exact Eh |].
    destruct (entries_pack_items items IH Hr body [] Eb Hnd) as [Hd He]. split.
    + rewrite length_app. lia.
    + intros [|fuel] rest Hf; [lia|]. rewrite <- app_assoc, Hu.
      unfold unpack_map, len. rewrite Nat2Z.id, He by lia. reflexivity.
Qed.

(** [unpackb(packb(v)) == v] *)
Lemma unpackb_packb (v : Value) (b : bytes) :
  representable v = true -> packb v = Ok b -> unpackb b = Ok v.
Proof.
  intros Hr Hp. destruct (unpack_pack v b Hr Hp) as [Hd Hu].
  unfold unpackb. rewrite <- (app_nil_r b) at 2. rewrite Hu by lia. reflexivity.
Qed.

End MsgpackFacts.

(** The frame is transparent to a payload of at most 65535 bytes: what
    [_decode] hands to the deserializer is the payload [_encode] got from
    the serializer. *)
Lemma payload_crosses_frame
    (packb : Value -> res bytes) (unpackb : bytes -> res Value)
    (m : Msg) (payload : bytes) :
  packb (VDict m) = Ok payload -> (len payload <= 65535)%Z ->
  res_bind (_encode packb m) (_decode unpackb) = unpackb payload.
Proof.
  intros Hp Hlen.
  destruct (_encode_frame packb m payload Hp) as (hi & lo & -> & Hhi & Hlo).
  cbn [res_bind]. unfold _decode.
  assert (Hnn : (0 <= len payload)%Z) by (unfold len; lia).
  assert (Hl : (len (Byte.x53 :: Byte.x00 :: hi :: lo :: payload) <? 4)%Z = false).
  { apply Z.ltb_ge. unfold len in *. cbn [length]. lia. }
  rewrite Hl. change (byte_at (Byte.x53 :: _) 0) with 0x53%Z.
  change (byte_at (_ :: Byte.x00 :: _) 1) with 0%Z.
  change (byte_at (_ :: _ :: hi :: _) 2) with (Z.of_N (Byte.to_N hi)).
  change (byte_at (_ :: _ :: _ :: lo :: _) 3) with (Z.of_N (Byte.to_N lo)).
  change (Z.land 0 32 =? 0)%Z with true.
  change (0x53 =? 0x53)%Z with true. cbn [orb negb].
  rewrite Hhi, Hlo.
  rewrite lor_shiftl_8;
    [| apply Z.mod_pos_bound; lia | apply Z.mod_pos_bound; lia].
  replace ((len payload / 256) mod 256)%Z with (len payload / 256)%Z
    by (symmetry; apply Z.mod_small; split;
        [apply Z.div_pos; lia | apply Z.div_lt_upper_bound; lia]).
  replace (len payload / 256 * 256 + len payload mod 256)%Z with (len payload)
    by (rewrite (Z.div_mod (len payload) 256) at 1; lia).
  unfold slice. replace (4 + len payload - 4)%Z with (len payload) by lia.
  change (drop (Z.to_nat 4) (Byte.x53 :: Byte.x00 :: hi :: lo :: payload)) with payload.
  unfold len. rewrite Nat2Z.id, firstn_all. reflexivity.
Qed.

(** C4: decoding the frame of a well-formed message gives the message
    back.  The serializer is the MessagePack one: the frame crosses the
    codec, and the unpacker reads back what the packer wrote. *)
Theorem decode_encode_roundtrip (m : Msg) :
  well_formed m ->
  res_bind (_encode Msgpack.packb m) (_decode Msgpack.unpackb) = Ok (VDict m).
Proof.
  intros (Hr & _ & payload & Hp & Hlen).
  rewrite (payload_crosses_frame _ _ m payload Hp Hlen).
  apply MsgpackFacts.unpackb_packb; assumption.
Qed.

Lemma decode_encode_roundtrip_witness :
  well_formed set_opacity
  /\ res_bind (_encode Msgpack.packb set_opacity) (_decode Msgpack.unpackb)
     = Ok (VDict set_opacity).
Proof.
  assert (W : well_formed set_opacity).
  { split; [vm_compute; reflexivity|]. split; [cbn; lia|].
    eexists. split; [vm_compute; reflexivity | vm_compute; discriminate]. }
  split; [exact W | exact (decode_encode_roundtrip _ W)].
Defined.

Lemma byte_of_to_N (b c : byte) : Z.of_N (Byte.to_N b) = Z.of_N (Byte.to_N c) -> b = c.
Proof.
  intros H. apply N2Z.inj in H. apply (f_equal Byte.of_N) in H.
  rewrite !Byte.of_to_N in H. congruence.
Qed.

Lemma long_text_packed :
  Msgpack.packb (VDict set_long_text) = Ok long_text_payload.
Proof.
  unfold long_text_payload.
  assert (H : match Msgpack.packb (VDict set_long_text) with
              | Ok _ => true | Raise _ => false end = true)
    by (vm_compute; reflexivity).
  destruct (Msgpack.packb (VDict set_long_text)); [reflexivity | discriminate].
Qed.

Lemma long_text_length : len long_text_payload = 65568%Z.
Proof. vm_compute. reflexivity. Qed.

(** C5 as stated fails: a payload of 65568 bytes is framed, with the
    length field holding 65568 mod 65536 = 32. *)
Lemma encode_oversize_payload_wraps :
  Msgpack.packb (VDict set_long_text) = Ok long_text_payload
  /\ (65535 < len long_text_payload)%Z
  /\ _encode Msgpack.packb set_long_text
     = Ok (Byte.x53 :: Byte.x00 :: Byte.x00 :: Byte.x20 :: long_text_payload).
Proof.
  split; [exact long_text_packed|]. split; [rewrite long_text_length; lia|].
  destruct (_encode_frame _ _ _ long_text_packed) as (hi & lo & -> & Hhi & Hlo).
  rewrite long_text_length in Hhi, Hlo.
  rewrite (byte_of_to_N hi Byte.x00 Hhi), (byte_of_to_N lo Byte.x20 Hlo).
  reflexivity.
Qed.

(** C5 (amended): [_encode] has no size check.  Whenever the serializer
    yields a payload, of any length, the frame is the magic byte, a zero
    flags byte, the payload length modulo 65536 in two big-endian bytes,
    and the whole payload. *)
Theorem encode_length_field_wraps
    (packb : Value -> res bytes) (msg : Msg) (payload : bytes) :
  packb (VDict msg) = Ok payload ->
  exists hi lo : byte,
    _encode packb msg = Ok (Byte.x53 :: Byte.x00 :: hi :: lo :: payload)
    /\ (256 * Z.of_N (Byte.to_N hi) + Z.of_N (Byte.to_N lo)
        = len payload mod 65536)%Z.
Proof.
  intros Hp. destruct (_encode_frame packb msg payload Hp) as (hi & lo & E & Hhi & Hlo).
  exists hi, lo. split; [exact E|]. rewrite Hhi, Hlo.
  assert (Hnn : (0 <= len payload)%Z) by (unfold len; lia).
  change 65536%Z with (256 * 256)%Z.
  rewrite Z.rem_mul_r by lia. lia.
Qed.

Lemma encode_length_field_wraps_witness :
  Msgpack.packb (VDict set_long_text) = Ok long_text_payload
  /\ exists hi lo : byte,
       _encode Msgpack.packb set_long_text
       = Ok (Byte.x53 :: Byte.x00 :: hi :: lo :: long_text_payload)
       /\ (256 * Z.of_N (Byte.to_N hi) + Z.of_N (Byte.to_N lo)
           = len long_text_payload mod 65536)%Z.
Proof.
  split; [exact long_text_packed|].
  exact (encode_length_field_wraps _ _ _ long_text_packed).
Defined.

(** The frame of the oversize message does not decode to the message: the
    payload is cut at the wrapped length. *)
Example oversize_frame_does_not_decode :
  res_bind (_encode Msgpack.packb set_long_text) (_decode Msgpack.unpackb)
  = Raise ValueError.
Proof. vm_compute. reflexivity. Qed.

(** C6: a buffer shorter than four bytes, or one whose first byte is not
    the magic 0x53, is rejected with the client's "Invalid frame" error and
    never reaches the deserializer. *)
Theorem decode_rejects_invalid_frame
    (unpackb : bytes -> res Value) (data : bytes) :
  (len data < 4)%Z \/ head data <> Some Byte.x53 ->
  _decode unpackb data = Raise (ClaspError "Invalid frame").
Proof.
  intros H. unfold _decode.
  destruct (Z.ltb_spec (len data) 4) as [|Hge]; [reflexivity|].
  destruct H as [H | H]; [lia|].
  destruct data as [|b data]; [unfold len in Hge; cbn in Hge; lia|].
  destruct (Z.eqb_spec (byte_at (b :: data) 0) 0x53) as [E|]; [|reflexivity].
  exfalso. apply H. cbn. f_equal. apply byte_at_x53. exact E.
Qed.

Lemma decode_rejects_invalid_frame_witness :
  _decode Msgpack.unpackb [Byte.x53; Byte.x00; Byte.x01] = Raise (ClaspError "Invalid frame")
  /\ _decode Msgpack.unpackb [Byte.x54; Byte.x00; Byte.x00; Byte.x01; Byte.xc0]
     = Raise (ClaspError "Invalid frame").
Proof.
  split; apply decode_rejects_invalid_frame.
  - left. vm_compute. reflexivity.
  - right. cbn. discriminate.
Defined.

(** ** State threading *)

Section Preserves.

Context (P : Clasp -> Prop).

Lemma preserves_ret {A : Type} (a : A) : preserves P (mret a).
Proof. intros st H. exact H. Qed.

Lemma preserves_raise {A : Type} (e : exn) : preserves P (raise (A:=A) e).
Proof. intros st H. exact H. Qed.

Lemma preserves_lift {A : Type} (r : res A) : preserves P (lift r).
Proof. intros st H. exact H. Qed.

Lemma preserves_self : preserves P self.
Proof. intros st H. exact H. Qed.

Lemma preserves_modify (f : Clasp -> Clasp) :
  (forall st, P st -> P (f st)) -> preserves P (modify f).
Proof. intros Hf st H. apply Hf, H. Qed.

Lemma preserves_bind {A B : Type} (m : M A) (k : A -> M B) :
  preserves P m -> (forall a, preserves P (k a)) -> preserves P (m ≫= k).
Proof.
  intros Hm Hk st H. unfold mbind, M_bind.
  specialize (Hm st H). destruct (m st) as [[a|e] st']; cbn in *.
  - apply Hk, Hm.
  - exact Hm.
Qed.

Lemma preserves_try_except {A : Type} (body : M A) (handler : exn -> M A) :
  preserves P body -> (forall e, preserves P (handler e)) ->
  preserves P (try_except body handler).
Proof.
  intros Hb Hh st H. unfold try_except.
  specialize (Hb st H). destruct (body st) as [[a|e] st']; cbn in *.
  - exact Hb.
  - destruct (is_Exception e); [apply Hh, Hb | exact Hb].
Qed.

Lemma preserves_for_each {A : Type} (xs : list A) (body : A -> M unit) :
  (forall x, preserves P (body x)) -> preserves P (for_each xs body).
Proof.
  intros Hb. induction xs as [|x xs IH]; cbn [for_each].
  - apply preserves_ret.
  - apply preserves_bind; [apply Hb | intros _; exact IH].
Qed.

End Preserves.

(** ** Dispatch *)

Lemma with_calls_nil (st : Clasp) : with_calls (fun l => l ++ []) st = st.
Proof. destruct st. unfold with_calls. cbn. rewrite app_nil_r. reflexivity. Qed.

Lemma with_calls_app (st : Clasp) (A B : list call) :
  with_calls (fun l => l ++ B) (with_calls (fun l => l ++ A) st)
  = with_calls (fun l => l ++ (A ++ B)) st.
Proof. unfold with_calls. cbn. rewrite app_assoc. reflexivity. Qed.

Lemma bind_ok {A B : Type} (m : M A) (k : A -> M B) (st st' : Clasp) (a : A) :
  m st = (Ok a, st') -> (m ≫= k) st = k a st'.
Proof. intros H. unfold mbind, M_bind. rewrite H. reflexivity. Qed.

Lemma bind_raise {A B : Type} (m : M A) (k : A -> M B) (st st' : Clasp) (e : exn) :
  m st = (Raise e, st') -> (m ≫= k) st = (Raise e, st').
Proof. intros H. unfold mbind, M_bind. rewrite H. reflexivity. Qed.

Lemma invoke_error_returns (e : exn) (i : nat) (cb : ErrorCallback) (st : Clasp) :
  cb e = None ->
  invoke_error e i cb st = (Ok (), with_calls (fun l => l ++ [ErrorCalled i e]) st).
Proof. intros H. unfold invoke_error. rewrite H. reflexivity. Qed.

Lemma invoke_returns (sub_id : Z) (cb : SubscriptionCallback) (v : Value) (a : str)
    (st : Clasp) :
  cb v a = None ->
  invoke sub_id cb v a st = (Ok (), with_calls (fun l => l ++ [Called sub_id v a]) st).
Proof. intros H. unfold invoke. rewrite H. reflexivity. Qed.

Lemma invoke_raises (sub_id : Z) (cb : SubscriptionCallback) (v : Value) (a : str)
    (st : Clasp) (e : exn) :
  cb v a = Some e ->
  invoke sub_id cb v a st = (Raise e, with_calls (fun l => l ++ [Called sub_id v a]) st).
Proof. intros H. unfold invoke. rewrite H. reflexivity. Qed.

(** Error callbacks that return are all called, in order. *)
Lemma report_from_returns (e : exn) (cbs : list ErrorCallback) :
  forall (i : nat) (st : Clasp),
    Forall (fun cb => cb e = None) cbs ->
    report_from e i cbs st
    = (Ok (), with_calls (fun l => l ++ ((fun j => ErrorCalled j e) <$> seq i (length cbs))) st).
Proof.
  induction cbs as [|cb cbs IH]; intros i st H.
  - cbn. rewrite with_calls_nil. reflexivity.
  - apply Forall_cons in H as [Hcb H].
    cbn [report_from].
    rewrite (bind_ok _ _ _ _ _ (invoke_error_returns e i cb st Hcb)).
    rewrite (IH (S i) _ H). rewrite with_calls_app. reflexivity.
Qed.

Lemma report_returns (e : exn) (st : Clasp) :
  Forall (fun cb => cb e = None) (_on_error st) ->
  report e st
  = (Ok (), with_calls (fun l => l ++ reported e (length (_on_error st))) st).
Proof.
  intros H. unfold report. rewrite (bind_ok self _ st st st eq_refl).
  apply report_from_returns, H.
Qed.

Lemma notify_loop_returns (address : str) (value : Value)
    (subs : list (Z * (str * SubscriptionCallback))) :
  forall st : Clasp,
    Forall (fun cb => forall e, cb e = None) (_on_error st) ->
    Forall (fun s => forall e, s.2.2 value address = Some e -> is_Exception e = true) subs ->
    for_each subs (fun '(sub_id, (pattern, callback)) =>
      if _match_pattern pattern address then
        try_except (invoke sub_id callback value address) report
      else mret ()) st
    = (Ok (), with_calls (fun l => l ++ dispatch_calls subs (length (_on_error st)) address value) st).
Proof.
  induction subs as [|[sub_id [pattern callback]] subs IH]; intros st He Hs.
  - cbn. rewrite with_calls_nil. reflexivity.
  - apply Forall_cons in Hs as [Hc Hs]. cbn [fst snd] in Hc.
    cbn [for_each dispatch_calls flat_map].
    destruct (_match_pattern pattern address).
    + destruct (callback value address) as [e|] eqn:Ecb.
      * erewrite bind_ok; cycle 1.
        { unfold try_except. rewrite (invoke_raises _ _ _ _ _ _ Ecb).
          rewrite (Hc e eq_refl). apply report_returns.
          eapply Forall_impl; [exact He | intros cb Hcb; apply Hcb]. }
        rewrite IH; [| exact He | exact Hs]. cbn [_on_error with_calls].
        rewrite !with_calls_app. reflexivity.
      * erewrite bind_ok; cycle 1.
        { unfold try_except. rewrite (invoke_returns _ _ _ _ _ Ecb). reflexivity. }
        rewrite IH; [| exact He | exact Hs].
        cbn [_on_error with_calls]. rewrite with_calls_app. reflexivity.
    + erewrite bind_ok by reflexivity. rewrite IH; [| exact He | exact Hs]. reflexivity.
Qed.

(** Whatever the callbacks do, a dispatch changes the object only by
    logging calls that carry the dispatched value and address. *)
Lemma notify_preserves (P : Clasp -> Prop) (address : str) (value : Value) :
  (forall st c, carries address value c -> P st -> P (with_calls (fun l => l ++ [c]) st)) ->
  preserves P (_notify_subscribers address value).
Proof.
  intros HP. unfold _notify_subscribers.
  apply preserves_bind; [apply preserves_self|]. intros st0.
  apply preserves_for_each. intros [sub_id [pattern callback]].
  destruct (_match_pattern pattern address); [|apply preserves_ret].
  apply preserves_try_except.
  - unfold invoke. apply preserves_bind.
    + apply preserves_modify. intros st. apply HP. cbn. auto.
    + intros _. destruct (callback value address);
        [apply preserves_raise | apply preserves_ret].
  - intros e. unfold report. apply preserves_bind; [apply preserves_self|].
    intros st1. generalize 0%nat. induction (_on_error st1) as [|cb cbs IH]; intros i.
    + apply preserves_ret.
    + cbn [report_from]. apply preserves_bind; [|intros _; apply IH].
      unfold invoke_error. apply preserves_bind.
      * apply preserves_modify. intros st. apply HP. exact I.
      * intros _. destruct (cb e); [apply preserves_raise | apply preserves_ret].
Qed.

(** An exception that [except Exception] does not catch leaves the loop. *)
Example base_exception_leaves_dispatch :
  (_notify_subscribers (u "/x") (VInt 3)
     (with_subscriptions
        (fun _ => [(1%Z, (u "/x", fun _ _ => Some (UserExit 0))); (2%Z, (u "/x", returning))])
        connected_client)).1
  = Raise (UserExit 0).
Proof. vm_compute. reflexivity. Qed.

(** ** Point reads *)

(** C7: a read of a cached address returns the cached value at once and
    leaves the object as it was: nothing is sent or scheduled, and the
    cache and the table of pending reads are unchanged. *)
Theorem get_cached_returns_without_sending
    (packb : Value -> res bytes) (st : Clasp) (address : str) (value : Value) :
  _params st !! address = Some value ->
  get_begin packb address st = (Ok (Returned value), st)
  /\ sent (get_begin packb address st).2 = sent st
  /\ tasks (get_begin packb address st).2 = tasks st
  /\ _params (get_begin packb address st).2 = _params st
  /\ _pending_gets (get_begin packb address st).2 = _pending_gets st.
Proof.
  intros H.
  assert (E : get_begin packb address st = (Ok (Returned value), st)).
  { unfold get_begin. rewrite (bind_ok self _ st st st eq_refl). rewrite H. reflexivity. }
  rewrite E. repeat split.
Qed.

Lemma get_cached_returns_without_sending_witness :
  _params client_with_cache !! u "/x" = Some (VInt 3)
  /\ get_begin Msgpack.packb (u "/x") client_with_cache
     = (Ok (Returned (VInt 3)), client_with_cache).
Proof.
  assert (H : _params client_with_cache !! u "/x" = Some (VInt 3))
    by (vm_compute; reflexivity).
  split; [exact H|].
  exact (proj1 (get_cached_returns_without_sending Msgpack.packb _ _ _ H)).
Defined.

Lemma preserves_bind_lift {A B : Type} (P : Clasp -> Prop) (r : res A) (k : A -> M B) :
  (forall a, r = Ok a -> preserves P (k a)) -> preserves P (lift r ≫= k).
Proof.
  intros Hk st H. unfold mbind, M_bind, lift. destruct r as [a|e]; cbn.
  - apply (Hk a eq_refl), H.
  - exact H.
Qed.

Lemma preserves_for_each_in {A : Type} (P : Clasp -> Prop) (xs : list A) (body : A -> M unit) :
  (forall x, In x xs -> preserves P (body x)) -> preserves P (for_each xs body).
Proof.
  induction xs as [|x xs IH]; intros Hb; cbn [for_each].
  - apply preserves_ret.
  - apply preserves_bind; [apply Hb; left; reflexivity|].
    intros _. apply IH. intros y Hy. apply Hb. right. exact Hy.
Qed.

Section Slot.

Context (packb : Value -> res bytes) (address : str) (fut : nat).

Local Abbreviation held := (slot address fut).

Lemma _send_keeps_slot (msg : Msg) : preserves held (_send packb msg).
Proof.
  unfold _send. apply preserves_bind; [apply preserves_self|]. intros st0.
  destruct (negb (_ws st0)); [apply preserves_raise|].
  apply preserves_bind; [apply preserves_lift|]. intros data.
  apply preserves_modify. intros st H. exact H.
Qed.

Lemma notify_keeps_slot (a : str) (v : Value) :
  preserves held (_notify_subscribers a v).
Proof. apply notify_preserves. intros st c _ H. exact H. Qed.

Lemma set_result_keeps_slot (f : nat) (v : Value) : preserves held (set_result f v).
Proof.
  unfold set_result. apply preserves_bind; [apply preserves_self|]. intros st0.
  destruct (futures st0 !! f) as [[| |]|]; try apply preserves_raise.
  apply preserves_modify. intros st H. exact H.
Qed.

Lemma report_keeps_slot (e : exn) : preserves held (report e).
Proof.
  unfold report. apply preserves_bind; [apply preserves_self|]. intros st0.
  generalize 0%nat. induction (_on_error st0) as [|cb cbs IH]; intros i.
  - apply preserves_ret.
  - cbn [report_from]. apply preserves_bind; [|intros _; apply IH].
    unfold invoke_error. apply preserves_bind.
    + apply preserves_modify. intros st H. exact H.
    + intros _. destruct (cb e); [apply preserves_raise | apply preserves_ret].
Qed.

Lemma apply_param_keeps_slot (param : Value) :
  (forall a, py_getitem param (u "address") = Ok a -> eq_str a address = false) ->
  preserves held (apply_param param).
Proof.
  intros Hq. unfold apply_param.
  apply preserves_bind_lift. intros a Ha. specialize (Hq a Ha).
  apply preserves_bind; [apply preserves_lift|]. intros value.
  apply preserves_bind_lift. intros address' Hs.
  assert (Hne : address' <> address).
  { destruct a; try discriminate. injection Hs as ->.
    cbn in Hq. apply bool_decide_eq_false in Hq. exact Hq. }
  apply preserves_bind.
  { apply preserves_modify. intros st H. exact H. }
  intros _. apply preserves_bind; [apply preserves_self|]. intros st0.
  apply preserves_bind; [|intros _; apply notify_keeps_slot].
  destruct (_pending_gets st0 !! address'); [|apply preserves_ret].
  apply preserves_bind; [apply set_result_keeps_slot|]. intros _.
  apply preserves_modify. intros st H. unfold slot in *. cbn.
  rewrite lookup_delete_ne by exact Hne. exact H.
Qed.

(** A message that holds no SNAPSHOT entry for [address] leaves its slot
    in place. *)
Lemma _handle_message_keeps_slot (msg : Value) :
  answers address msg = false -> preserves held (_handle_message msg).
Proof.
  intros Hq. unfold _handle_message.
  apply preserves_bind_lift. intros msg_type Ht.
  destruct (eq_str msg_type (u "SET")).
  { apply preserves_bind; [apply preserves_lift|]. intros a.
    apply preserves_bind; [apply preserves_lift|]. intros value.
    apply preserves_bind; [apply preserves_lift|]. intros address'.
    apply preserves_bind; [|intros _; apply notify_keeps_slot].
    apply preserves_modify. intros st H. exact H. }
  destruct (eq_str msg_type (u "SNAPSHOT")) eqn:Esnap.
  { apply preserves_bind_lift. intros ps Hps.
    apply preserves_bind_lift. intros params Hparams.
    apply preserves_for_each_in. intros param Hin.
    apply apply_param_keeps_slot. intros a Ha.
    unfold answers, snapshot_entries in Hq.
    rewrite Ht, Esnap, Hps in Hq. cbn [res_bind] in Hq. rewrite Hparams in Hq.
    destruct (eq_str a address) eqn:Ea; [|reflexivity].
    assert (Hex : existsb (fun param =>
              match py_getitem param (u "address") with
              | Ok a => eq_str a address
              | Raise _ => false
              end) params = true).
    { apply existsb_exists. exists param. rewrite Ha. auto. }
    congruence. }
  destruct (eq_str msg_type (u "PUBLISH")).
  { apply preserves_bind; [apply preserves_lift|]. intros a.
    apply preserves_bind; [apply preserves_lift|]. intros v.
    apply preserves_bind; [apply preserves_lift|]. intros p.
    apply preserves_bind; [apply preserves_lift|]. intros address'.
    apply notify_keeps_slot. }
  destruct (eq_str msg_type (u "PING")).
  { apply preserves_modify. intros st H. exact H. }
  destruct (eq_str msg_type (u "ERROR")); [|apply preserves_ret].
  apply preserves_bind; [apply preserves_lift|]. intros code.
  apply preserves_bind; [apply preserves_lift|]. intros message.
  apply preserves_modify. intros st H. exact H.
Qed.

Lemma get_begin_keeps_slot (a : str) :
  a <> address -> preserves held (get_begin packb a).
Proof.
  intros Hne. unfold get_begin.
  apply preserves_bind; [apply preserves_self|]. intros st0.
  destruct (_params st0 !! a); [apply preserves_ret|].
  apply preserves_bind.
  { apply preserves_modify. intros st H. exact H. }
  intros _. apply preserves_bind.
  { apply preserves_modify. intros st H. unfold slot in *. cbn.
    rewrite lookup_insert_ne by exact Hne. exact H. }
  intros _. apply preserves_bind; [apply _send_keeps_slot|].
  intros _. apply preserves_ret.
Qed.

Lemma cancel_keeps_slot (f : nat) : preserves held (cancel f).
Proof.
  unfold cancel. apply preserves_bind; [apply preserves_self|]. intros st0.
  destruct (futures st0 !! f) as [[| |]|]; try apply preserves_ret.
  apply preserves_modify. intros st H. exact H.
Qed.

Lemma get_timeout_keeps_slot (a : str) (f : nat) :
  a <> address -> preserves held (get_timeout a f).
Proof.
  intros Hne. unfold get_timeout.
  apply preserves_bind; [apply cancel_keeps_slot|]. intros _.
  apply preserves_bind; [apply preserves_self|]. intros st0.
  destruct (_pending_gets st0 !! a); [|apply preserves_raise].
  apply preserves_bind; [|intros _; apply preserves_raise].
  apply preserves_modify. intros st H. unfold slot in *. cbn.
  rewrite lookup_delete_ne by exact Hne. exact H.
Qed.

Lemma step_keeps_slot (ev : event) (st : Clasp) :
  quiet address ev = true -> held st -> held (step packb ev st).
Proof.
  intros Hq H. destruct ev as [msg|a|a f| |pattern callback|sub_id]; cbn [step quiet] in *.
  - unfold receive. apply preserves_try_except; [| apply report_keeps_slot | exact H].
    apply _handle_message_keeps_slot. apply negb_true_iff. exact Hq.
  - apply get_begin_keeps_slot; [|exact H].
    apply negb_true_iff, bool_decide_eq_false in Hq. exact Hq.
  - apply get_timeout_keeps_slot; [|exact H].
    apply negb_true_iff, bool_decide_eq_false in Hq. exact Hq.
  - destruct (tasks st) as [|msg rest]; [exact H|].
    apply _send_keeps_slot. exact H.
  - revert st H. change (preserves held (subscribe pattern callback [])).
    unfold subscribe. apply preserves_bind; [apply preserves_self|]. intros st0.
    repeat (apply preserves_bind;
            [apply preserves_modify; intros st H; exact H | intros _]).
    apply preserves_ret.
  - revert st H. change (preserves held (unsubscribe sub_id)).
    unfold unsubscribe. apply preserves_bind; [apply preserves_self|]. intros st0.
    destruct (existsb _ _); [|apply preserves_ret].
    apply preserves_bind; [apply preserves_modify; intros st H; exact H | intros _].
    apply preserves_modify. intros st H. exact H.
Qed.

Lemma run_events_keeps_slot (evs : list event) :
  forall st, forallb (quiet address) evs = true -> held st ->
             held (run_events packb evs st).
Proof.
  unfold run_events. induction evs as [|ev evs IH]; intros st Hq H; [exact H|].
  cbn [forallb] in Hq. apply andb_prop in Hq as [Hev Hq].
  cbn [foldl]. apply IH; [exact Hq|]. apply step_keeps_slot; assumption.
Qed.

(** A read that goes to the server registers its future under the
    address. *)
Lemma get_begin_registers (st st1 : Clasp) :
  get_begin packb address st = (Ok (Waiting fut), st1) -> held st1.
Proof.
  unfold get_begin. rewrite (bind_ok self _ st st st eq_refl).
  destruct (_params st !! address); [intros H; inversion H|].
  unfold mbind at 1. unfold M_bind at 1. cbn [modify].
  unfold mbind at 1. unfold M_bind at 1. cbn [modify].
  set (st2 := with_pending_gets _ _).
  unfold mbind, M_bind.
  destruct (_send packb _ st2) as [[[]|e] st3] eqn:Es; cbn; intros H; inversion H.
  subst st3.
  match type of Es with
  | _send _ ?m _ = _ => pose proof (_send_keeps_slot m st2) as H3
  end.
  rewrite Es in H3. rewrite H1. apply H3. unfold slot.
rewrite <- H1. apply lookup_insert_eq.
Qed.

End Slot.

Lemma cancel_returns (f : nat) (st : Clasp) :
  exists st', cancel f st = (Ok (), st') /\ _pending_gets st' = _pending_gets st.
Proof.
  unfold cancel. rewrite (bind_ok self _ st st st eq_refl).
  destruct (futures st !! f) as [[| |]|]; eexists; split; reflexivity.
Qed.

(** C8 as stated fails: the table holds one slot per address.  Of two
    overlapping reads of ["/x"] that nothing answers, the first to time out
    removes the slot and raises the timeout error; the second then finds
    no slot to delete and fails with KeyError instead. *)
Lemma overlapping_get_timeout_raises_KeyError :
  (get_begin Msgpack.packb (u "/x") connected_client).1 = Ok (Waiting 0)
  /\ (get_begin Msgpack.packb (u "/x")
        (get_begin Msgpack.packb (u "/x") connected_client).2).1 = Ok (Waiting 1)
  /\ (get_timeout (u "/x") 0 two_waiting_gets).1 = Raise (ClaspError "Get timeout")
  /\ (get_timeout (u "/x") 1 (get_timeout (u "/x") 0 two_waiting_gets).2).1
     = Raise (KeyError (u "/x")).
Proof. repeat split; vm_compute; reflexivity. Qed.

(** A read on a client without transport fails before it waits, and its
    slot stays behind. *)
Example get_without_transport_leaves_slot :
  (get_begin Msgpack.packb (u "/x") __init__).1 = Raise (ClaspError "Not connected")
  /\ _pending_gets (get_begin Msgpack.packb (u "/x") __init__).2 !! u "/x" = Some 0%nat.
Proof. split; vm_compute; reflexivity. Qed.

(** C8 (amended): a read that went to the server and is waiting, with no
    SNAPSHOT entry for its address handled and no other read of the same
    address started or timed out in the meantime, fails at the timeout
    with the client's "Get timeout" error, and the slot of the address is
    gone afterwards. *)
Theorem get_timeout_raises_and_removes_slot
    (packb : Value -> res bytes) (st st1 : Clasp) (address : str) (fut : nat)
    (evs : list event) :
  get_begin packb address st = (Ok (Waiting fut), st1) ->
  forallb (quiet address) evs = true ->
  exists st',
    get_timeout address fut (run_events packb evs st1)
    = (Raise (ClaspError "Get timeout"), st')
    /\ _pending_gets st' !! address = None.
Proof.
  intros Hb Hq.
  pose proof (run_events_keeps_slot packb address fut evs st1 Hq
                (get_begin_registers packb address fut st st1 Hb)) as Hs.
  set (st2 := run_events packb evs st1) in *.
  destruct (cancel_returns fut st2) as (st3 & Hc & Hp).
  unfold get_timeout. rewrite (bind_ok _ _ _ _ _ Hc).
  rewrite (bind_ok self _ st3 st3 st3 eq_refl). rewrite Hp, Hs.
  eexists. split; [reflexivity|]. cbn. rewrite Hp. apply lookup_delete_eq.
Qed.

Lemma get_timeout_raises_and_removes_slot_witness :
  (get_begin Msgpack.packb (u "/x") connected_client).1 = Ok (Waiting 0)
  /\ forallb (quiet (u "/x")) quiet_events = true
  /\ exists st',
       get_timeout (u "/x") 0
         (run_events Msgpack.packb quiet_events
            (get_begin Msgpack.packb (u "/x") connected_client).2)
       = (Raise (ClaspError "Get timeout"), st')
       /\ _pending_gets st' !! u "/x" = None.
Proof.
  assert (H1 : (get_begin Msgpack.packb (u "/x") connected_client).1 = Ok (Waiting 0))
    by (vm_compute; reflexivity).
  assert (H2 : forallb (quiet (u "/x")) quiet_events = true)
    by (vm_compute; reflexivity).
  split; [exact H1|]. split; [exact H2|].
  apply (get_timeout_raises_and_removes_slot Msgpack.packb connected_client);
    [|exact H2].
  rewrite <- H1. apply surjective_pairing.
Defined.

(** ** Published values *)

(** C10: an inbound PUBLISH whose ["value"] is false in the sense of
    [or] (zero, [False], empty, [None] or absent) is dispatched with its
    ["payload"] field ([None] when there is none): every subscriber the
    message reaches is called with that payload. *)
Theorem publish_falsy_value_delivers_payload
    (items : Msg) (address : str) (st : Clasp) :
  assoc (u "type") items = Some (VStr (u "PUBLISH")) ->
  assoc (u "address") items = Some (VStr address) ->
  truthy (default VNone (assoc (u "value") items)) = false ->
  let payload := default VNone (assoc (u "payload") items) in
  _handle_message (VDict items) st = _notify_subscribers address payload st
  /\ exists new : list call,
       calls (_handle_message (VDict items) st).2 = calls st ++ new
       /\ Forall (carries address payload) new.
Proof.
  intros Ht Ha Hv payload.
  assert (E : _handle_message (VDict items) st = _notify_subscribers address payload st).
  { assert (Hty : py_get (VDict items) (u "type") = Ok (VStr (u "PUBLISH")))
      by (unfold py_get, py_get_default; rewrite Ht; reflexivity).
    assert (Had : py_getitem (VDict items) (u "address") = Ok (VStr address))
      by (unfold py_getitem; rewrite Ha; reflexivity).
    unfold _handle_message. rewrite Hty, Had.
    rewrite (bind_ok (lift (Ok (VStr (u "PUBLISH")))) _ st st _ eq_refl).
    change (eq_str (VStr (u "PUBLISH")) (u "SET")) with false.
    change (eq_str (VStr (u "PUBLISH")) (u "SNAPSHOT")) with false.
    change (eq_str (VStr (u "PUBLISH")) (u "PUBLISH")) with true. cbn iota.
    rewrite (bind_ok (lift (Ok (VStr address))) _ st st _ eq_refl).
    rewrite (bind_ok (lift (py_get (VDict items) (u "value"))) _ st st _ eq_refl).
    rewrite (bind_ok (lift (py_get (VDict items) (u "payload"))) _ st st _ eq_refl).
    rewrite (bind_ok (lift (as_address (VStr address))) _ st st _ eq_refl).
    unfold py_or. rewrite Hv. reflexivity. }
  split; [exact E|]. rewrite E.
  apply (notify_preserves
           (fun st' => exists new, calls st' = calls st ++ new
                                   /\ Forall (carries address payload) new)).
  - intros st' c Hc (new & Hn & Hf). exists (new ++ [c]). split.
    + cbn. rewrite Hn. symmetry. apply app_assoc.
    + apply Forall_app. split; [exact Hf|]. constructor; [exact Hc | constructor].
  - exists []. split; [symmetry; apply app_nil_r | constructor].
Qed.

Lemma publish_falsy_value_delivers_payload_witness :
  truthy (VInt 0) = false
  /\ _handle_message (VDict (stream_sample (u "/sensor/level") (VInt 0) 17)) subscribed_client
     = _notify_subscribers (u "/sensor/level") VNone subscribed_client
  /\ calls (_notify_subscribers (u "/sensor/level") VNone subscribed_client).2
     = [Called 1 VNone (u "/sensor/level")].
Proof.
  split; [reflexivity|]. split; [|vm_compute; reflexivity].
  apply (publish_falsy_value_delivers_payload
           (stream_sample (u "/sensor/level") (VInt 0) 17)); reflexivity.
Defined.

(** * Further properties *)

(** ** Patterns with one wildcard between literal pieces *)

Lemma plain_literal p : plain p = true -> literal p = true.
Proof. unfold plain. intros H. apply andb_prop in H as [H _]. exact H. Qed.

Lemma plain_no_section p :
  plain p = true -> forallb (fun c => negb (c =? Chr.section)) p = true.
Proof. unfold plain. intros H. apply andb_prop in H as [_ H]. exact H. Qed.

Lemma plain_no_star p :
  plain p = true -> forallb (fun c => negb (c =? Chr.star)) p = true.
Proof. intros H. apply literal_no_wildcard, plain_literal, H. Qed.

Lemma no_star_sentinel : forallb (fun c => negb (c =? Chr.star)) sentinel = true.
Proof. reflexivity. Qed.

(** What the three substitutions make of [p ++ "**" ++ s]. *)
Lemma fn_pattern_double_star p s :
  plain p = true -> plain s = true ->
  replace sentinel (u "*")
    (replace (u "*") (u "[^/]*") (replace (u "**") sentinel (p ++ u "**" ++ s)))
  = p ++ Chr.star :: s.
Proof.
  intros Hp Hs.
  assert (E1 : replace (u "**") sentinel (p ++ u "**" ++ s) = p ++ sentinel ++ s).
  { change (u "**") with (Chr.star :: [Chr.star]).
    rewrite (replace_app_without Chr.star) by (apply plain_no_star, Hp).
    f_equal. unfold replace. cbn [app replace_from startswith length Nat.pred].
    change (Chr.star =? Chr.star) with true. cbn [andb].
    fold (replace (Chr.star :: [Chr.star]) sentinel s).
    rewrite replace_absent by (apply (occurs_without Chr.star), plain_no_star, Hs).
    reflexivity. }
  rewrite E1.
  rewrite (replace_absent (u "*")).
  2:{ apply (occurs_without Chr.star). rewrite !forallb_app.
      rewrite (plain_no_star _ Hp), (plain_no_star _ Hs). reflexivity. }
  change sentinel with (Chr.section :: [Chr.section]).
  rewrite (replace_app_without Chr.section) by (apply plain_no_section, Hp).
  f_equal. unfold replace. cbn [app replace_from startswith length Nat.pred].
  change (Chr.section =? Chr.section) with true. cbn [andb].
  fold (replace (Chr.section :: [Chr.section]) (u "*") s).
  rewrite replace_absent by (apply (occurs_without Chr.section), plain_no_section, Hs).
  reflexivity.
Qed.

(** X1: a pattern made of a literal prefix, [**] and a literal suffix
    matches exactly the addresses that start with the prefix and end with
    the suffix after it, whatever lies between, slashes included. *)
Theorem double_star_between_literals (p s A : str) :
  plain p = true -> plain s = true ->
  (_match_pattern (p ++ u "**" ++ s) A = true <-> exists mid, A = p ++ mid ++ s).
Proof.
  intros Hp Hs. unfold _match_pattern, Fnmatch.fnmatch.
  rewrite (fn_pattern_double_star _ _ Hp Hs).
  rewrite (FnmatchFacts.translate_literal_app _ _ (plain_literal _ Hp)).
  change (Fnmatch.translate (Chr.star :: s)) with (Fnmatch.Star :: Fnmatch.translate s).
  rewrite (FnmatchFacts.translate_literal _ (plain_literal _ Hs)).
  rewrite FnmatchFacts.fullmatch_literal_app. split.
  - intros (s' & -> & H). apply FnmatchFacts.fullmatch_star_iff in H as [k H].
    apply FnmatchFacts.fullmatch_literal in H.
    exists (take k s'). rewrite <- H, take_drop. reflexivity.
  - intros [mid ->]. exists (mid ++ s). split; [reflexivity|].
    apply FnmatchFacts.fullmatch_star_iff. exists (length mid).
    rewrite drop_app_length. apply FnmatchFacts.fullmatch_literal. reflexivity.
Qed.

Lemma double_star_between_literals_witness :
  plain (u "/lumen/") = true /\ plain (u "/opacity") = true
  /\ (_match_pattern (u "/lumen/" ++ u "**" ++ u "/opacity") (u "/lumen/layer/0/opacity") = true
      <-> exists mid, u "/lumen/layer/0/opacity" = u "/lumen/" ++ mid ++ u "/opacity").
Proof.
  split; [reflexivity|]. split; [reflexivity|].
  apply double_star_between_literals; reflexivity.
Defined.

Lemma plain_not_startswith_star s :
  plain s = true -> startswith [Chr.star] s = false.
Proof.
  intros H. apply plain_no_star in H. destruct s as [|x s]; [reflexivity|].
  cbn [forallb] in H. apply andb_prop in H as [H _].
  apply startswith_head. intros ->. discriminate.
Qed.

Lemma replace_from_cons old new c s :
  replace_from old new O (c :: s) =
  if startswith old (c :: s)
  then new ++ replace_from old new (Nat.pred (length old)) s
  else c :: replace_from old new O s.
Proof. reflexivity. Qed.

Lemma startswith_cons a p b s :
  startswith (a :: p) (b :: s) = (a =? b) && startswith p s.
Proof. reflexivity. Qed.

(** What the three substitutions make of [p ++ "*" ++ s]. *)
Lemma fn_pattern_single_star p s :
  plain p = true -> plain s = true ->
  replace sentinel (u "*")
    (replace (u "*") (u "[^/]*") (replace (u "**") sentinel (p ++ u "*" ++ s)))
  = p ++ u "[^/]*" ++ s.
Proof.
  intros Hp Hs.
  assert (E1 : replace (u "**") sentinel (p ++ u "*" ++ s) = p ++ u "*" ++ s).
  { change (u "**") with (Chr.star :: [Chr.star]).
    rewrite (replace_app_without Chr.star) by (apply plain_no_star, Hp).
    f_equal. unfold replace. change (u "*" ++ s) with (Chr.star :: s).
    rewrite replace_from_cons, startswith_cons.
    rewrite (plain_not_startswith_star _ Hs), andb_false_r.
    fold (replace (Chr.star :: [Chr.star]) sentinel s).
    rewrite replace_absent by (apply (occurs_without Chr.star), plain_no_star, Hs).
    reflexivity. }
  rewrite E1.
  assert (E2 : replace (u "*") (u "[^/]*") (p ++ u "*" ++ s) = p ++ u "[^/]*" ++ s).
  { change (u "*") with (Chr.star :: []).
    rewrite (replace_app_without Chr.star) by (apply plain_no_star, Hp).
    f_equal. unfold replace. cbn [app replace_from startswith length Nat.pred].
    change (Chr.star =? Chr.star) with true. cbn [andb].
    fold (replace (Chr.star :: []) (u "[^/]*") s).
    rewrite replace_absent by (apply (occurs_without Chr.star), plain_no_star, Hs).
    reflexivity. }
  rewrite E2.
  apply replace_absent. apply (occurs_without Chr.section).
  rewrite !forallb_app. rewrite (plain_no_section _ Hp), (plain_no_section _ Hs).
  reflexivity.
Qed.

(** X2: a pattern made of a literal prefix, [*] and a literal suffix
    matches exactly the addresses in which the prefix is followed by a
    ['^'] or a ['/'], then by anything, then by the suffix: the wildcard
    does not match an ordinary segment, and it does run across slashes. *)
Theorem single_star_between_literals (p s A : str) :
  plain p = true -> plain s = true ->
  (_match_pattern (p ++ u "*" ++ s) A = true <->
   exists c mid, (c = Chr.caret \/ c = Chr.slash) /\ A = p ++ c :: mid ++ s).
Proof.
  intros Hp Hs. unfold _match_pattern, Fnmatch.fnmatch.
  rewrite (fn_pattern_single_star _ _ Hp Hs).
  rewrite (FnmatchFacts.translate_literal_app _ _ (plain_literal _ Hp)).
  change (Fnmatch.translate (u "[^/]*" ++ s)) with
    (Fnmatch.CharSet false [Fnmatch.Single Chr.caret; Fnmatch.Single Chr.slash]
       :: Fnmatch.Star :: Fnmatch.translate s).
  rewrite (FnmatchFacts.translate_literal _ (plain_literal _ Hs)).
  rewrite FnmatchFacts.fullmatch_literal_app. split.
  - intros (s' & -> & H).
    rewrite FnmatchFacts.fullmatch_cons in H by discriminate.
    destruct s' as [|c s']; [discriminate|].
    apply andb_prop in H as [Hc H].
    apply FnmatchFacts.fullmatch_star_iff in H as [k H].
    apply FnmatchFacts.fullmatch_literal in H.
    exists c, (take k s'). split.
    + cbn in Hc. rewrite orb_false_r in Hc. apply orb_prop in Hc.
      destruct Hc as [Hc | Hc]; apply N.eqb_eq in Hc; auto.
    + rewrite <- H, take_drop. reflexivity.
  - intros (c & mid & Hc & ->). exists (c :: mid ++ s). split; [reflexivity|].
    rewrite FnmatchFacts.fullmatch_cons by discriminate.
    apply andb_true_intro. split.
    + destruct Hc as [-> | ->]; reflexivity.
    + apply FnmatchFacts.fullmatch_star_iff. exists (length mid).
      rewrite drop_app_length. apply FnmatchFacts.fullmatch_literal. reflexivity.
Qed.

Lemma single_star_between_literals_witness :
  plain (u "/lumen/layer/") = true /\ plain (u "/opacity") = true
  /\ (_match_pattern (u "/lumen/layer/" ++ u "*" ++ u "/opacity")
        (u "/lumen/layer/0/opacity") = true
      <-> exists c mid, (c = Chr.caret \/ c = Chr.slash)
            /\ u "/lumen/layer/0/opacity" = u "/lumen/layer/" ++ c :: mid ++ u "/opacity").
Proof.
  split; [reflexivity|]. split; [reflexivity|].
  apply single_star_between_literals; reflexivity.
Defined.

(** ** Frames as the decoder reads them *)

Lemma byte_to_Z_bounded (b : byte) : (0 <= Z.of_N (Byte.to_N b) < 256)%Z.
Proof. pose proof (Byte.to_N_bounded b). lia. Qed.

(** A buffer that starts with the magic byte and has a full header is
    read as: flags, declared length, payload at offset 4 or 12. *)
Lemma _decode_header (unpackb : bytes -> res Value) (flags hi lo : byte) (rest : bytes) :
  _decode unpackb (Byte.x53 :: flags :: hi :: lo :: rest)
  = unpackb (take (Z.to_nat (Z.of_N (Byte.to_N hi) * 256 + Z.of_N (Byte.to_N lo)))
                  (drop (if (Z.land (Z.of_N (Byte.to_N flags)) 0x20 =? 0)%Z
                         then 0 else 8)%nat rest)).
Proof.
  unfold _decode.
  assert (Hl : (len (Byte.x53 :: flags :: hi :: lo :: rest) <? 4)%Z = false).
  { apply Z.ltb_ge. unfold len. cbn [length]. lia. }
  rewrite Hl. change (byte_at (Byte.x53 :: _) 0) with 0x53%Z.
  change (byte_at (_ :: flags :: _) 1) with (Z.of_N (Byte.to_N flags)).
  change (byte_at (_ :: _ :: hi :: _) 2) with (Z.of_N (Byte.to_N hi)).
  change (byte_at (_ :: _ :: _ :: lo :: _) 3) with (Z.of_N (Byte.to_N lo)).
  change (0x53 =? 0x53)%Z with true. cbn [orb negb].
  rewrite lor_shiftl_8
    by (pose proof (byte_to_Z_bounded hi); pose proof (byte_to_Z_bounded lo); lia).
  unfold slice. f_equal.
  destruct (Z.land (Z.of_N (Byte.to_N flags)) 32 =? 0)%Z; cbn [negb].
  - f_equal. lia.
  - f_equal. lia.
Qed.

(** X3: the decoder reads the payload the header declares: after the
    four header bytes it steps over an eight-byte timestamp exactly when
    bit 0x20 of the flags is set, hands the declared number of bytes to the
    deserializer, and ignores the other flag bits and any bytes after the
    payload. *)
Theorem decode_reads_declared_payload
    (unpackb : bytes -> res Value) (flags hi lo : byte) (ts payload extra : bytes) :
  len payload = (Z.of_N (Byte.to_N hi) * 256 + Z.of_N (Byte.to_N lo))%Z ->
  length ts = (if (Z.land (Z.of_N (Byte.to_N flags)) 0x20 =? 0)%Z then 0 else 8)%nat ->
  _decode unpackb (Byte.x53 :: flags :: hi :: lo :: ts ++ payload ++ extra)
  = unpackb payload.
Proof.
  intros Hlen Hts. rewrite _decode_header. rewrite <- Hlen, <- Hts.
  rewrite drop_app_length. unfold len. rewrite Nat2Z.id, take_app_length.
  reflexivity.
Qed.

Lemma decode_reads_declared_payload_witness :
  _decode Msgpack.unpackb
    (Byte.x53 :: Byte.x26 :: Byte.x00 :: Byte.x02
       :: [Byte.x00; Byte.x00; Byte.x00; Byte.x00; Byte.x00; Byte.x00; Byte.x00; Byte.x2a]
       ++ [Byte.xcc; Byte.xff] ++ [Byte.xc0; Byte.xc0])
  = Msgpack.unpackb [Byte.xcc; Byte.xff]
  /\ Msgpack.unpackb [Byte.xcc; Byte.xff] = Ok (VInt 255).
Proof.
  split; [|reflexivity].
  apply decode_reads_declared_payload; reflexivity.
Defined.

(** X4: what the decoder makes of an encoded frame, for a payload of any
    length: it hands the deserializer the first (length mod 65536) bytes of
    the payload.  Up to 65535 bytes that is the whole payload; beyond, a
    proper prefix. *)
Theorem decode_of_encode_sees_wrapped_prefix
    (packb : Value -> res bytes) (unpackb : bytes -> res Value)
    (msg : Msg) (payload : bytes) :
  packb (VDict msg) = Ok payload ->
  res_bind (_encode packb msg) (_decode unpackb)
  = unpackb (take (Z.to_nat (len payload mod 65536)) payload).
Proof.
  intros Hp. destruct (_encode_frame packb msg payload Hp) as (hi & lo & -> & Hhi & Hlo).
  cbn [res_bind]. rewrite _decode_header, Hhi, Hlo.
  change (Z.land (Z.of_N (Byte.to_N Byte.x00)) 32 =? 0)%Z with true. cbn [drop].
  assert (Hnn : (0 <= len payload)%Z) by (unfold len; lia).
  do 2 f_equal. change 65536%Z with (256 * 256)%Z.
  rewrite Z.rem_mul_r by lia. lia.
Qed.

Lemma decode_of_encode_sees_wrapped_prefix_witness :
  res_bind (_encode Msgpack.packb set_long_text) (_decode Msgpack.unpackb)
  = Msgpack.unpackb (take (Z.to_nat (len long_text_payload mod 65536)) long_text_payload).
Proof. exact (decode_of_encode_sees_wrapped_prefix _ _ _ _ long_text_packed). Defined.

(** ** The receive loop and the cache *)

Lemma report_preserves (P : Clasp -> Prop) (e : exn) :
  (forall st c, P st -> P (with_calls (fun l => l ++ [c]) st)) ->
  preserves P (report e).
Proof.
  intros HP. unfold report. apply preserves_bind; [apply preserves_self|]. intros st0.
  generalize 0%nat. induction (_on_error st0) as [|cb cbs IH]; intros i.
  - apply preserves_ret.
  - cbn [report_from]. apply preserves_bind; [|intros _; apply IH].
    unfold invoke_error. apply preserves_bind.
    + apply preserves_modify. intros st. apply HP.
    + intros _. destruct (cb e); [apply preserves_raise | apply preserves_ret].
Qed.


(** The handler on a SET with its two fields. *)
Lemma _handle_message_SET (items : Msg) (address : str) (value : Value) (st : Clasp) :
  assoc (u "type") items = Some (VStr (u "SET")) ->
  assoc (u "address") items = Some (VStr address) ->
  assoc (u "value") items = Some value ->
  _handle_message (VDict items) st
  = _notify_subscribers address value
      (with_params (fun m => <[address := value]> m) st).
Proof.
  intros Ht Ha Hv.
  assert (Hty : py_get (VDict items) (u "type") = Ok (VStr (u "SET")))
    by (unfold py_get, py_get_default; rewrite Ht; reflexivity).
  assert (Had : py_getitem (VDict items) (u "address") = Ok (VStr address))
    by (unfold py_getitem; rewrite Ha; reflexivity).
  assert (Hva : py_getitem (VDict items) (u "value") = Ok value)
    by (unfold py_getitem; rewrite Hv; reflexivity).
  unfold _handle_message. rewrite Hty, Had, Hva.
  rewrite (bind_ok (lift (Ok (VStr (u "SET")))) _ st st _ eq_refl).
  change (eq_str (VStr (u "SET")) (u "SET")) with true. cbn iota.
  rewrite (bind_ok (lift (Ok (VStr address))) _ st st _ eq_refl).
  rewrite (bind_ok (lift (Ok value)) _ st st _ eq_refl).
  rewrite (bind_ok (lift (as_address (VStr address))) _ st st _ eq_refl).
  erewrite bind_ok by reflexivity. reflexivity.
Qed.

(** The receive loop on a SET: the value is in the cache afterwards,
    whatever the callbacks did. *)
Lemma receive_SET_caches (items : Msg) (address : str) (value : Value) (st : Clasp) :
  assoc (u "type") items = Some (VStr (u "SET")) ->
  assoc (u "address") items = Some (VStr address) ->
  assoc (u "value") items = Some value ->
  _params (receive (VDict items) st).2 !! address = Some value.
Proof.
  intros Ht Ha Hv. unfold receive, try_except.
  rewrite (_handle_message_SET _ _ _ _ Ht Ha Hv).
  set (st1 := with_params _ st).
  assert (H1 : _params st1 !! address = Some value) by apply lookup_insert_eq.
  pose proof (notify_preserves (fun s => _params s !! address = Some value)
                address value (fun s c _ Hs => Hs) st1 H1) as H2.
  destruct (_notify_subscribers address value st1) as [[[]|e] st2]; cbn [snd] in *.
  - exact H2.
  - destruct (is_Exception e); [|exact H2].
    apply (report_preserves (fun s => _params s !! address = Some value) e
             (fun s c Hs => Hs) st2 H2).
Qed.

(** X5: an inbound SET is cached before any subscriber runs.  Whatever
    the callbacks do, after the receive loop has handled it the cache holds
    the value, and a read of the address returns it at once, leaving the
    object as it is. *)
Theorem received_set_is_cached
    (packb : Value -> res bytes) (items : Msg) (address : str) (value : Value)
    (st : Clasp) :
  assoc (u "type") items = Some (VStr (u "SET")) ->
  assoc (u "address") items = Some (VStr address) ->
  assoc (u "value") items = Some value ->
  let st' := (receive (VDict items) st).2 in
  cached address st' = value
  /\ get_begin packb address st' = (Ok (Returned value), st').
Proof.
  intros Ht Ha Hv st'.
  pose proof (receive_SET_caches items address value st Ht Ha Hv) as H.
  split; [unfold cached; subst st'; rewrite H; reflexivity|].
  unfold get_begin. rewrite (bind_ok self _ st' st' st' eq_refl).
  subst st'. rewrite H. reflexivity.
Qed.

Lemma received_set_is_cached_witness :
  cached (u "/x") (receive (VDict (set_message (u "/x") (VInt 7)))
                     client_with_raising_error_callback).2 = VInt 7
  /\ get_begin Msgpack.packb (u "/x")
       (receive (VDict (set_message (u "/x") (VInt 7))) client_with_raising_error_callback).2
     = (Ok (Returned (VInt 7)),
        (receive (VDict (set_message (u "/x") (VInt 7))) client_with_raising_error_callback).2).
Proof.
  apply (received_set_is_cached Msgpack.packb (set_message (u "/x") (VInt 7)));
    reflexivity.
Defined.



(** ** A read answered by a SNAPSHOT *)

Lemma _send_preserves (packb : Value -> res bytes) (P : Clasp -> Prop) (msg : Msg) :
  (forall st f, P st -> P (with_sent f st)) -> preserves P (_send packb msg).
Proof.
  intros HP. unfold _send. apply preserves_bind; [apply preserves_self|]. intros st0.
  destruct (negb (_ws st0)); [apply preserves_raise|].
  apply preserves_bind; [apply preserves_lift|]. intros data.
  apply preserves_modify. intros st. apply HP.
Qed.

(** A read that goes to the server waits on a fresh pending future. *)
Lemma get_begin_pending (packb : Value -> res bytes) (address : str) (fut : nat)
    (st st1 : Clasp) :
  get_begin packb address st = (Ok (Waiting fut), st1) ->
  futures st1 !! fut = Some Pending.
Proof.
  unfold get_begin. rewrite (bind_ok self _ st st st eq_refl).
  destruct (_params st !! address); [intros H; inversion H|].
  unfold mbind at 1. unfold M_bind at 1. cbn [modify].
  unfold mbind at 1. unfold M_bind at 1. cbn [modify].
  set (st2 := with_pending_gets _ _).
  unfold mbind, M_bind.
  destruct (_send packb _ st2) as [[[]|e] st3] eqn:Es; cbn; intros H; inversion H.
  subst st3.
  match type of Es with
  | _send _ ?m _ = _ =>
      pose proof (_send_preserves packb
                    (fun s => futures s !! length (futures st) = Some Pending) m
                    (fun s f Hs => Hs) st2) as H3
  end.
  rewrite Es in H3. apply H3. subst st2. cbn.
  rewrite lookup_app_r by reflexivity. rewrite Nat.sub_diag. reflexivity.
Qed.

(** One SNAPSHOT entry for an address whose slot holds a pending future:
    cache, future and slot are settled before the subscribers run. *)
Lemma apply_param_resolves (address : str) (value : Value) (fut : nat) (st : Clasp) :
  _pending_gets st !! address = Some fut ->
  futures st !! fut = Some Pending ->
  apply_param (VDict [(u "address", VStr address); (u "value", value)]) st
  = _notify_subscribers address value
      (with_pending_gets (fun m => delete address m)
         (with_futures (fun fs => <[fut := Done value]> fs)
            (with_params (fun m => <[address := value]> m) st))).
Proof.
  intros Hs Hf. unfold apply_param.
  set (param := VDict [(u "address", VStr address); (u "value", value)]).
  rewrite (bind_ok (lift (py_getitem param (u "address"))) _ st st (VStr address) eq_refl).
  rewrite (bind_ok (lift (py_getitem param (u "value"))) _ st st value eq_refl).
  rewrite (bind_ok (lift (as_address (VStr address))) _ st st address eq_refl).
  set (st1 := with_params (fun m => <[address := value]> m) st).
  rewrite (bind_ok (modify (with_params (fun m => <[address := value]> m))) _ st st1 ()
             eq_refl).
  rewrite (bind_ok self _ st1 st1 st1 eq_refl).
  change (_pending_gets st1) with (_pending_gets st). rewrite Hs.
  set (st3 := with_pending_gets _ _).
  assert (E : set_result fut value st1
              = (Ok (), with_futures (fun fs => <[fut := Done value]> fs) st1)).
  { unfold set_result. rewrite (bind_ok self _ st1 st1 st1 eq_refl).
    change (futures st1) with (futures st). rewrite Hf. reflexivity. }
  assert (E2 : (set_result fut value ;;
                modify (with_pending_gets (fun m => delete address m))) st1
               = (Ok (), st3)).
  { rewrite (bind_ok _ _ _ _ _ E). reflexivity. }
  rewrite (bind_ok _ _ _ _ _ E2). reflexivity.
Qed.

(** X7: a waiting read is answered by the SNAPSHOT for its address.  Once
    the receive loop has handled the one-entry SNAPSHOT, whatever the
    subscribers do, the read resumes with the value, the slot is gone and
    the value is cached. *)
Theorem waiting_get_is_answered_by_snapshot
    (packb : Value -> res bytes) (address : str) (value : Value) (fut : nat)
    (st st1 : Clasp) :
  get_begin packb address st = (Ok (Waiting fut), st1) ->
  let st2 := (receive (snapshot_reply address value) st1).2 in
  get_resume fut st2 = (Ok value, st2)
  /\ _pending_gets st2 !! address = None
  /\ _params st2 !! address = Some value.
Proof.
  intros Hb st2.
  pose proof (get_begin_registers packb address fut st st1 Hb) as Hs.
  pose proof (get_begin_pending packb address fut st st1 Hb) as Hf.
  unfold slot in Hs.
  set (P := fun s : Clasp =>
              futures s !! fut = Some (Done value)
              /\ _pending_gets s !! address = None
              /\ _params s !! address = Some value).
  assert (HP : forall s c, P s -> P (with_calls (fun l => l ++ [c]) s))
    by (intros s c H; exact H).
  assert (E : _handle_message (snapshot_reply address value) st1
              = (apply_param (VDict [(u "address", VStr address); (u "value", value)])
                   ;; mret ()) st1).
  { unfold _handle_message, snapshot_reply.
    set (msg := VDict _).
    rewrite (bind_ok (lift (py_get msg (u "type"))) _ st1 st1
               (VStr (u "SNAPSHOT")) eq_refl).
    change (eq_str (VStr (u "SNAPSHOT")) (u "SET")) with false.
    change (eq_str (VStr (u "SNAPSHOT")) (u "SNAPSHOT")) with true. cbn iota.
    set (entry := VDict [(u "address", VStr address); (u "value", value)]).
    rewrite (bind_ok (lift (py_get_default msg (u "params") (VList []))) _ st1 st1
               (VList [entry]) eq_refl).
    rewrite (bind_ok (lift (py_iter (VList [entry]))) _ st1 st1 [entry] eq_refl).
    reflexivity. }
  assert (H2 : P st2).
  { subst st2. unfold receive, try_except. rewrite E.
    unfold mbind at 1. unfold M_bind at 1.
    rewrite (apply_param_resolves _ _ _ _ Hs Hf).
    set (st3 := with_pending_gets _ _).
    assert (H3 : P st3).
    { subst st3 P. cbn. split; [|split].
      - apply list_lookup_insert_eq. apply lookup_lt_Some in Hf. exact Hf.
      - apply lookup_delete_eq.
      - apply lookup_insert_eq. }
    pose proof (notify_preserves P address value (fun s c _ => HP s c) st3 H3) as H4.
    destruct (_notify_subscribers address value st3) as [[[]|e] st4]; cbn [snd] in *.
    - exact H4.
    - destruct (is_Exception e); [|exact H4].
      apply (report_preserves P e HP st4 H4). }
  destruct H2 as (Hd & Hn & Hc). split; [|split; assumption].
  unfold get_resume. rewrite (bind_ok self _ st2 st2 st2 eq_refl). rewrite Hd.
  reflexivity.
Qed.

Lemma waiting_get_is_answered_by_snapshot_witness :
  (get_begin Msgpack.packb (u "/x") connected_client).1 = Ok (Waiting 0)
  /\ let st2 := (receive (snapshot_reply (u "/x") (VInt 5))
                   (get_begin Msgpack.packb (u "/x") connected_client).2).2 in
     get_resume 0 st2 = (Ok (VInt 5), st2)
     /\ _pending_gets st2 !! u "/x" = None
     /\ _params st2 !! u "/x" = Some (VInt 5).
Proof.
  assert (H1 : (get_begin Msgpack.packb (u "/x") connected_client).1 = Ok (Waiting 0))
    by (vm_compute; reflexivity).
  split; [exact H1|].
  apply (waiting_get_is_answered_by_snapshot Msgpack.packb (u "/x") (VInt 5) 0
           connected_client).
  rewrite <- H1. apply surjective_pairing.
Defined.

(** ** Subscriptions *)

Lemma report_logs_errors (P : Clasp -> Prop) (e : exn) :
  (forall st i, P st -> P (with_calls (fun l => l ++ [ErrorCalled i e]) st)) ->
  preserves P (report e).
Proof.
  intros HP. unfold report. apply preserves_bind; [apply preserves_self|]. intros st0.
  generalize 0%nat. induction (_on_error st0) as [|cb cbs IH]; intros i.
  - apply preserves_ret.
  - cbn [report_from]. apply preserves_bind; [|intros _; apply IH].
    unfold invoke_error. apply preserves_bind.
    + apply preserves_modify. intros st. apply HP.
    + intros _. destruct (cb e); [apply preserves_raise | apply preserves_ret].
Qed.

(** The loop of a dispatch over any list of subscriptions changes the
    object only by logging calls of those subscriptions. *)
Lemma notify_loop_preserves (P : Clasp -> Prop) (address : str) (value : Value)
    (subs : list (Z * (str * SubscriptionCallback))) :
  (forall st c, logged_by (fst <$> subs) address value c -> P st ->
                P (with_calls (fun l => l ++ [c]) st)) ->
  preserves P
    (for_each subs (fun '(sub_id, (pattern, callback)) =>
       if _match_pattern pattern address then
         try_except (invoke sub_id callback value address) report
       else mret ())).
Proof.
  intros HP. apply preserves_for_each_in. intros [sub_id [pattern callback]] Hin.
  destruct (_match_pattern pattern address); [|apply preserves_ret].
  apply preserves_try_except.
  - unfold invoke. apply preserves_bind.
    + apply preserves_modify. intros st. apply HP. cbn. split; [reflexivity|].
      split; [reflexivity|]. apply list_elem_of_In in Hin.
      apply (list_elem_of_fmap_2 fst) in Hin. exact Hin.
    + intros _. destruct (callback value address);
        [apply preserves_raise | apply preserves_ret].
  - intros e. apply report_logs_errors. intros st i. apply HP. exact I.
Qed.

Lemma preserves_bind_self {B : Type} (P : Clasp -> Prop) (k : Clasp -> M B) :
  (forall st, P st -> P (k st st).2) -> preserves P (self ≫= k).
Proof. intros Hk st H. rewrite (bind_ok self _ st st st eq_refl). apply Hk, H. Qed.

(** What the handler does to a property of the object that depends on
    the subscriptions, the id counter and the call log only: nothing but
    what its dispatches and error reports do. *)
Lemma _handle_message_frame (P : Clasp -> Prop) (msg : Value) :
  (forall st st', _subscriptions st' = _subscriptions st ->
                  _next_sub_id st' = _next_sub_id st ->
                  calls st' = calls st -> P st -> P st') ->
  (forall a v, preserves P (_notify_subscribers a v)) ->
  preserves P (_handle_message msg).
Proof.
  intros HD HN.
  assert (Hset : forall (A : Type) (r : res A), preserves P (lift r))
    by (intros; apply preserves_lift).
  unfold _handle_message.
  apply preserves_bind; [apply Hset|]. intros msg_type.
  destruct (eq_str msg_type (u "SET")).
  { apply preserves_bind; [apply Hset|]. intros a.
    apply preserves_bind; [apply Hset|]. intros value.
    apply preserves_bind; [apply Hset|]. intros address.
    apply preserves_bind; [|intros _; apply HN].
    apply preserves_modify. intros st. apply HD; reflexivity. }
  destruct (eq_str msg_type (u "SNAPSHOT")).
  { apply preserves_bind; [apply Hset|]. intros ps.
    apply preserves_bind; [apply Hset|]. intros params.
    apply preserves_for_each. intros param. unfold apply_param.
    apply preserves_bind; [apply Hset|]. intros a.
    apply preserves_bind; [apply Hset|]. intros value.
    apply preserves_bind; [apply Hset|]. intros address.
    apply preserves_bind.
    { apply preserves_modify. intros st. apply HD; reflexivity. }
    intros _. apply preserves_bind; [apply preserves_self|]. intros st0.
    apply preserves_bind; [|intros _; apply HN].
    destruct (_pending_gets st0 !! address) as [fut|]; [|apply preserves_ret].
    apply preserves_bind.
    - unfold set_result. apply preserves_bind; [apply preserves_self|]. intros st1.
      destruct (futures st1 !! fut) as [[| |]|]; try apply preserves_raise.
      apply preserves_modify. intros st. apply HD; reflexivity.
    - intros _. apply preserves_modify. intros st. apply HD; reflexivity. }
  destruct (eq_str msg_type (u "PUBLISH")).
  { apply preserves_bind; [apply Hset|]. intros a.
    apply preserves_bind; [apply Hset|]. intros v.
    apply preserves_bind; [apply Hset|]. intros p.
    apply preserves_bind; [apply Hset|]. intros address.
    apply HN. }
  destruct (eq_str msg_type (u "PING")).
  { apply preserves_modify. intros st. apply HD; reflexivity. }
  destruct (eq_str msg_type (u "ERROR")); [|apply preserves_ret].
  apply preserves_bind; [apply Hset|]. intros code.
  apply preserves_bind; [apply Hset|]. intros message.
  apply preserves_modify. intros st. apply HD; reflexivity.
Qed.


Lemma unsubscribe_returns (sub_id : Z) (st : Clasp) :
  unsubscribe sub_id st
  = (Ok (),
     if existsb (fun s => (s.1 =? sub_id)%Z) (_subscriptions st)
     then with_tasks (fun l => l ++
            [[ (u "type", VStr (u "UNSUBSCRIBE")); (u "id", VInt sub_id) ]])
            (with_subscriptions (filter (fun s => s.1 ≠ sub_id)) st)
     else st).
Proof.
  unfold unsubscribe. rewrite (bind_ok self _ st st st eq_refl).
  destruct (existsb _ _); reflexivity.
Qed.











(** One subscriber's turn in a dispatch logs its call, whether it returns
    or raises. *)
Lemma turn_logs_call (sub_id : Z) (callback : SubscriptionCallback)
    (value : Value) (address : str) (st : Clasp) :
  Called sub_id value address
  ∈ calls (try_except (invoke sub_id callback value address) report st).2.
Proof.
  set (c := Called sub_id value address).
  assert (HP : forall s c', c ∈ calls s -> c ∈ calls (with_calls (fun l => l ++ [c']) s))
    by (intros s c' H; cbn; apply elem_of_app; left; exact H).
  assert (H0 : c ∈ calls (with_calls (fun l => l ++ [c]) st))
    by (cbn; apply elem_of_app; right; apply list_elem_of_singleton; reflexivity).
  unfold try_except. destruct (callback value address) as [e|] eqn:E.
  - rewrite (invoke_raises _ _ _ _ _ _ E). destruct (is_Exception e); [|exact H0].
    apply (report_preserves (fun s => c ∈ calls s) e HP _ H0).
  - rewrite (invoke_returns _ _ _ _ _ E). exact H0.
Qed.

Lemma notify_loop_calls_matches (address : str) (value : Value)
    (sub_id : Z) (pattern : str) (callback : SubscriptionCallback)
    (subs : list (Z * (str * SubscriptionCallback))) :
  forall st : Clasp,
    let loop := for_each subs (fun '(sub_id, (pattern, callback)) =>
                  if _match_pattern pattern address then
                    try_except (invoke sub_id callback value address) report
                  else mret ()) in
    (loop st).1 = Ok () ->
    (sub_id, (pattern, callback)) ∈ subs ->
    _match_pattern pattern address = true ->
    Called sub_id value address ∈ calls (loop st).2.
Proof.
  induction subs as [|[i [p cb]] subs IH]; intros st loop Hok Hin Hm.
  - apply elem_of_nil in Hin. contradiction.
  - subst loop. cbn [for_each] in *. unfold mbind, M_bind in *.
    destruct ((if _match_pattern p address
               then try_except (invoke i cb value address) report
               else mret ()) st) as [[[]|e] st1] eqn:E; [|discriminate Hok].
    apply elem_of_cons in Hin as [Hin | Hin].
    + injection Hin as <- <- <-. rewrite Hm in E.
      pose proof (turn_logs_call sub_id callback value address st) as Hc.
      rewrite E in Hc. cbn [snd] in Hc.
      apply (notify_loop_preserves
               (fun s => Called sub_id value address ∈ calls s) address value subs);
        [|exact Hc].
      intros s c _ H. cbn. apply elem_of_app. left. exact H.
    + apply IH; assumption.
Qed.

(** *** The loop over the live dict

    Callbacks that make no call to the client leave the loop what
    [_notify_subscribers] is. *)
Lemma live_invoke_quiet reach sub_id callback value address st :
  of_subscriber reach sub_id value address = [] ->
  live_invoke reach sub_id callback value address st
  = invoke sub_id callback value address st.
Proof. intros H. unfold live_invoke, invoke. rewrite H. reflexivity. Qed.

Lemma invoke_error_keeps_on_error (e : exn) (i : nat) (cb : ErrorCallback) (st : Clasp) :
  _on_error (invoke_error e i cb st).2 = _on_error st.
Proof. unfold invoke_error, mbind, M_bind. cbn. destruct (cb e); reflexivity. Qed.

Lemma live_report_quiet reach (fuel : nat) (e : exn) (cbs : list ErrorCallback) :
  (forall i e, of_error_callback reach i e = []) ->
  forall (seen : list ErrorCallback) (st : Clasp),
    _on_error st = seen ++ cbs -> (length cbs < fuel)%nat ->
    live_report_at reach fuel e (length seen) st
    = Some (report_from e (length seen) cbs st).
Proof.
  intros H. revert fuel. induction cbs as [|cb cbs IH]; intros fuel seen st Hl Hf.
  all: destruct fuel as [|fuel]; [cbn in Hf; lia|]; cbn [live_report_at].
  - rewrite Hl, app_nil_r, lookup_ge_None_2 by lia. reflexivity.
  - rewrite Hl, lookup_app_r, Nat.sub_diag by lia. cbn [lookup list_lookup].
    assert (E : live_invoke_error reach e (length seen) cb st
                = invoke_error e (length seen) cb st)
      by (unfold live_invoke_error, invoke_error; rewrite H; reflexivity).
    rewrite E. cbn [report_from]. unfold mbind at 1, M_bind at 1.
    pose proof (invoke_error_keeps_on_error e (length seen) cb st) as Hk.
    destruct (invoke_error e (length seen) cb st) as [[[]|e'] st1]; [|reflexivity].
    cbn [snd] in Hk.
    replace (S (length seen)) with (length (seen ++ [cb]))
      by (rewrite length_app; cbn; lia).
    apply IH; [|cbn in Hf; lia]. rewrite Hk, Hl, <- app_assoc. reflexivity.
Qed.

Lemma turn_keeps_registries sub_id callback value address st :
  let st' := (try_except (invoke sub_id callback value address) report st).2 in
  _subscriptions st' = _subscriptions st /\ _on_error st' = _on_error st.
Proof.
  refine (preserves_try_except
            (fun s => _subscriptions s = _subscriptions st /\ _on_error s = _on_error st)
            _ _ _ _ st (conj eq_refl eq_refl)).
  - unfold invoke. apply preserves_bind.
    + apply preserves_modify. intros s Hs. exact Hs.
    + intros _. destruct (callback value address);
        [apply preserves_raise | apply preserves_ret].
  - intros e. apply report_preserves. intros s c Hs. exact Hs.
Qed.

Lemma live_turn_quiet reach (fuel : nat) sub_id callback value address st :
  of_subscriber reach sub_id value address = [] ->
  (forall i e, of_error_callback reach i e = []) ->
  (length (_on_error st) < fuel)%nat ->
  live_turn reach fuel sub_id callback value address st
  = Some (try_except (invoke sub_id callback value address) report st).
Proof.
  intros Hs He Hf. unfold live_turn, try_except.
  rewrite live_invoke_quiet by exact Hs.
  destruct (callback value address) as [e|] eqn:Ecb.
  - rewrite (invoke_raises _ _ _ _ _ _ Ecb).
    destruct (is_Exception e); [|reflexivity].
    unfold report. rewrite (bind_ok self _ _ _ _ eq_refl).
    apply (live_report_quiet reach fuel e _ He []); [reflexivity | exact Hf].
  - rewrite (invoke_returns _ _ _ _ _ Ecb). reflexivity.
Qed.

Lemma live_loop_quiet reach (fuel : nat) address value (ids : list Z)
    (todo : list (Z * (str * SubscriptionCallback))) :
  Forall (fun s => of_subscriber reach s.1 value address = []) todo ->
  (forall i e, of_error_callback reach i e = []) ->
  forall st, sub_ids st = ids -> (length (_on_error st) < fuel)%nat ->
    live_loop reach fuel ids todo address value st
    = Some (result_of
        (for_each todo (fun '(sub_id, (pattern, callback)) =>
           if _match_pattern pattern address then
             try_except (invoke sub_id callback value address) report
           else mret ()) st)).
Proof.
  intros Hq He.
  induction Hq as [|[sub_id [pattern callback]] todo Hs _ IH]; intros st Hids Hf.
  all: assert (Hl : (length (_subscriptions st) =? length ids)%nat = true)
         by (apply Nat.eqb_eq; rewrite <- Hids; unfold sub_ids;
             rewrite length_fmap; reflexivity).
  all: cbn [live_loop]; rewrite Hl, (bool_decide_eq_true_2 _ Hids); cbn [negb].
  - reflexivity.
  - cbn [fst] in Hs. cbn [for_each]. unfold mbind at 1, M_bind at 1.
    destruct (_match_pattern pattern address).
    + rewrite live_turn_quiet by assumption.
      destruct (turn_keeps_registries sub_id callback value address st) as [Hk1 Hk2].
      destruct (try_except (invoke sub_id callback value address) report st)
        as [[[]|e] st1]; [|reflexivity].
      cbn [snd] in Hk1, Hk2. apply IH.
      * unfold sub_ids in *. rewrite Hk1. exact Hids.
      * rewrite Hk2. exact Hf.
    + cbn. apply IH; assumption.
Qed.

(** The loop over the live dict, run with callbacks that never call the
    client, is [_notify_subscribers]. *)
Lemma live_notify_unreaching (fuel : nat) (address : str) (value : Value) (st : Clasp) :
  (length (_on_error st) < fuel)%nat ->
  live_notify unreaching fuel address value st
  = Some (result_of (_notify_subscribers address value st)).
Proof.
  intros Hf. unfold live_notify, _notify_subscribers.
  rewrite (bind_ok self _ st st st eq_refl).
  apply live_loop_quiet; [|reflexivity|reflexivity|exact Hf].
  apply Forall_forall. reflexivity.
Qed.

(** C9 as stated fails: the handler that routes a subscriber's exception
    to the error callbacks is itself unguarded.  Here the first subscriber
    raises, the error callback raises in turn, and that exception leaves
    the dispatch loop before the second subscriber is tried.  No callback
    calls the client. *)
Lemma raising_error_callback_aborts_dispatch :
  live_notify unreaching 2 (u "/x") (VInt 3) client_with_raising_error_callback
  = Some (Propagated (UserError 2),
          with_calls (fun l => l ++ [Called 1 (VInt 3) (u "/x");
                                      ErrorCalled 0 (UserError 1)])
            client_with_raising_error_callback)
  /\ (_notify_subscribers (u "/x") (VInt 3) client_with_raising_error_callback).1
     = Raise (UserError 2).
Proof. split; vm_compute; reflexivity. Qed.

(** C9 (amended): when no callback calls the client while the dispatch
    runs (none subscribes, unsubscribes or registers an error callback),
    every exception a subscriber raises is an [Exception] and the error
    callbacks themselves return, a dispatch runs to its end, having called
    every matching subscriber in turn and handed each exception raised to
    every error callback. *)
Theorem dispatch_isolates_subscriber_exceptions
    (reach : Reach) (fuel : nat) (st : Clasp) (address : str) (value : Value) :
  (length (_on_error st) < fuel)%nat ->
  Forall (fun s => of_subscriber reach s.1 value address = []) (_subscriptions st) ->
  (forall i e, of_error_callback reach i e = []) ->
  Forall (fun cb => forall e, cb e = None) (_on_error st) ->
  Forall (fun s => forall e, s.2.2 value address = Some e -> is_Exception e = true)
         (_subscriptions st) ->
  live_notify reach fuel address value st
  = Some (Completed,
          with_calls (fun l => l ++ dispatch_calls (_subscriptions st)
                                      (length (_on_error st)) address value) st).
Proof.
  intros Hf Hq Hqe He Hs. unfold live_notify.
  rewrite (live_loop_quiet reach fuel address value (sub_ids st) _ Hq Hqe st eq_refl Hf).
  rewrite notify_loop_returns by assumption. reflexivity.
Qed.

Lemma dispatch_isolates_subscriber_exceptions_witness :
  live_notify unreaching 3 (u "/x") (VInt 3) client_with_error_callbacks
  = Some (Completed,
          with_calls (fun l => l ++ [ Called 1 (VInt 3) (u "/x");
                                      ErrorCalled 0 (UserError 1);
                                      ErrorCalled 1 (UserError 1);
                                      Called 2 (VInt 3) (u "/x") ])
            client_with_error_callbacks).
Proof.
  apply (dispatch_isolates_subscriber_exceptions unreaching 3 client_with_error_callbacks).
  - cbn. lia.
  - repeat constructor.
  - reflexivity.
  - repeat constructor.
  - repeat constructor; cbn; intros e [= <-]; reflexivity.
Defined.

(** Without the first proviso the claim fails even when nothing is raised:
    a subscriber that unsubscribes itself when it is called changes the
    size of the dict; the iterator raises RuntimeError out of the dispatch,
    and the second subscriber is not called. *)
Example self_unsubscribing_subscriber_ends_dispatch :
  live_notify one_shot 1 (u "/x") (VInt 3) two_subscribers
  = Some (DictChangedSize,
          with_calls (fun l => l ++ [Called 1 (VInt 3) (u "/x")])
            (unsubscribe 1 two_subscribers).2).
Proof. vm_compute. reflexivity. Qed.

(** So it does when a subscriber registers an error callback that raises:
    its own exception is handed to the two callbacks registered before and
    then to the new one, whose exception leaves the dispatch. *)
Example registered_error_callback_ends_dispatch :
  option_map (fun r => (r.1, calls r.2))
    (live_notify registering 4 (u "/x") (VInt 3) client_with_error_callbacks)
  = Some (Propagated (UserError 2),
          [ Called 1 (VInt 3) (u "/x"); ErrorCalled 0 (UserError 1);
            ErrorCalled 1 (UserError 1); ErrorCalled 2 (UserError 1) ]).
Proof. vm_compute. reflexivity. Qed.










Lemma unsubscribed_absent (sub_id : Z) (st : Clasp) :
  sub_id ∉ sub_ids (unsubscribe sub_id st).2.
Proof.
  rewrite unsubscribe_returns. cbn [snd]. unfold sub_ids.
  destruct (existsb _ _) eqn:E; cbn; intros H;
    apply list_elem_of_fmap in H as ([i s] & Hi & H); cbn in Hi; subst i.
  - apply list_elem_of_filter in H as [H _]. apply H. reflexivity.
  - assert (Hex : existsb (fun s => (s.1 =? sub_id)%Z) (_subscriptions st) = true).
    { apply existsb_exists. exists (sub_id, s). split.
      - apply list_elem_of_In. exact H.
      - apply Z.eqb_refl. }
    congruence.
Qed.

(** X10: an unsubscribed callback is not called again.  After
    [unsubscribe], whatever message the receive loop handles, none of the
    calls it logs is a call of that subscription. *)
Theorem unsubscribed_is_never_called (sub_id : Z) (msg : Value) (st : Clasp) :
  let st' := (unsubscribe sub_id st).2 in
  exists new : list call,
    calls (receive msg st').2 = calls st' ++ new
    /\ Forall (fun c => is_call_of sub_id c = false) new.
Proof.
  intros st'.
  set (L := fun s : Clasp =>
              exists new, calls s = calls st' ++ new
                          /\ Forall (fun c => is_call_of sub_id c = false) new).
  set (P := fun s : Clasp => (sub_id ∉ sub_ids s) /\ L s).
  assert (Hlog : forall s c, is_call_of sub_id c = false -> L s ->
                             L (with_calls (fun l => l ++ [c]) s)).
  { intros s c Hc (new & Hn & Hf). exists (new ++ [c]). split.
    - cbn. rewrite Hn. symmetry. apply app_assoc.
    - apply Forall_app. split; [exact Hf|]. constructor; [exact Hc | constructor]. }
  assert (HR : forall e, preserves P (report e)).
  { intros e. apply report_logs_errors. intros s i [Ha Hl].
    split; [exact Ha | apply Hlog; [reflexivity | exact Hl]]. }
  assert (HN : forall a v, preserves P (_notify_subscribers a v)).
  { intros a v. unfold _notify_subscribers. apply preserves_bind_self.
    intros s0 [Ha Hl].
    set (P2 := fun s : Clasp => _subscriptions s = _subscriptions s0 /\ L s).
    assert (H2 : P2 (for_each (_subscriptions s0)
                       (fun '(sub_id, (pattern, callback)) =>
                          if _match_pattern pattern a then
                            try_except (invoke sub_id callback v a) report
                          else mret ()) s0).2).
    { apply (notify_loop_preserves P2 a v); [|split; [reflexivity | exact Hl]].
      intros s c Hc [Hs Hl']. split; [exact Hs|]. apply Hlog; [|exact Hl'].
      destruct c as [i v' a'|]; [|reflexivity]. cbn in Hc. destruct Hc as (_ & _ & Hi).
      cbn. apply Z.eqb_neq. intros ->. apply Ha. exact Hi. }
    destruct H2 as [Hs Hl2]. split; [|exact Hl2].
    unfold sub_ids. rewrite Hs. exact Ha. }
  assert (H : P (receive msg st').2).
  { unfold receive. apply preserves_try_except.
    - apply _handle_message_frame; [|exact HN].
      intros s s' E1 _ E3 [Ha (new & Hn & Hf)]. split.
      + unfold sub_ids. rewrite E1. exact Ha.
      + exists new. rewrite E3. auto.
    - exact HR.
    - split; [apply unsubscribed_absent|].
      exists []. split; [symmetry; apply app_nil_r | constructor]. }
  exact (proj2 H).
Qed.

(** X11: unsubscribing twice is unsubscribing once: the second call
    changes nothing and schedules no second UNSUBSCRIBE. *)
Theorem unsubscribe_twice_is_once (sub_id : Z) (st : Clasp) :
  unsubscribe sub_id (unsubscribe sub_id st).2 = (Ok (), (unsubscribe sub_id st).2).
Proof.
  pose proof (unsubscribed_absent sub_id st) as Ha.
  set (st' := (unsubscribe sub_id st).2) in *.
  rewrite (unsubscribe_returns sub_id st').
  destruct (existsb _ _) eqn:E; [|reflexivity].
  exfalso. apply Ha. apply existsb_exists in E as ([i s] & Hin & Hi).
  cbn in Hi. apply Z.eqb_eq in Hi. subst i.
  unfold sub_ids. apply list_elem_of_In in Hin.
  apply (list_elem_of_fmap_2 fst) in Hin. exact Hin.
Qed.

(** ** Outbound operations *)


Lemma _send_connected (packb : Value -> res bytes) (msg : Msg) (frame : bytes)
    (st : Clasp) :
  _ws st = true -> _encode packb msg = Ok frame ->
  _send packb msg st = (Ok (), with_sent (fun l => l ++ [frame]) st).
Proof.
  intros Hw He. unfold _send. rewrite (bind_ok self _ st st st eq_refl).
  rewrite Hw. cbn [negb]. rewrite He. reflexivity.
Qed.

Lemma _send_not_connected (packb : Value -> res bytes) (msg : Msg) (st : Clasp) :
  _ws st = false ->
  _send packb msg st = (Raise (ClaspError "Not connected"), st).
Proof.
  intros Hw. unfold _send. rewrite (bind_ok self _ st st st eq_refl).
  rewrite Hw. reflexivity.
Qed.



(** X13: what comes back of what was sent.  An event, handled as an
    inbound message, is dispatched with its payload whatever the payload
    is; a stream sample is dispatched with its value when the value is
    true, and with [None] otherwise. *)
Theorem echoed_publish_dispatch
    (address : str) (payload value timestamp : Value) (st : Clasp) :
  _handle_message (VDict (emit_message address payload timestamp)) st
  = _notify_subscribers address payload st
  /\ _handle_message (VDict (stream_message address value timestamp)) st
     = _notify_subscribers address (if truthy value then value else VNone) st.
Proof.
  split.
  - unfold _handle_message. set (msg := VDict _).
    rewrite (bind_ok (lift (py_get msg (u "type"))) _ st st
               (VStr (u "PUBLISH")) eq_refl).
    change (eq_str (VStr (u "PUBLISH")) (u "SET")) with false.
    change (eq_str (VStr (u "PUBLISH")) (u "SNAPSHOT")) with false.
    change (eq_str (VStr (u "PUBLISH")) (u "PUBLISH")) with true. cbn iota.
    rewrite (bind_ok (lift (py_getitem msg (u "address"))) _ st st
               (VStr address) eq_refl).
    rewrite (bind_ok (lift (py_get msg (u "value"))) _ st st VNone eq_refl).
    rewrite (bind_ok (lift (py_get msg (u "payload"))) _ st st payload eq_refl).
    rewrite (bind_ok (lift (as_address (VStr address))) _ st st address eq_refl).
    reflexivity.
  - unfold _handle_message. set (msg := VDict _).
    rewrite (bind_ok (lift (py_get msg (u "type"))) _ st st
               (VStr (u "PUBLISH")) eq_refl).
    change (eq_str (VStr (u "PUBLISH")) (u "SET")) with false.
    change (eq_str (VStr (u "PUBLISH")) (u "SNAPSHOT")) with false.
    change (eq_str (VStr (u "PUBLISH")) (u "PUBLISH")) with true. cbn iota.
    rewrite (bind_ok (lift (py_getitem msg (u "address"))) _ st st
               (VStr address) eq_refl).
    rewrite (bind_ok (lift (py_get msg (u "value"))) _ st st value eq_refl).
    rewrite (bind_ok (lift (py_get msg (u "payload"))) _ st st VNone eq_refl).
    rewrite (bind_ok (lift (as_address (VStr address))) _ st st address eq_refl).
    reflexivity.
Qed.

Lemma format_bundle_operations (ops : list operation) :
  format_bundle (operation_dict <$> ops) = inr (operation_wire <$> ops).
Proof.
  induction ops as [|o ops IH]; [reflexivity|].
  change (operation_dict <$> o :: ops)
    with (operation_dict o :: (operation_dict <$> ops)).
  change (operation_wire <$> o :: ops)
    with (operation_wire o :: (operation_wire <$> ops)).
  cbn [format_bundle]. destruct o as [a v|a p].
  - change (assoc (u "set") (operation_dict (OpSet a v))) with (Some (VList [a; v])).
    change (py_index (VList [a; v]) 0) with (@inr bundle_exn Value a).
    change (py_index (VList [a; v]) 1) with (@inr bundle_exn Value v).
    cbn iota. rewrite IH. reflexivity.
  - change (assoc (u "set") (operation_dict (OpEmit a p))) with (@None Value).
    change (assoc (u "emit") (operation_dict (OpEmit a p))) with (Some (VList [a; p])).
    change (py_index (VList [a; p]) 0) with (@inr bundle_exn Value a).
    change (py_index (VList [a; p]) 1) with (@inr bundle_exn Value p).
    cbn iota. rewrite IH. reflexivity.
Qed.


(** X15: an operation that has neither a ["set"] nor an ["emit"] key is
    passed over in silence: the bundle is formatted as if it were not
    there. *)
Theorem bundle_skips_unknown_operations (before after : list Msg) (m : Msg) :
  assoc (u "set") m = None -> assoc (u "emit") m = None ->
  format_bundle (before ++ m :: after) = format_bundle (before ++ after).
Proof.
  intros Hs He. induction before as [|x before IH]; cbn [app format_bundle].
  - rewrite Hs, He. reflexivity.
  - rewrite IH. reflexivity.
Qed.

Lemma bundle_skips_unknown_operations_witness :
  format_bundle ([operation_dict (OpSet (VStr (u "/a")) (VInt 1))]
                   ++ [(u "get", VList [VStr (u "/a")])]
                   :: [operation_dict (OpEmit (VStr (u "/b")) VNone)])
  = format_bundle ([operation_dict (OpSet (VStr (u "/a")) (VInt 1))]
                     ++ [operation_dict (OpEmit (VStr (u "/b")) VNone)]).
Proof. apply bundle_skips_unknown_operations; reflexivity. Defined.

(** X16: a read of an uncached address on a client without transport
    raises "Not connected" only after it has created its future and put it
    in the table: the slot and the pending future stay behind, and nothing
    is sent. *)
Theorem get_without_transport_leaves_its_slot
    (packb : Value -> res bytes) (address : str) (st : Clasp) :
  _ws st = false -> _params st !! address = None ->
  exists st',
    get_begin packb address st = (Raise (ClaspError "Not connected"), st')
    /\ _pending_gets st' !! address = Some (length (futures st))
    /\ futures st' = futures st ++ [Pending]
    /\ sent st' = sent st.
Proof.
  intros Hw Hc. unfold get_begin. rewrite (bind_ok self _ st st st eq_refl). rewrite Hc.
  set (st1 := with_futures (fun fs => fs ++ [Pending]) st).
  rewrite (bind_ok (modify (with_futures (fun fs => fs ++ [Pending]))) _ st st1 ()
             eq_refl).
  set (st2 := with_pending_gets (fun m => <[address := length (futures st)]> m) st1).
  rewrite (bind_ok (modify _) _ st1 st2 () eq_refl).
  rewrite (bind_raise _ _ st2 st2 _ (_send_not_connected packb _ st2 Hw)).
  exists st2. split; [reflexivity|]. split; [apply lookup_insert_eq|].
  split; reflexivity.
Qed.

Lemma get_without_transport_leaves_its_slot_witness :
  exists st',
    get_begin Msgpack.packb (u "/x") __init__ = (Raise (ClaspError "Not connected"), st')
    /\ _pending_gets st' !! u "/x" = Some (length (futures __init__))
    /\ futures st' = futures __init__ ++ [Pending]
    /\ sent st' = sent __init__.
Proof. apply get_without_transport_leaves_its_slot; reflexivity. Defined.

(** X17: without transport, [set], [emit], [stream] and [bundle] raise
    "Not connected" and leave the object exactly as it was. *)
Theorem outbound_without_transport_changes_nothing
    (packb : Value -> res bytes) (address : str) (v t at_ : Value)
    (ops : list operation) (st : Clasp) :
  _ws st = false ->
  set packb address v st = (Raise (ClaspError "Not connected"), st)
  /\ emit packb address v t st = (Raise (ClaspError "Not connected"), st)
  /\ stream packb address v t st = (Raise (ClaspError "Not connected"), st)
  /\ bundle packb (operation_dict <$> ops) at_ st
     = (inl (Exn (ClaspError "Not connected")), st).
Proof.
  intros Hw. repeat split; try (apply _send_not_connected; exact Hw).
  unfold bundle. rewrite format_bundle_operations.
  rewrite (_send_not_connected packb _ st Hw). reflexivity.
Qed.

Lemma outbound_without_transport_changes_nothing_witness :
  set Msgpack.packb (u "/x") (VInt 1) __init__
  = (Raise (ClaspError "Not connected"), __init__)
  /\ emit Msgpack.packb (u "/x") (VInt 1) (VInt 2) __init__
     = (Raise (ClaspError "Not connected"), __init__)
  /\ stream Msgpack.packb (u "/x") (VInt 1) (VInt 2) __init__
     = (Raise (ClaspError "Not connected"), __init__)
  /\ bundle Msgpack.packb (operation_dict <$> [OpSet (VStr (u "/x")) (VInt 1)]) VNone __init__
     = (inl (Exn (ClaspError "Not connected")), __init__).
Proof.
  exact (outbound_without_transport_changes_nothing Msgpack.packb (u "/x")
           (VInt 1) (VInt 2) VNone [OpSet (VStr (u "/x")) (VInt 1)] __init__ eq_refl).
Defined.


(** ** The handshake *)

Section Handshake.

Context (packb : Value -> res bytes) (unpackb : bytes -> res Value).
Context (PROTOCOL_VERSION : Value).
Context (float_sub_int : N -> Z -> res N) (int_add_float : Z -> N -> res N).

Local Abbreviation connect' := (connect packb unpackb PROTOCOL_VERSION float_sub_int).
Local Abbreviation await' := (await_welcome unpackb float_sub_int).

(** The frame holds a message of a type other than WELCOME. *)
Local Abbreviation not_welcome :=
  (fun data : bytes =>
     exists msg t, _decode unpackb data = Ok msg
                   /\ py_get msg (u "type") = Ok t
                   /\ eq_str t (u "WELCOME") = false).

Lemma await_welcome_skips (pre : list bytes) (inputs : list recv_result) (now : Z)
    (s : Session) :
  Forall not_welcome pre ->
  await' ((Data <$> pre) ++ inputs) now s = await' inputs now s.
Proof.
  induction pre as [|d pre IH]; intros H; [reflexivity|].
  apply Forall_cons in H as [(msg & t & Hd & Ht & Hw) H].
  cbn [fmap list_fmap app await_welcome]. rewrite Hd, Ht, Hw. apply IH, H.
Qed.

Lemma run_on_connect_returns (cbs : list (unit -> option exn)) :
  forall (i : nat) (s : Session),
    Forall (fun cb => cb () = None) cbs ->
    run_on_connect i cbs s
    = (None, with_lifecycle (fun l => l ++ (ConnectCalled <$> seq i (length cbs))) s).
Proof.
  induction cbs as [|cb cbs IH]; intros i s H.
  - cbn. unfold with_lifecycle. rewrite app_nil_r. destruct s; reflexivity.
  - apply Forall_cons in H as [Hcb H]. cbn [run_on_connect]. rewrite Hcb.
    rewrite (IH (S i) _ H). unfold with_lifecycle. cbn. rewrite <- app_assoc.
    reflexivity.
Qed.

Lemma connect_established (s : Session) (frame : bytes) (pre : list bytes)
    (w : bytes) (rest : list recv_result) (items : Msg) (session : Value) (t now : Z) :
  _connected (client s) = false ->
  _encode packb (hello PROTOCOL_VERSION s) = Ok frame ->
  Forall not_welcome pre ->
  _decode unpackb w = Ok (VDict items) ->
  assoc (u "type") items = Some (VStr (u "WELCOME")) ->
  assoc (u "session") items = Some session ->
  assoc (u "time") items = Some (VInt t) ->
  Forall (fun cb => cb () = None) (_on_connect s) ->
  connect' true ((Data <$> pre) ++ Data w :: rest) now s
  = (Established, established frame session (t - now) s).
Proof.
  intros Hc He Hpre Hw Ht Hs Htime Hcb. unfold connect. rewrite Hc. cbn [negb].
  cbv zeta.
  change (hello PROTOCOL_VERSION (with_client (with_ws true) s))
    with (hello PROTOCOL_VERSION s).
  change (client (with_client (with_ws true) s)) with (with_ws true (client s)).
  rewrite (_send_connected packb (hello PROTOCOL_VERSION s) frame
             (with_ws true (client s)) eq_refl He).
  rewrite (await_welcome_skips _ _ _ _ Hpre). cbn [await_welcome]. rewrite Hw.
  unfold py_get, py_get_default. rewrite Ht. cbn [default from_option id].
  change (eq_str (VStr (u "WELCOME")) (u "WELCOME")) with true. cbn iota.
  unfold welcome, py_getitem. rewrite Hs, Htime. cbn [res_bind sub_clock].
  rewrite run_on_connect_returns by exact Hcb. reflexivity.
Qed.

(** X18: the handshake.  [connect] on a client that is not connected
    sends HELLO, drops every message it reads before the WELCOME, and on
    the WELCOME stores the session id, marks the client connected, starts
    the receive task and calls the connect callbacks in order.  The frames
    it dropped leave no trace: cache and subscriber calls are as
    before. *)
Theorem handshake_establishes_session (s : Session) (frame : bytes) (pre : list bytes)
    (w : bytes) (rest : list recv_result) (items : Msg) (session : Value) (t now : Z) :
  _connected (client s) = false ->
  _encode packb (hello PROTOCOL_VERSION s) = Ok frame ->
  Forall not_welcome pre ->
  _decode unpackb w = Ok (VDict items) ->
  assoc (u "type") items = Some (VStr (u "WELCOME")) ->
  assoc (u "session") items = Some session ->
  assoc (u "time") items = Some (VInt t) ->
  Forall (fun cb => cb () = None) (_on_connect s) ->
  (connect' true ((Data <$> pre) ++ Data w :: rest) now s).1 = Established
  /\ let s' := (connect' true ((Data <$> pre) ++ Data w :: rest) now s).2 in
     _connected (client s') = true
     /\ _ws (client s') = true
     /\ _session_id s' = session
     /\ sent (client s') = sent (client s) ++ [frame]
     /\ _params (client s') = _params (client s)
     /\ calls (client s') = calls (client s)
     /\ (exists i, _receive_task s' = Some i /\ loop_tasks s' !! i = Some Running)
     /\ lifecycle s' = lifecycle s ++ (ConnectCalled <$> seq 0 (length (_on_connect s))).
Proof.
  intros Hc He Hpre Hw Ht Hs Htime Hcb.
  rewrite (connect_established s frame pre w rest items session t now
             Hc He Hpre Hw Ht Hs Htime Hcb).
  split; [reflexivity|]. cbn. repeat split.
  exists (length (loop_tasks s)). split; [reflexivity|].
  rewrite lookup_app_r by reflexivity. rewrite Nat.sub_diag. reflexivity.
Qed.

(** X19: the clock.  After a handshake whose WELCOME carried the integer
    time [t] and was read at local clock [now], [time()] at local clock
    [now'] is [now' + (t - now)]: the server's time at the handshake, moved
    on by the local clock. *)
Theorem time_follows_the_welcome (s : Session) (frame : bytes) (pre : list bytes)
    (w : bytes) (rest : list recv_result) (items : Msg) (session : Value)
    (t now now' : Z) :
  _connected (client s) = false ->
  _encode packb (hello PROTOCOL_VERSION s) = Ok frame ->
  Forall not_welcome pre ->
  _decode unpackb w = Ok (VDict items) ->
  assoc (u "type") items = Some (VStr (u "WELCOME")) ->
  assoc (u "session") items = Some session ->
  assoc (u "time") items = Some (VInt t) ->
  Forall (fun cb => cb () = None) (_on_connect s) ->
  time int_add_float now'
    (connect' true ((Data <$> pre) ++ Data w :: rest) now s).2
  = Ok (VInt (now' + (t - now))).
Proof.
  intros Hc He Hpre Hw Ht Hs Htime Hcb.
  rewrite (connect_established s frame pre w rest items session t now
             Hc He Hpre Hw Ht Hs Htime Hcb).
  reflexivity.
Qed.

(** X20: a second [connect] after a successful handshake raises "Already
    connected" and does nothing else: it does not dial, send or read. *)
Theorem connect_twice_is_refused (s : Session) (frame : bytes) (pre : list bytes)
    (w : bytes) (rest : list recv_result) (items : Msg) (session : Value) (t now : Z)
    (dial : bool) (inputs : list recv_result) (now' : Z) :
  _connected (client s) = false ->
  _encode packb (hello PROTOCOL_VERSION s) = Ok frame ->
  Forall not_welcome pre ->
  _decode unpackb w = Ok (VDict items) ->
  assoc (u "type") items = Some (VStr (u "WELCOME")) ->
  assoc (u "session") items = Some session ->
  assoc (u "time") items = Some (VInt t) ->
  Forall (fun cb => cb () = None) (_on_connect s) ->
  let s' := (connect' true ((Data <$> pre) ++ Data w :: rest) now s).2 in
  connect' dial inputs now' s' = (AlreadyConnected, s').
Proof.
  intros Hc He Hpre Hw Ht Hs Htime Hcb.
  rewrite (connect_established s frame pre w rest items session t now
             Hc He Hpre Hw Ht Hs Htime Hcb).
  reflexivity.
Qed.

(** A frame that decodes to a message of type WELCOME. *)
Local Abbreviation is_welcome :=
  (fun data : bytes =>
     exists msg t, _decode unpackb data = Ok msg
                   /\ py_get msg (u "type") = Ok t
                   /\ eq_str t (u "WELCOME") = true).

Lemma await_without_welcome (inputs : list recv_result) (now : Z) (s : Session) :
  Forall (fun r => forall d, r = Data d -> ~ is_welcome d) inputs ->
  (await' inputs now s).1 <> Established /\ (await' inputs now s).2 = s.
Proof.
  induction inputs as [|r inputs IH]; intros H.
  - split; [discriminate | reflexivity].
  - apply Forall_cons in H as [Hr H]. destruct r as [d|reason].
    + cbn [await_welcome]. specialize (Hr d eq_refl).
      destruct (_decode unpackb d) as [msg|e] eqn:Hd.
      * destruct (py_get msg (u "type")) as [t|e] eqn:Ht.
        -- destruct (eq_str t (u "WELCOME")) eqn:Hw.
           ++ exfalso. apply Hr. exists msg, t. auto.
           ++ apply IH, H.
        -- split; [unfold failed; destruct (is_Exception e); discriminate | reflexivity].
      * split; [unfold failed; destruct (is_Exception e); discriminate | reflexivity].
    + split; [discriminate | reflexivity].
Qed.

(** X21: no WELCOME, no session.  As long as none of the frames read is a
    WELCOME, [connect] does not return: it fails or stays suspended, and the
    client is still not connected, with the session id, the clock offset
    and the receive task it had. *)
Theorem no_session_without_welcome (dial : bool) (inputs : list recv_result) (now : Z)
    (s : Session) :
  _connected (client s) = false ->
  Forall (fun r => forall d, r = Data d -> ~ is_welcome d) inputs ->
  (connect' dial inputs now s).1 <> Established
  /\ let s' := (connect' dial inputs now s).2 in
     _connected (client s') = false
     /\ _session_id s' = _session_id s
     /\ _server_time_offset s' = _server_time_offset s
     /\ _receive_task s' = _receive_task s.
Proof.
  intros Hc H. unfold connect. rewrite Hc.
  destruct dial; cbn [negb]; [|split; [discriminate | auto]].
  cbv zeta.
  assert (Hp : _connected
                 (_send packb (hello PROTOCOL_VERSION (with_client (with_ws true) s))
                    (client (with_client (with_ws true) s))).2 = false).
  { apply (_send_preserves packb (fun c => _connected c = false));
      [intros st f Hs; exact Hs | exact Hc]. }
  destruct (_send packb _ _) as [[[]|e] c] eqn:Es; cbn [snd] in Hp.
  - destruct (await_without_welcome inputs now
                (with_client (fun _ => c) (with_client (with_ws true) s)) H) as [H1 H2].
    split; [exact H1|]. rewrite H2. cbn. auto.
  - split; [unfold failed; destruct (is_Exception e); discriminate|]. cbn. auto.
Qed.

(** X22: a handshake cut short.  When the transport closes before the
    WELCOME, [connect] fails with the connection error, but the HELLO has
    been sent and the client keeps the transport object: it is not
    connected and yet has a transport. *)
Theorem handshake_cut_short_keeps_transport (s : Session) (frame : bytes)
    (pre : list bytes) (reason : str) (rest : list recv_result) (now : Z) :
  _connected (client s) = false ->
  _encode packb (hello PROTOCOL_VERSION s) = Ok frame ->
  Forall not_welcome pre ->
  (connect' true ((Data <$> pre) ++ Closed reason :: rest) now s).1
  = ConnectionFailed (TransportClosed reason)
  /\ let s' := (connect' true ((Data <$> pre) ++ Closed reason :: rest) now s).2 in
     _connected (client s') = false
     /\ _ws (client s') = true
     /\ sent (client s') = sent (client s) ++ [frame].
Proof.
  intros Hc He Hpre. unfold connect. rewrite Hc. cbn [negb]. cbv zeta.
  change (hello PROTOCOL_VERSION (with_client (with_ws true) s))
    with (hello PROTOCOL_VERSION s).
  change (client (with_client (with_ws true) s)) with (with_ws true (client s)).
  rewrite (_send_connected packb (hello PROTOCOL_VERSION s) frame
             (with_ws true (client s)) eq_refl He).
  rewrite (await_welcome_skips _ _ _ _ Hpre). cbn. auto.
Qed.

End Handshake.

Ltac not_welcome_frames :=
  repeat first
    [ apply Forall_nil_2
    | apply Forall_cons_2;
      [ eexists; eexists;
        (split; [vm_compute; reflexivity | split; vm_compute; reflexivity]) | ] ].

Ltac handshake_inputs :=
  [> reflexivity
   | vm_compute; reflexivity
   | not_welcome_frames
   | vm_compute; reflexivity
   | reflexivity
   | reflexivity
   | reflexivity
   | repeat constructor ].

Lemma handshake_establishes_session_witness :
  _connected (client connected_session) = true
  /\ _session_id connected_session = VStr (u "s1")
  /\ _params (client connected_session) = _params (client fresh_session)
  /\ lifecycle connected_session = lifecycle fresh_session ++ [ConnectCalled 0].
Proof.
  assert (H : (connect Msgpack.packb Msgpack.unpackb (VInt 1) no_float_sub true
                 ((Data <$> early_frames) ++ Data (frame_of welcome_s1) :: []) 400
                 fresh_session).1 = Established
              /\ let s' := connected_session in
                 _connected (client s') = true
                 /\ _ws (client s') = true
                 /\ _session_id s' = VStr (u "s1")
                 /\ sent (client s') = sent (client fresh_session)
                                        ++ [frame_of (hello (VInt 1) fresh_session)]
                 /\ _params (client s') = _params (client fresh_session)
                 /\ calls (client s') = calls (client fresh_session)
                 /\ (exists i, _receive_task s' = Some i
                               /\ loop_tasks s' !! i = Some Running)
                 /\ lifecycle s' = lifecycle fresh_session
                      ++ (ConnectCalled <$> seq 0 (length (_on_connect fresh_session)))).
  { apply (handshake_establishes_session Msgpack.packb Msgpack.unpackb (VInt 1)
             no_float_sub fresh_session (frame_of (hello (VInt 1) fresh_session))
             early_frames (frame_of welcome_s1) [] welcome_s1 (VStr (u "s1"))
             1000000 400).
    all: handshake_inputs. }
  destruct H as (_ & H1 & _ & H2 & _ & H3 & _ & _ & H4).
  split; [exact H1|]. split; [exact H2|]. split; [exact H3 | exact H4].
Defined.

Lemma time_follows_the_welcome_witness :
  time no_float_add 650 connected_session = Ok (VInt (650 + (1000000 - 400))).
Proof.
  apply (time_follows_the_welcome Msgpack.packb Msgpack.unpackb (VInt 1)
           no_float_sub no_float_add fresh_session
           (frame_of (hello (VInt 1) fresh_session))
           early_frames (frame_of welcome_s1) [] welcome_s1 (VStr (u "s1"))
           1000000 400 650).
  all: handshake_inputs.
Defined.

Lemma connect_twice_is_refused_witness :
  connect Msgpack.packb Msgpack.unpackb (VInt 1) no_float_sub true
    [Data (frame_of welcome_s1)] 900 connected_session
  = (AlreadyConnected, connected_session).
Proof.
  apply (connect_twice_is_refused Msgpack.packb Msgpack.unpackb (VInt 1)
           no_float_sub fresh_session
           (frame_of (hello (VInt 1) fresh_session))
           early_frames (frame_of welcome_s1) [] welcome_s1 (VStr (u "s1"))
           1000000 400).
  all: handshake_inputs.
Defined.

Lemma no_session_without_welcome_witness :
  (connect Msgpack.packb Msgpack.unpackb (VInt 1) no_float_sub true
     [Closed (u "gone")] 400 fresh_session).1 <> Established
  /\ let s' := (connect Msgpack.packb Msgpack.unpackb (VInt 1) no_float_sub true
                  [Closed (u "gone")] 400 fresh_session).2 in
     _connected (client s') = false
     /\ _session_id s' = _session_id fresh_session
     /\ _server_time_offset s' = _server_time_offset fresh_session
     /\ _receive_task s' = _receive_task fresh_session.
Proof.
  apply (no_session_without_welcome Msgpack.packb Msgpack.unpackb (VInt 1)
           no_float_sub true [Closed (u "gone")] 400 fresh_session).
  - reflexivity.
  - constructor; [intros d Hd; discriminate Hd | constructor].
Defined.

Lemma handshake_cut_short_keeps_transport_witness :
  (connect Msgpack.packb Msgpack.unpackb (VInt 1) no_float_sub true
     ((Data <$> early_frames) ++ Closed (u "gone") :: []) 400 fresh_session).1
  = ConnectionFailed (TransportClosed (u "gone"))
  /\ let s' := (connect Msgpack.packb Msgpack.unpackb (VInt 1) no_float_sub true
                  ((Data <$> early_frames) ++ Closed (u "gone") :: []) 400
                  fresh_session).2 in
     _connected (client s') = false
     /\ _ws (client s') = true
     /\ sent (client s') = sent (client fresh_session)
                            ++ [frame_of (hello (VInt 1) fresh_session)].
Proof.
  apply (handshake_cut_short_keeps_transport Msgpack.packb Msgpack.unpackb (VInt 1)
           no_float_sub fresh_session (frame_of (hello (VInt 1) fresh_session))
           early_frames (u "gone") [] 400).
  - reflexivity.
  - vm_compute. reflexivity.
  - not_welcome_frames.
Defined.

(** ** Closing *)

(** X23: [close] always leaves the client disconnected with reconnection
    switched off, and never touches the cache, the subscriptions, the table
    of pending reads or its futures: a read that is waiting is neither
    answered nor failed.  It returns and drops the transport unless the
    receive task had ended with an exception; then it raises that exception
    and the transport stays. *)
Theorem close_disconnects_and_keeps_the_data (s : Session) :
  let s' := (close s).2 in
  reconnect s' = false
  /\ _connected (client s') = false
  /\ _params (client s') = _params (client s)
  /\ _subscriptions (client s') = _subscriptions (client s)
  /\ _pending_gets (client s') = _pending_gets (client s)
  /\ futures (client s') = futures (client s)
  /\ match (close s).1 with
     | Ok _ => _ws (client s') = false
     | Raise e =>
         _ws (client s') = _ws (client s)
         /\ exists i, _receive_task s = Some i
                      /\ loop_tasks s !! i = Some (Finished (Some e))
     end.
Proof.
  unfold close. cbn [_receive_task with_client with_reconnect loop_tasks].
  destruct (_receive_task s) as [i|]; [destruct (loop_tasks s !! i) as [[| |[e|]]|] eqn:E|];
    cbn; destruct (_ws (client s)) eqn:Hw; cbn; repeat split; eauto.
Qed.

(** X24: closing twice is closing once: after a [close] that returned, a
    second [close] returns and changes nothing. *)
Theorem close_twice_is_once (s : Session) :
  (close s).1 = Ok () -> close (close s).2 = (Ok (), (close s).2).
Proof.
  unfold close at 1 3 4. cbn [_receive_task with_client with_reconnect loop_tasks].
  destruct (_receive_task s) as [i|] eqn:Et;
    [destruct (loop_tasks s !! i) as [[| |[e|]]|] eqn:E|];
    cbn; destruct (_ws (client s)) eqn:Hw; cbn; intros H; try discriminate H;
    unfold close; cbn; rewrite ?Et; cbn;
    rewrite ?E, ?Hw; cbn;
    try (rewrite list_lookup_insert_eq by (apply lookup_lt_Some in E; exact E); cbn);
    rewrite ?Hw; try rewrite list_insert_insert_eq; try reflexivity.
Qed.

Lemma close_twice_is_once_witness :
  (close connected_session).1 = Ok ()
  /\ close (close connected_session).2 = (Ok (), (close connected_session).2).
Proof.
  assert (H : (close connected_session).1 = Ok ()) by (vm_compute; reflexivity).
  split; [exact H | exact (close_twice_is_once connected_session H)].
Defined.

(** ** The receive loop *)

Section ReceiveLoop.

Context (packb : Value -> res bytes) (unpackb : bytes -> res Value).
Context (PROTOCOL_VERSION : Value) (float_sub_int : N -> Z -> res N).

Local Abbreviation loop' :=
  (_receive_loop packb unpackb PROTOCOL_VERSION float_sub_int).

(** X25: a frame that does not decode ends the receive loop.  The frames
    after it are never read; on a connected client its exception goes to
    the error callbacks and the loop returns, with the client still marked
    connected. *)
Theorem undecodable_frame_ends_the_loop (bad : bytes) (e : exn)
    (pre : list bytes) (rest : list recv_result) (dial : bool)
    (reinputs : list recv_result) (now : Z) (s : Session) :
  _decode unpackb bad = Raise e ->
  loop' ((Data <$> pre) ++ Data bad :: rest) dial reinputs now s
  = loop' ((Data <$> pre) ++ [Data bad]) dial reinputs now s
  /\ (_connected (client s) = true -> _ws (client s) = true ->
      is_Exception e = true ->
      Forall (fun cb => cb e = None) (_on_error (client s)) ->
      loop' (Data bad :: rest) dial reinputs now s
      = (LoopReturned,
         with_client (fun c => with_calls
                        (fun l => l ++ reported e (length (_on_error c))) c) s)).
Proof.
  intros Hb. split.
  - revert s. induction pre as [|d pre IH]; intros s.
    + cbn [fmap list_fmap app _receive_loop]. rewrite Hb. reflexivity.
    + cbn [fmap list_fmap app _receive_loop].
      destruct (_connected (client s) && _ws (client s)); [|reflexivity].
      destruct (_decode unpackb d) as [msg|e']; [|reflexivity].
      destruct (_handle_message msg (client s)) as [[[]|e'] c]; [|reflexivity].
      apply IH.
  - intros Hc Hw He Hcb. cbn [_receive_loop]. rewrite Hc, Hw, Hb. cbn [andb].
    unfold loop_exception. rewrite He. rewrite (report_returns e _ Hcb).
    destruct s; reflexivity.
Qed.

Lemma run_on_disconnect_returns (reason : str) (cbs : list (str -> option exn)) :
  forall (i : nat) (s : Session),
    Forall (fun cb => cb reason = None) cbs ->
    run_on_disconnect reason i cbs s
    = (None, with_lifecycle
               (fun l => l ++ ((fun j => DisconnectCalled j reason) <$> seq i (length cbs)))
               s).
Proof.
  induction cbs as [|cb cbs IH]; intros i s H.
  - cbn. unfold with_lifecycle. rewrite app_nil_r. destruct s; reflexivity.
  - apply Forall_cons in H as [Hcb H]. cbn [run_on_disconnect]. rewrite Hcb.
    rewrite (IH (S i) _ H). unfold with_lifecycle. cbn. rewrite <- app_assoc.
    reflexivity.
Qed.

(** The state the loop leaves when the transport has closed and the
    disconnect callbacks have returned. *)
Local Abbreviation disconnected :=
  (fun (reason : str) (s : Session) =>
     with_lifecycle
       (fun l => l ++ ((fun j => DisconnectCalled j reason)
                         <$> seq 0 (length (_on_disconnect s))))
       (with_client (set_connected false) s)).

Lemma loop_closed_disconnects (reason : str) (rest : list recv_result) (dial : bool)
    (reinputs : list recv_result) (now : Z) (s : Session) :
  _connected (client s) = true -> _ws (client s) = true ->
  Forall (fun cb => cb reason = None) (_on_disconnect s) ->
  loop' (Closed reason :: rest) dial reinputs now s
  = if reconnect s then
      match connect packb unpackb PROTOCOL_VERSION float_sub_int dial reinputs now
              (disconnected reason s) with
      | (Escaped e, s3) => (LoopRaised e, s3)
      | (AwaitingWelcome, s3) => (LoopSuspended, s3)
      | (_, s3) => (LoopReturned, s3)
      end
    else (LoopReturned, disconnected reason s).
Proof.
  intros Hc Hw Hcb. cbn [_receive_loop]. rewrite Hc, Hw. cbn [andb].
  unfold loop_closed. cbv zeta.
  change (_on_disconnect (with_client (set_connected false) s)) with (_on_disconnect s).
  rewrite (run_on_disconnect_returns reason _ 0 _ Hcb). reflexivity.
Qed.


(** X27: a reconnection that fails is swallowed.  With reconnection on,
    when the transport closes and the new connection cannot be opened, the
    loop returns without an exception and the client stays disconnected:
    the one attempt is all there is. *)
Theorem failed_reconnection_is_swallowed (reason : str) (rest : list recv_result)
    (reinputs : list recv_result) (now : Z) (s : Session) :
  _connected (client s) = true -> _ws (client s) = true ->
  reconnect s = true ->
  Forall (fun cb => cb reason = None) (_on_disconnect s) ->
  (loop' (Closed reason :: rest) false reinputs now s).1 = LoopReturned
  /\ let s' := (loop' (Closed reason :: rest) false reinputs now s).2 in
     _connected (client s') = false
     /\ sent (client s') = sent (client s)
     /\ _receive_task s' = _receive_task s
     /\ loop_tasks s' = loop_tasks s.
Proof.
  intros Hc Hw Hr Hcb. rewrite (loop_closed_disconnects _ _ _ _ _ _ Hc Hw Hcb), Hr.
  unfold connect. cbn. repeat split.
Qed.

(** X28: a reconnection that succeeds.  With reconnection on, when the
    transport closes and the new connection answers HELLO with a WELCOME,
    the loop returns with the client connected again under the new session
    id, the HELLO sent, and a new receive task running. *)
Theorem reconnection_establishes_a_new_session (reason : str) (rest : list recv_result)
    (frame : bytes) (pre : list bytes) (w : bytes) (rest' : list recv_result)
    (items : Msg) (session : Value) (t now : Z) (s : Session) :
  _connected (client s) = true -> _ws (client s) = true ->
  reconnect s = true ->
  Forall (fun cb => cb reason = None) (_on_disconnect s) ->
  _encode packb (hello PROTOCOL_VERSION s) = Ok frame ->
  Forall (fun data => exists msg ty, _decode unpackb data = Ok msg
                                     /\ py_get msg (u "type") = Ok ty
                                     /\ eq_str ty (u "WELCOME") = false) pre ->
  _decode unpackb w = Ok (VDict items) ->
  assoc (u "type") items = Some (VStr (u "WELCOME")) ->
  assoc (u "session") items = Some session ->
  assoc (u "time") items = Some (VInt t) ->
  Forall (fun cb => cb () = None) (_on_connect s) ->
  let r := loop' (Closed reason :: rest) true ((Data <$> pre) ++ Data w :: rest') now s in
  r.1 = LoopReturned
  /\ _connected (client r.2) = true
  /\ _session_id r.2 = session
  /\ sent (client r.2) = sent (client s) ++ [frame]
  /\ _receive_task r.2 = Some (length (loop_tasks s))
  /\ loop_tasks r.2 = loop_tasks s ++ [Running].
Proof.
  intros Hc Hw Hr Hcb He Hpre Hd Ht Hs Htime Hcc r. subst r.
  rewrite (loop_closed_disconnects _ _ _ _ _ _ Hc Hw Hcb), Hr.
  rewrite (connect_established packb unpackb PROTOCOL_VERSION float_sub_int
             (disconnected reason s) frame pre w rest' items session t now
             eq_refl He Hpre Hd Ht Hs Htime Hcc).
  cbn. repeat split.
Qed.

End ReceiveLoop.

Lemma undecodable_frame_ends_the_loop_witness :
  _decode Msgpack.unpackb [Byte.x00] = Raise (ClaspError "Invalid frame")
  /\ _receive_loop Msgpack.packb Msgpack.unpackb (VInt 1) no_float_sub
       (Data [Byte.x00] :: [Data (frame_of (set_message (u "/x") (VInt 1)))])
       false [] 0 connected_session
     = (LoopReturned,
        with_client (fun c => with_calls
                       (fun l => l ++ reported (ClaspError "Invalid frame")
                                        (length (_on_error c))) c)
          connected_session).
Proof.
  assert (H : _decode Msgpack.unpackb [Byte.x00] = Raise (ClaspError "Invalid frame"))
    by reflexivity.
  split; [exact H|].
  apply (proj2 (undecodable_frame_ends_the_loop Msgpack.packb Msgpack.unpackb (VInt 1)
                  no_float_sub [Byte.x00] (ClaspError "Invalid frame") []
                  [Data (frame_of (set_message (u "/x") (VInt 1)))] false [] 0
                  connected_session H)).
  - vm_compute. reflexivity.
  - vm_compute. reflexivity.
  - reflexivity.
  - vm_compute. constructor.
Defined.


Lemma failed_reconnection_is_swallowed_witness :
  let r := _receive_loop Msgpack.packb Msgpack.unpackb (VInt 1) no_float_sub
             (Closed (u "gone") :: []) false [] 0 connected_session in
  r.1 = LoopReturned
  /\ let s' := r.2 in
     _connected (client s') = false
     /\ sent (client s') = sent (client connected_session)
     /\ _receive_task s' = _receive_task connected_session
     /\ loop_tasks s' = loop_tasks connected_session.
Proof.
  apply (failed_reconnection_is_swallowed Msgpack.packb Msgpack.unpackb (VInt 1)
           no_float_sub (u "gone") [] [] 0 connected_session).
  - vm_compute. reflexivity.
  - vm_compute. reflexivity.
  - vm_compute. reflexivity.
  - vm_compute. constructor; [reflexivity | constructor].
Defined.

Lemma reconnection_establishes_a_new_session_witness :
  let r := _receive_loop Msgpack.packb Msgpack.unpackb (VInt 1) no_float_sub
             (Closed (u "gone") :: []) true
             ((Data <$> early_frames) ++ Data (frame_of welcome_s1) :: []) 900
             connected_session in
  r.1 = LoopReturned
  /\ _connected (client r.2) = true
  /\ _session_id r.2 = VStr (u "s1")
  /\ sent (client r.2) = sent (client connected_session)
                          ++ [frame_of (hello (VInt 1) fresh_session)]
  /\ _receive_task r.2 = Some (length (loop_tasks connected_session))
  /\ loop_tasks r.2 = loop_tasks connected_session ++ [Running].
Proof.
  apply (reconnection_establishes_a_new_session Msgpack.packb Msgpack.unpackb (VInt 1)
           no_float_sub (u "gone") [] (frame_of (hello (VInt 1) fresh_session))
           early_frames (frame_of welcome_s1) [] welcome_s1 (VStr (u "s1")) 1000000 900
           connected_session).
  - vm_compute. reflexivity.
  - vm_compute. reflexivity.
  - vm_compute. reflexivity.
  - vm_compute. constructor; [reflexivity | constructor].
  - vm_compute. reflexivity.
  - not_welcome_frames.
  - vm_compute. reflexivity.
  - reflexivity.
  - reflexivity.
  - reflexivity.
  - vm_compute. constructor; [reflexivity | constructor].
Defined.

(** ** Construction *)

(** X29: a client never has an empty feature list.  The constructor puts
    the default features in place of an empty list as it does for [None],
    so a builder given [with_features([])] builds a client with the
    default features; and [with_reconnect] called without an interval
    puts the interval back to 5.0, whatever it was. *)
Theorem empty_features_become_the_default
    (url name : str) (fs : option (list str)) (token : Value) (r : bool) (i : N)
    (b : ClaspBuilder.t) (enabled : bool) :
  features (Clasp_new url name fs token r i) <> []
  /\ features (ClaspBuilder.build (ClaspBuilder.with_features [] b)) = default_features
  /\ reconnect_interval
       (ClaspBuilder.build (ClaspBuilder.with_reconnect enabled None b))
     = ClaspBuilder.five.
Proof.
  split; [|split; reflexivity].
  destruct fs as [[|f l]|]; discriminate.
Qed.
